(** * Smart door system: a shallow embedding of the security core

    The development follows the four modules of the repository that carry
    the access decision:

    - [modules/fingerprint_module.py]: the framed serial protocol of the
      fingerprint sensor ([FingerprintSensor]);
    - [modules/face_recognition_module.py]: the nearest-neighbour decision
      of [FaceRecognitionEngine.process_frame];
    - [modules/door_control.py]: [DoorController] and its relock timer;
    - [modules/auth_engine.py]: the [AuthenticationEngine] state machine.

    Python [float]s (clock readings, durations, distances, confidences)
    are modelled by rationals [Q]; Python [int]s by [Z]; [bytes] by
    [list byte]; [dict]s and tables of the persistence layer by [gmap];
    objects that are mutated in place are threaded explicitly. *)

From Stdlib Require Import ZArith QArith Qminmax Qabs Lia Lqa List Strings.Byte String.
From stdpp Require Import base option list gmap strings pretty.

Local Open Scope Z_scope.

(** ** Python [bytes] *)

Module PyBytes.

(** [bytes([z])]: raises [ValueError] (here [None]) outside range(256). *)
Definition byte_of_int (z : Z) : option byte :=
  if bool_decide (0 <= z < 256) then Byte.of_N (Z.to_N z) else None.

Definition int_of_byte (b : byte) : Z := Z.of_N (Byte.to_N b).

(** [bytes(l)] for a list of ints. *)
Definition bytes (l : list Z) : option (list byte) := mapM byte_of_int l.

(** [bytes([z & 0xFF])], which cannot raise. *)
Definition low_byte (z : Z) : byte :=
  default "000"%byte (byte_of_int (Z.land z 255)).

(** [sum(bs)] over a bytes object. *)
Definition sum (bs : list byte) : Z :=
  foldr (fun b acc => int_of_byte b + acc) 0 bs.

End PyBytes.
Import PyBytes.

(** ** [modules/fingerprint_module.py] *)

Module Fingerprint.

Inductive FingerprintStatus :=
| WAITING | SCANNING | CAPTURED | MATCHED | NOT_MATCHED
| SENSOR_ERROR | TIMEOUT | NO_FINGER | SENSOR_DISCONNECTED.

#[global] Instance FingerprintStatus_eq_dec : EqDecision FingerprintStatus.
Proof. solve_decision. Defined.

Record FingerprintResult := mkFingerprintResult {
  status : FingerprintStatus;
  user_id : option Z;
  user_name : option string;
  employee_id : option string;
  fingerprint_id : option Z;
  confidence : Q;
  message : string
}.

(** The dataclass defaults: [FingerprintResult(status=st, message=msg)]. *)
Definition result_of (st : FingerprintStatus) (msg : string) : FingerprintResult :=
  mkFingerprintResult st None None None None 0%Q msg.

Definition HEADER : list byte := [low_byte 0xEF; low_byte 0x01].
Definition ADDRESS : list byte :=
  [low_byte 0xFF; low_byte 0xFF; low_byte 0xFF; low_byte 0xFF].

Definition CMD_GET_IMAGE : Z := 0x01.
Definition CMD_GEN_CHAR : Z := 0x02.
Definition CMD_SEARCH : Z := 0x04.
Definition CMD_STORE_CHAR : Z := 0x06.
Definition CMD_DELETE_CHAR : Z := 0x0C.
Definition CMD_VERIFY_PASSWORD : Z := 0x13.

Definition PACKAGE_IDENTIFIER : byte := low_byte 0x01.

(** The packet of [_send_command] before the checksum is appended
    (source lines 197-206). *)
Definition packet_body (command : Z) (data : list byte) : option (list byte) :=
  c ← byte_of_int command;
  let packet_data := [c] ++ data in
  let length := Z.of_nat (List.length packet_data) + 2 in
  Some (HEADER ++ ADDRESS ++ [PACKAGE_IDENTIFIER]
          ++ [low_byte (Z.shiftr length 8); low_byte length]
          ++ packet_data).

(** [sum(packet[6:]) & 0xFFFF] (source line 209). *)
Definition checksum (packet : list byte) : Z :=
  Z.land (sum (drop 6 packet)) 0xFFFF.

(** The bytes handed to [self._serial.write] (source lines 197-210). *)
Definition build_packet (command : Z) (data : list byte) : option (list byte) :=
  packet ← packet_body command data;
  let checksum := checksum packet in
  Some (packet ++ [low_byte (Z.shiftr checksum 8); low_byte checksum]).

(** The two length bytes in front of a payload. *)
Definition length_field (payload : list byte) : list byte :=
  let length := Z.of_nat (List.length payload) + 2 in
  [low_byte (Z.shiftr length 8); low_byte length].

(** The checksum as the specification words it: the sum of all bytes
    from the length field through the end of the payload, truncated to 16
    bits.  It is compared with [checksum] below. *)
Definition spec_checksum (payload : list byte) : Z :=
  Z.land (sum (length_field payload ++ payload)) 0xFFFF.

(** The serial line.  [tx] collects what was written; every call of
    [read] consumes one entry of [rx]: the bytes that arrive before the
    port's read timeout, or a [SerialException]. *)
Inductive Incoming := Arrives (bs : list byte) | SerialException.

Record Port := mkPort { tx : list (list byte); rx : list Incoming }.

Record FingerprintSensor := mkSensor {
  simulation : bool;
  _serial : option bool;          (* [None], or the port with its [is_open] flag *)
  _connected : bool;
  _sim_fingerprints : list (Z * Z) (* fingerprint_id -> user_id, in insertion order *)
}.

(** A sensor on a real, open serial port. *)
Definition hardware (self : FingerprintSensor) : Prop :=
  simulation self = false /\ _connected self = true /\ _serial self = Some true.

(** Response parsing of [_send_command] (source lines 216-221). *)
Definition parse_response (response : list byte) : Z * list byte :=
  if bool_decide (List.length response < 12)%nat then (0xFF, [])
  else
    let confirmation_code := default 0 (int_of_byte <$> response !! 9%nat) in
    (confirmation_code,
     if bool_decide (12 < List.length response)%nat
     then take (List.length response - 2 - 10) (drop 10 response)
     else []).

(** [_send_command]: [None] is the [ValueError] of [bytes([command])]. *)
Definition _send_command (self : FingerprintSensor) (port : Port)
    (command : Z) (data : list byte) : option ((Z * list byte) * Port) :=
  if simulation self then Some ((0x00, []), port)
  else if negb (default false (_serial self)) then Some ((0xFF, []), port)
  else
    packet ← build_packet command data;
    match rx port with
    | Arrives bs :: rest =>
        (* [self._serial.read(12)] returns at most 12 bytes *)
        let response := take 12 bs in
        Some (parse_response response, mkPort (tx port ++ [packet]) rest)
    | SerialException :: rest =>
        Some ((0xFF, []), mkPort (tx port ++ [packet]) rest)
    | [] =>
        (* nothing arrives before the read timeout: [read] returns b'' *)
        Some (parse_response [], mkPort (tx port ++ [packet]) [])
    end.

Definition FINGERPRINT_TIMEOUT : Q := 5.

(** The polling loop of [capture_fingerprint] (source lines 264-295).
    [polls] is the number of times the loop condition
    [time.time() - start_time < timeout] holds. *)
Fixpoint capture_loop (self : FingerprintSensor) (polls : nat) (port : Port)
    : option (FingerprintResult * Port) :=
  match polls with
  | O => Some (result_of TIMEOUT "Fingerprint capture timed out", port)
  | S polls' =>
      '((code, _), port) ← _send_command self port CMD_GET_IMAGE [];
      if bool_decide (code = 0x00) then
        '((code, _), port) ← _send_command self port CMD_GEN_CHAR [low_byte 0x01];
        if bool_decide (code = 0x00)
        then Some (result_of CAPTURED "Fingerprint captured successfully", port)
        else Some (result_of SENSOR_ERROR "Failed to process fingerprint image", port)
      else if bool_decide (code = 0x02) then capture_loop self polls' port
      else Some (result_of SENSOR_ERROR ("Sensor error code: " +:+ pretty code), port)
  end.

Definition capture_fingerprint (self : FingerprintSensor) (polls : nat) (port : Port)
    : option (FingerprintResult * Port) :=
  if negb (_connected self)
  then Some (result_of SENSOR_DISCONNECTED "Sensor not connected", port)
  else if simulation self
  then Some (result_of CAPTURED "Fingerprint captured (simulation)", port)
  else capture_loop self polls port.

(** A row of [FingerprintRepository.get_by_fingerprint_id]: the
    fingerprint record joined with its user. *)
Record FingerprintRow := mkFingerprintRow {
  row_user_id : Z;
  first_name : string;
  last_name : string;
  row_employee_id : string;
  is_active : bool
}.

Definition full_name (r : FingerprintRow) : string :=
  first_name r +:+ " " +:+ last_name r.

(** The argument bytes of the search command (source line 348). *)
Definition SEARCH_ARGS : list byte :=
  [low_byte 0x01; low_byte 0x00; low_byte 0x00; low_byte 0x00; low_byte 0xA3].

(** [(data[i] << 8) | data[i+1]] *)
Definition be16 (hi lo : byte) : Z :=
  Z.lor (Z.shiftl (int_of_byte hi) 8) (int_of_byte lo).

(** What [search_fingerprint] makes of the sensor's answer to the search
    command (source lines 351-392). *)
Definition decode_search (fingerprint_repo : gmap Z FingerprintRow)
    (code : Z) (data : list byte) : FingerprintResult :=
  match bool_decide (code = 0x00), data with
  | true, d0 :: d1 :: d2 :: d3 :: _ =>
      let fp_id := be16 d0 d1 in
      let match_score := be16 d2 d3 in
      match fingerprint_repo !! fp_id with
      | Some user_data =>
          if negb (is_active user_data) then
            mkFingerprintResult NOT_MATCHED None None None (Some fp_id) 0%Q
              "User account is disabled"
          else
            mkFingerprintResult MATCHED (Some (row_user_id user_data))
              (Some (full_name user_data)) (Some (row_employee_id user_data))
              (Some fp_id) (inject_Z match_score / 200)%Q "Fingerprint matched"
      | None =>
          mkFingerprintResult NOT_MATCHED None None None (Some fp_id) 0%Q
            "Fingerprint found but user not in database"
      end
  | _, _ =>
      if bool_decide (code = 0x09)
      then result_of NOT_MATCHED "No matching fingerprint found"
      else result_of SENSOR_ERROR ("Search error code: " +:+ pretty code)
  end.

(** [search_fingerprint]; [rnd] is the value of [random.random()]. *)
Definition search_fingerprint (self : FingerprintSensor)
    (fingerprint_repo : gmap Z FingerprintRow) (polls : nat) (rnd : Q)
    (port : Port) : option (FingerprintResult * Port) :=
  if negb (_connected self)
  then Some (result_of SENSOR_DISCONNECTED "Sensor not connected", port)
  else
    '(capture_result, port) ← capture_fingerprint self polls port;
    if negb (bool_decide (status capture_result = CAPTURED))
    then Some (capture_result, port)
    else if simulation self then
      let not_matched :=
        result_of NOT_MATCHED "No matching fingerprint found (simulation)" in
      match _sim_fingerprints self with
      | (fp_id, _) :: _ =>
          if Qlt_le_dec rnd 0.8 then
            match fingerprint_repo !! fp_id with
            | Some user_data =>
                if is_active user_data then
                  Some (mkFingerprintResult MATCHED (Some (row_user_id user_data))
                          (Some (full_name user_data))
                          (Some (row_employee_id user_data))
                          (Some fp_id) 0.95%Q "Fingerprint matched (simulation)",
                        port)
                else Some (not_matched, port)
            | None => Some (not_matched, port)
            end
          else Some (not_matched, port)
      | [] => Some (not_matched, port)
      end
    else
      '((code, data), port) ← _send_command self port CMD_SEARCH SEARCH_ARGS;
      Some (decode_search fingerprint_repo code data, port).

(** The search command's arguments, read as the sensor does: buffer
    number, then start page and page count, both big-endian. *)
Definition search_window (args : list byte) : option (Z * Z) :=
  match args with
  | [_; s1; s0; n1; n0] => Some (be16 s1 s0, be16 n1 n0)
  | _ => None
  end.

(** The slots a search command covers. *)
Definition searched_slots (args : list byte) : list Z :=
  match search_window args with
  | Some (start, count) => seqZ start count
  | None => []
  end.

(** [_get_next_fingerprint_id]; [fingerprints] are the slot ids of
    [get_all_fingerprints()], [None] is the exception
    "Fingerprint storage full". *)
Definition _get_next_fingerprint_id (fingerprints : list Z) : option Z :=
  match fingerprints with
  | [] => Some 1
  | _ =>
      let existing_ids : gset Z := list_to_set fingerprints in
      List.find (fun i => bool_decide (i ∉ existing_ids)) (seqZ 1 162)
  end.

End Fingerprint.

(** ** [modules/face_recognition_module.py] *)

Module Face.

Inductive FaceStatus :=
| NO_FACE | FACE_DETECTED | FACE_MATCHED | UNKNOWN_FACE
| MULTIPLE_FACES | CAMERA_ERROR.

#[global] Instance FaceStatus_eq_dec : EqDecision FaceStatus.
Proof. solve_decision. Defined.

(** (top, right, bottom, left) *)
Definition Location : Type := Z * Z * Z * Z.

(** [FaceResult]; the annotated [frame] image is display only and is
    left out. *)
Record FaceResult := mkFaceResult {
  status : FaceStatus;
  user_id : option Z;
  user_name : option string;
  employee_id : option string;
  confidence : Q;
  face_location : option Location
}.

Definition result_of (st : FaceStatus) : FaceResult :=
  mkFaceResult st None None None 0 None.

(** config/settings.py *)
Definition FACE_RECOGNITION_TOLERANCE : Q := 0.6.

(** An entry of [_known_user_data]. *)
Record UserData := mkUserData {
  ud_user_id : Z;
  ud_name : string;
  ud_employee_id : string
}.

(** [np.argmin]: the index of the first smallest element, scanning
    from the left with the best element so far. *)
Fixpoint argmin_from (best_idx : nat) (best : Q) (i : nat) (l : list Q) : nat :=
  match l with
  | [] => best_idx
  | d :: l' =>
      if Qlt_le_dec d best
      then argmin_from i d (S i) l'
      else argmin_from best_idx best (S i) l'
  end.

Definition argmin (l : list Q) : nat :=
  match l with
  | [] => 0%nat
  | d :: l' => argmin_from 0 d 1 l'
  end.

(** [tuple(coord * 4 for coord in face_location)] *)
Definition scale4 (loc : Location) : Location :=
  let '(top, rgt, bottom, lft) := loc in
  (top * 4, rgt * 4, bottom * 4, lft * 4).

Section Engine.

(** The embedding type and the metric of the [face_recognition]
    library: [face_distance known enc] is one entry of the array
    [face_recognition.face_distance(known_encodings, enc)]. *)
Variable Encoding : Type.
Variable face_distance : Encoding -> Encoding -> Q.

(** A row of [FaceEncodingRepository.get_all_encodings]. *)
Record EncodingRow := mkEncodingRow {
  er_user_id : Z;
  er_encoding : Encoding;
  er_name : string;
  er_employee_id : string
}.

Record FaceRecognitionEngine := mkEngine {
  _known_encodings : list Encoding;
  _known_user_data : list UserData;
  _last_cache_update : Q;
  _cache_ttl : Q
}.

(** [_refresh_known_faces]; [encodings_data = None] is an exception of
    the repository, which is logged and leaves the cache as it was. *)
Definition _refresh_known_faces (now : Q) (encodings_data : option (list EncodingRow))
    (self : FaceRecognitionEngine) : FaceRecognitionEngine :=
  match encodings_data with
  | None => self
  | Some rows =>
      mkEngine (er_encoding <$> rows)
               ((fun r => mkUserData (er_user_id r) (er_name r) (er_employee_id r)) <$> rows)
               now (_cache_ttl self)
  end.

Definition _check_cache_freshness (now : Q) (encodings_data : option (list EncodingRow))
    (self : FaceRecognitionEngine) : FaceRecognitionEngine :=
  if Qlt_le_dec (_cache_ttl self) (now - _last_cache_update self)
  then _refresh_known_faces now encodings_data self
  else self.

(** The comparison with the known faces (source lines 268-318);
    an [IndexError] is caught by the enclosing handler. *)
Definition match_known (self : FaceRecognitionEngine)
    (face_location : Location) (face_encoding : Encoding) : FaceResult :=
  match _known_encodings self with
  | [] =>
      mkFaceResult UNKNOWN_FACE None None None 0 (Some (scale4 face_location))
  | _ =>
      let face_distances := (fun known => face_distance known face_encoding)
                              <$> _known_encodings self in
      let best_match_idx := argmin face_distances in
      match face_distances !! best_match_idx with
      | None => result_of CAMERA_ERROR
      | Some best_distance =>
          if Qle_bool best_distance FACE_RECOGNITION_TOLERANCE then
            match _known_user_data self !! best_match_idx with
            | None => result_of CAMERA_ERROR
            | Some user_data =>
                let confidence := (1 - best_distance)%Q in
                mkFaceResult FACE_MATCHED (Some (ud_user_id user_data))
                  (Some (ud_name user_data)) (Some (ud_employee_id user_data))
                  confidence (Some (scale4 face_location))
            end
          else
            mkFaceResult UNKNOWN_FACE None None None 0 (Some (scale4 face_location))
      end
  end.

(** What the camera and the detector deliver for one call. *)
Inductive Capture :=
| NoFrame
| DetectorRaises
| Detected (face_locations : list Location) (face_encodings : list Encoding).

(** [process_frame] *)
Definition process_frame (now : Q) (encodings_data : option (list EncodingRow))
    (capture : Capture) (self : FaceRecognitionEngine)
    : FaceResult * FaceRecognitionEngine :=
  match capture with
  | NoFrame => (result_of CAMERA_ERROR, self)
  | DetectorRaises => (result_of CAMERA_ERROR, self)
  | Detected [] _ => (result_of NO_FACE, self)
  | Detected (_ :: _ :: _) _ => (result_of MULTIPLE_FACES, self)
  | Detected [face_location] [] =>
      (mkFaceResult FACE_DETECTED None None None 0 (Some (scale4 face_location)), self)
  | Detected [face_location] (face_encoding :: _) =>
      let self := _check_cache_freshness now encodings_data self in
      (match_known self face_location face_encoding, self)
  end.

(** The two cache lists are filled in step by [_refresh_known_faces]. *)
Definition cache_ok (self : FaceRecognitionEngine) : Prop :=
  List.length (_known_encodings self) = List.length (_known_user_data self).

End Engine.

Arguments mkEncodingRow {Encoding}.
Arguments er_user_id {Encoding}.
Arguments er_encoding {Encoding}.
Arguments er_name {Encoding}.
Arguments er_employee_id {Encoding}.
Arguments mkEngine {Encoding}.
Arguments _known_encodings {Encoding}.
Arguments _known_user_data {Encoding}.
Arguments _last_cache_update {Encoding}.
Arguments _cache_ttl {Encoding}.
Arguments _refresh_known_faces {Encoding}.
Arguments _check_cache_freshness {Encoding}.
Arguments match_known {Encoding}.
Arguments NoFrame {Encoding}.
Arguments DetectorRaises {Encoding}.
Arguments Detected {Encoding}.
Arguments process_frame {Encoding}.
Arguments cache_ok {Encoding}.

End Face.

(** ** [modules/door_control.py] *)

Module Door.

Inductive DoorState := LOCKED | UNLOCKED | UNLOCKING | LOCKING | ERROR.

#[global] Instance DoorState_eq_dec : EqDecision DoorState.
Proof. solve_decision. Defined.

(** [DoorState.value] *)
Definition value (s : DoorState) : string :=
  match s with
  | LOCKED => "Door Locked"
  | UNLOCKED => "Door Unlocked"
  | UNLOCKING => "Unlocking..."
  | LOCKING => "Locking..."
  | ERROR => "Door Error"
  end.

Record DoorStatus := mkDoorStatus {
  state : DoorState;
  time_until_lock : Q;
  last_unlock_time : option Q;
  message : string
}.

(** config/settings.py *)
Definition DOOR_UNLOCK_DURATION : Q := 5.

(** A [threading.Timer] object: its interval, the time of [start()],
    and its [finished] event, which [cancel()] sets and which the timer
    thread sets after it has run the callback. *)
Record Timer := mkTimer { interval : Q; started : Q; finished : bool }.

(** What the controller does, in program order.  Timers are named by
    their position in the heap of timer objects. *)
Inductive Action :=
| Cancel (timer : nat)
| SetState (s : DoorState)
| Notify (status : DoorStatus)
| GpioOutput (high : bool)
| StartTimer (timer : nat)
| SystemLog (level module message : string).

(** The controller object, the timer objects it created and the
    actions it performed so far. *)
Record DoorController := mkDoor {
  simulation : bool;
  unlock_duration : Q;
  _state : DoorState;
  _auto_lock_timer : option nat;
  _last_unlock_time : option Q;
  timers : list Timer;
  trace : list Action
}.

Definition initial (simulation : bool) : DoorController :=
  mkDoor simulation DOOR_UNLOCK_DURATION LOCKED None None [] [].

(** Truth value of a Python float. *)
Definition truthy (x : Q) : bool := negb (Qeq_bool x 0).

Definition act (a : Action) (self : DoorController) : DoorController :=
  mkDoor (simulation self) (unlock_duration self) (_state self)
    (_auto_lock_timer self) (_last_unlock_time self) (timers self)
    (trace self ++ [a]).

(** [self._state = s] *)
Definition set_state (s : DoorState) (self : DoorController) : DoorController :=
  act (SetState s)
    (mkDoor (simulation self) (unlock_duration self) s
       (_auto_lock_timer self) (_last_unlock_time self) (timers self) (trace self)).

(** [self._last_unlock_time = t] *)
Definition set_last_unlock_time (t : option Q) (self : DoorController) : DoorController :=
  mkDoor (simulation self) (unlock_duration self) (_state self)
    (_auto_lock_timer self) t (timers self) (trace self).

(** [self._auto_lock_timer = r] *)
Definition set_auto_lock_timer (r : option nat) (self : DoorController) : DoorController :=
  mkDoor (simulation self) (unlock_duration self) (_state self)
    r (_last_unlock_time self) (timers self) (trace self).

Definition set_timers (ts : list Timer) (self : DoorController) : DoorController :=
  mkDoor (simulation self) (unlock_duration self) (_state self)
    (_auto_lock_timer self) (_last_unlock_time self) ts (trace self).

Definition finish (t : Timer) : Timer := mkTimer (interval t) (started t) true.

(** [timer.cancel()] *)
Definition cancel (timer : nat) (self : DoorController) : DoorController :=
  act (Cancel timer) (set_timers (alter finish timer (timers self)) self).

(** [get_status] *)
Definition get_status (now : Q) (self : DoorController) : DoorStatus :=
  let time_until_lock :=
    match _last_unlock_time self with
    | Some last =>
        if bool_decide (_state self = UNLOCKED) && truthy last then
          let elapsed := (now - last)%Q in
          Qmax 0 (unlock_duration self - elapsed)
        else 0%Q
    | None => 0%Q
    end in
  mkDoorStatus (_state self) time_until_lock (_last_unlock_time self)
    (value (_state self)).

Definition get_state (self : DoorController) : DoorState := _state self.
Definition is_locked (self : DoorController) : bool :=
  bool_decide (get_state self = LOCKED).
Definition is_unlocked (self : DoorController) : bool :=
  bool_decide (get_state self = UNLOCKED).

Definition _notify_callbacks (now : Q) (self : DoorController) : DoorController :=
  act (Notify (get_status now self)) self.

(** [GPIO.output(self.relay_pin, level)], skipped in simulation mode. *)
Definition gpio_output (high : bool) (self : DoorController) : DoorController :=
  if simulation self then self else act (GpioOutput high) self.

(** [threading.Timer(duration, self._auto_lock)] followed by [start()]. *)
Definition start_timer (duration now : Q) (self : DoorController) : DoorController :=
  let timer := List.length (timers self) in
  act (StartTimer timer)
    (set_auto_lock_timer (Some timer)
       (set_timers (timers self ++ [mkTimer duration now false]) self)).

(** How the calls that can raise inside a [try] block of the controller
    behave during one call of a method: [gpio_ok] tells whether
    [GPIO.output] returns normally (it is not consulted in simulation
    mode), [log_ok] whether the write of [system_log] to the database
    does.  Both stand inside the [try] of [unlock], [lock] and
    [emergency_lock], so either exception ends in the [except] branch.
    The log write of the [except] branch itself is not guarded by the
    code and is taken to return. *)
Record Calls := mkCalls { gpio_ok : bool; log_ok : bool }.

Definition all_ok : Calls := mkCalls true true.
Definition gpio_raises : Calls := mkCalls false true.
Definition log_raises : Calls := mkCalls true false.

(** The [except] branch of [unlock] and [lock] (source lines 205-210 and
    244-249). *)
Definition failed (what : string) (now : Q) (self : DoorController)
    : bool * DoorController :=
  let self := set_state ERROR self in
  let self := act (SystemLog "ERROR" "DoorController" what) self in
  let self := _notify_callbacks now self in
  (false, self).

(** [unlock] *)
Definition unlock (duration : option Q) (reason : string) (now : Q) (calls : Calls)
    (self : DoorController) : bool * DoorController :=
  let duration :=
    match duration with
    | Some d => if truthy d then d else unlock_duration self
    | None => unlock_duration self
    end in
  let self :=
    match _auto_lock_timer self with
    | Some timer => cancel timer self
    | None => self
    end in
  let self := set_state UNLOCKING self in
  let self := _notify_callbacks now self in
  if negb (simulation self || gpio_ok calls) then failed "Unlock failed" now self
  else
    let self := gpio_output true self in
    let self := set_state UNLOCKED self in
    let self := set_last_unlock_time (Some now) self in
    if negb (log_ok calls) then failed "Unlock failed" now self
    else
      let self :=
        act (SystemLog "INFO" "DoorController" ("Door unlocked: " +:+ reason)) self in
      let self := start_timer duration now self in
      let self := _notify_callbacks now self in
      (true, self).

(** [lock] *)
Definition lock (reason : string) (now : Q) (calls : Calls)
    (self : DoorController) : bool * DoorController :=
  let self :=
    match _auto_lock_timer self with
    | Some timer => set_auto_lock_timer None (cancel timer self)
    | None => self
    end in
  let self := set_state LOCKING self in
  let self := _notify_callbacks now self in
  if negb (simulation self || gpio_ok calls) then failed "Lock failed" now self
  else
    let self := gpio_output false self in
    let self := set_state LOCKED self in
    let self := set_last_unlock_time None self in
    if negb (log_ok calls) then failed "Lock failed" now self
    else
      let self :=
        act (SystemLog "INFO" "DoorController" ("Door locked: " +:+ reason)) self in
      let self := _notify_callbacks now self in
      (true, self).

Definition _auto_lock (now : Q) (calls : Calls) (self : DoorController)
    : bool * DoorController :=
  lock "Auto-lock timer" now calls self.

(** [set_unlock_duration] *)
Definition set_unlock_duration (duration : Q) (self : DoorController) : DoorController :=
  if Qlt_le_dec 0 duration
  then mkDoor (simulation self) duration (_state self) (_auto_lock_timer self)
         (_last_unlock_time self) (timers self) (trace self)
  else self.

(** [emergency_lock]; its [except] branch only writes to the logger. *)
Definition emergency_lock (now : Q) (calls : Calls)
    (self : DoorController) : bool * DoorController :=
  let self :=
    match _auto_lock_timer self with
    | Some timer => set_auto_lock_timer None (cancel timer self)
    | None => self
    end in
  if negb (simulation self || gpio_ok calls) then (false, self)
  else
    let self := gpio_output false self in
    let self := set_state LOCKED self in
    let self := set_last_unlock_time None self in
    if negb (log_ok calls) then (false, self)
    else
      let self :=
        act (SystemLog "WARNING" "DoorController" "Emergency lock activated") self in
      let self := _notify_callbacks now self in
      (true, self).

(** [cleanup], up to the release of the GPIO pin. *)
Definition cleanup (now : Q) (calls : Calls) (self : DoorController) : DoorController :=
  let self :=
    match _auto_lock_timer self with
    | Some timer => cancel timer self
    | None => self
    end in
  snd (lock "System shutdown" now calls self).

(** A started timer whose [finished] event is not set runs its callback
    once its interval has elapsed. *)
Definition due (now : Q) (t : Timer) : bool :=
  negb (finished t) && Qle_bool (started t + interval t) now.

(** [Timer.run] at the end of the wait: the callback [_auto_lock], then
    [self.finished.set()].  [None] when the timer cannot fire at [now]. *)
Definition fire (timer : nat) (now : Q) (calls : Calls) (self : DoorController)
    : option DoorController :=
  t ← timers self !! timer;
  if due now t then
    let self := snd (_auto_lock now calls self) in
    Some (set_timers (alter finish timer (timers self)) self)
  else None.

(** The things that happen to a controller. *)
Inductive Event :=
| Unlock (duration : option Q) (reason : string)
| Lock (reason : string)
| EmergencyLock
| SetUnlockDuration (duration : Q)
| Cleanup
| Fires (timer : nat).

(** One event, at time [now], with the behaviour of the relay pin and
    of the system log during it. *)
Definition handle (now : Q) (calls : Calls) (e : Event) (self : DoorController)
    : option DoorController :=
  match e with
  | Unlock duration reason => Some (snd (unlock duration reason now calls self))
  | Lock reason => Some (snd (lock reason now calls self))
  | EmergencyLock => Some (snd (emergency_lock now calls self))
  | SetUnlockDuration duration => Some (set_unlock_duration duration self)
  | Cleanup => Some (cleanup now calls self)
  | Fires timer => fire timer now calls self
  end.

Fixpoint run (es : list (Q * Calls * Event)) (self : DoorController)
    : option DoorController :=
  match es with
  | [] => Some self
  | (now, calls, e) :: es' => handle now calls e self ≫= run es'
  end.

(** The controllers that a history of events produces from a freshly
    constructed one. *)
Definition reachable (self : DoorController) : Prop :=
  exists simulation es, run es (initial simulation) = Some self.

Definition is_unlock (e : Event) : bool :=
  match e with Unlock _ _ => true | _ => false end.

(** The state transitions of the controller. *)
Definition is_transition (e : Event) : bool :=
  match e with Unlock _ _ | Lock _ | EmergencyLock => true | _ => false end.

(** The heap of timers once the held timer, if any, is cancelled. *)
Definition cancelled (self : DoorController) : list Timer :=
  match _auto_lock_timer self with
  | Some timer => alter finish timer (timers self)
  | None => timers self
  end.

(** Whether the relay call goes through: it is skipped in simulation
    mode. *)
Definition relay_ok (self : DoorController) (calls : Calls) : bool :=
  simulation self || gpio_ok calls.

(** Whether the [try] block runs to its end: neither the relay call nor
    the log write raises. *)
Definition succeeds (self : DoorController) (calls : Calls) : bool :=
  relay_ok self calls && log_ok calls.

(** [duration or self.unlock_duration] *)
Definition chosen_duration (self : DoorController) (duration : option Q) : Q :=
  match duration with
  | Some d => if truthy d then d else unlock_duration self
  | None => unlock_duration self
  end.

(** No timer is waiting to fire. *)
Definition quiet (self : DoorController) : Prop :=
  forall timer t, timers self !! timer = Some t -> finished t = true.

(** The only timer that may be waiting is the one the controller holds. *)
Definition holds_pending (self : DoorController) : Prop :=
  forall timer t,
    timers self !! timer = Some t -> finished t = false ->
    _auto_lock_timer self = Some timer.

Definition is_fires (e : Event) : bool :=
  match e with Fires _ => true | _ => false end.

End Door.

(** ** [modules/auth_engine.py] *)

Module Auth.

Import Fingerprint(FingerprintResult, FingerprintStatus).
Import Face(FaceResult, FaceStatus).

Inductive AuthState :=
| IDLE | FACE_PENDING | FACE_MATCHED | FINGERPRINT_PENDING | VERIFYING
| ACCESS_GRANTED | ACCESS_DENIED | TIMEOUT | ERROR.

#[global] Instance AuthState_eq_dec : EqDecision AuthState.
Proof. solve_decision. Defined.

Record AuthSession := mkSession {
  state : AuthState;
  face_result : option FaceResult;
  fingerprint_result : option FingerprintResult;
  face_user_id : option Z;
  fingerprint_user_id : option Z;
  matched_user_id : option Z;
  matched_user_name : option string;
  start_time : Q;
  end_time : option Q;
  failure_reason : option string;
  confidence : Q
}.

(** [AuthSession()]: the defaults, with [start_time = time.time()]. *)
Definition new_session (now : Q) : AuthSession :=
  mkSession IDLE None None None None None None now None None 0.

(** config/settings.py *)
Definition AUTH_TIMEOUT : Q := 30.

(** A row of table [users]. *)
Record User := mkUser {
  id : Z;
  first_name : string;
  last_name : string;
  employee_id : string;
  is_active : bool
}.

(** [UserRepository.get_by_id]; a NULL id selects no row. *)
Definition get_by_id (users : gmap Z User) (user_id : option Z) : option User :=
  user_id ≫= fun i => users !! i.

(** The keyword arguments of [AccessLogRepository.log_access]. *)
Record AccessRecord := mkAccessRecord {
  log_user_id : option Z;
  event_type : string;
  result : string;
  face_match : bool;
  fingerprint_match : bool;
  log_failure_reason : option string;
  confidence_score : option Q
}.

(** The engine with its collaborators: the current session, the door
    controller, the rows appended to the access log, the entries of the
    system log and the sessions handed to the state and result
    callbacks, as they were when handed over. *)
Record AuthenticationEngine := mkEngine {
  _current_session : option AuthSession;
  door_controller : Door.DoorController;
  access_log : list AccessRecord;
  system_log : list (string * string * string);
  state_notified : list AuthSession;
  result_notified : list AuthSession;
  auth_timeout : Q
}.

Definition set_session (s : option AuthSession) (self : AuthenticationEngine)
    : AuthenticationEngine :=
  mkEngine s (door_controller self) (access_log self) (system_log self)
    (state_notified self) (result_notified self) (auth_timeout self).

Definition set_door (d : Door.DoorController) (self : AuthenticationEngine)
    : AuthenticationEngine :=
  mkEngine (_current_session self) d (access_log self) (system_log self)
    (state_notified self) (result_notified self) (auth_timeout self).

(** [self.access_log.log_access(...)] *)
Definition log_access (r : AccessRecord) (self : AuthenticationEngine)
    : AuthenticationEngine :=
  mkEngine (_current_session self) (door_controller self) (access_log self ++ [r])
    (system_log self) (state_notified self) (result_notified self)
    (auth_timeout self).

(** [self.system_log.info / warning / error] *)
Definition log_system (level module message : string) (self : AuthenticationEngine)
    : AuthenticationEngine :=
  mkEngine (_current_session self) (door_controller self) (access_log self)
    (system_log self ++ [(level, module, message)])
    (state_notified self) (result_notified self) (auth_timeout self).

Definition _notify_state_change (session : AuthSession) (self : AuthenticationEngine)
    : AuthenticationEngine :=
  mkEngine (_current_session self) (door_controller self) (access_log self)
    (system_log self) (state_notified self ++ [session]) (result_notified self)
    (auth_timeout self).

Definition _notify_result (session : AuthSession) (self : AuthenticationEngine)
    : AuthenticationEngine :=
  mkEngine (_current_session self) (door_controller self) (access_log self)
    (system_log self) (state_notified self) (result_notified self ++ [session])
    (auth_timeout self).

Definition initial (simulation : bool) (now : Q) : AuthenticationEngine :=
  mkEngine (Some (new_session now)) (Door.initial simulation) [] [] [] []
    AUTH_TIMEOUT.

Definition full_name (user : User) : string :=
  first_name user +:+ " " +:+ last_name user.

(** [_grant_access].  The session object is the engine's current
    session; its mutations are written back to it. *)
Definition _grant_access (now : Q) (calls : Door.Calls) (session : AuthSession)
    (user : User) (self : AuthenticationEngine) : AuthenticationEngine :=
  let confidence :=
    ((match face_result session with
      | Some r => Face.confidence r | None => 0 end
      + match fingerprint_result session with
        | Some r => Fingerprint.confidence r | None => 0 end) / 2)%Q in
  let session :=
    mkSession ACCESS_GRANTED (face_result session) (fingerprint_result session)
      (face_user_id session) (fingerprint_user_id session)
      (Some (id user)) (Some (full_name user)) (start_time session)
      (Some now) (failure_reason session) confidence in
  let self := set_session (Some session) self in
  let self :=
    set_door (snd (Door.unlock None ("Authenticated: " +:+ full_name user)
                     now calls (door_controller self))) self in
  let self :=
    log_access (mkAccessRecord (matched_user_id session) "ENTRY" "SUCCESS"
                  true true None (Some confidence)) self in
  let self :=
    log_system "INFO" "AuthEngine" ("Access granted to " +:+ full_name user) self in
  let self := _notify_state_change session self in
  _notify_result session self.

(** [_deny_access] *)
Definition _deny_access (now : Q) (calls : Door.Calls) (session : AuthSession)
    (reason : string) (self : AuthenticationEngine) : AuthenticationEngine :=
  let session :=
    mkSession ACCESS_DENIED (face_result session) (fingerprint_result session)
      (face_user_id session) (fingerprint_user_id session)
      (matched_user_id session) (matched_user_name session) (start_time session)
      (Some now) (Some reason) (confidence session) in
  let self := set_session (Some session) self in
  let self :=
    set_door (snd (Door.lock "Access denied" now calls (door_controller self)))
      self in
  let self :=
    log_access
      (mkAccessRecord (face_user_id session) "ENTRY" "DENIED"
         (match face_result session with
          | Some r => bool_decide (Face.status r = Face.FACE_MATCHED)
          | None => false end)
         (match fingerprint_result session with
          | Some r => bool_decide (Fingerprint.status r = Fingerprint.MATCHED)
          | None => false end)
         (Some reason) None) self in
  let self := log_system "WARNING" "AuthEngine" ("Access denied: " +:+ reason) self in
  let self := _notify_state_change session self in
  _notify_result session self.

(** [_reset_session]; the new session is created at [now]. *)
Definition _reset_session (now : Q) (self : AuthenticationEngine)
    : AuthenticationEngine :=
  let session := new_session now in
  _notify_state_change session (set_session (Some session) self).

(** [_handle_timeout], with its two seconds of sleep before the reset. *)
Definition _handle_timeout (now : Q) (session : AuthSession)
    (self : AuthenticationEngine) : AuthenticationEngine :=
  let session :=
    mkSession TIMEOUT (face_result session) (fingerprint_result session)
      (face_user_id session) (fingerprint_user_id session)
      (matched_user_id session) (matched_user_name session) (start_time session)
      (Some now) (Some "Authentication timeout") (confidence session) in
  let self := set_session (Some session) self in
  let self :=
    log_access
      (mkAccessRecord (face_user_id session) "ENTRY" "FAILED"
         (bool_decide (is_Some (face_result session))) false
         (Some "Timeout") None) self in
  let self := log_system "WARNING" "AuthEngine" "Authentication timeout" self in
  let self := _notify_state_change session self in
  let self := _notify_result session self in
  _reset_session (now + 2) self.

(** [_process_idle_state]; [face_result] is what
    [self.face_engine.process_frame()] returns. *)
Definition _process_idle_state (now : Q) (users : gmap Z User)
    (face_result : FaceResult) (session : AuthSession)
    (self : AuthenticationEngine) : AuthenticationEngine :=
  if bool_decide (Face.status face_result = Face.FACE_MATCHED) then
    match get_by_id users (Face.user_id face_result) with
    | Some user =>
        if is_active user then
          let session :=
            mkSession FACE_MATCHED (Some face_result) (fingerprint_result session)
              (Face.user_id face_result) (fingerprint_user_id session)
              (matched_user_id session) (matched_user_name session) now
              (end_time session) (failure_reason session) (confidence session) in
          _notify_state_change session (set_session (Some session) self)
        else self
    | None => self
    end
  else self.

(** [_process_fingerprint_verification]; [fp_result] is what
    [self.fingerprint_manager.scan_once(timeout=2.0)] returns. *)
Definition _process_fingerprint_verification (now : Q) (calls : Door.Calls)
    (users : gmap Z User) (fp_result : FingerprintResult) (session : AuthSession)
    (self : AuthenticationEngine) : AuthenticationEngine :=
  match Fingerprint.status fp_result with
  | Fingerprint.MATCHED =>
      let session :=
        mkSession (state session) (face_result session) (Some fp_result)
          (face_user_id session) (Fingerprint.user_id fp_result)
          (matched_user_id session) (matched_user_name session)
          (start_time session) (end_time session) (failure_reason session)
          (confidence session) in
      let self := set_session (Some session) self in
      if bool_decide (face_user_id session = fingerprint_user_id session) then
        match get_by_id users (face_user_id session) with
        | Some user =>
            if is_active user
            then _grant_access now calls session user self
            else _deny_access now calls session "User account is disabled" self
        | None => _deny_access now calls session "User account is disabled" self
        end
      else
        _deny_access now calls session
          "Face and fingerprint belong to different users" self
  | Fingerprint.NOT_MATCHED =>
      let session :=
        mkSession (state session) (face_result session) (Some fp_result)
          (face_user_id session) (fingerprint_user_id session)
          (matched_user_id session) (matched_user_name session)
          (start_time session) (end_time session) (failure_reason session)
          (confidence session) in
      _deny_access now calls session "Fingerprint not recognized"
        (set_session (Some session) self)
  | Fingerprint.TIMEOUT | Fingerprint.NO_FINGER => self
  | Fingerprint.SENSOR_ERROR =>
      _deny_access now calls session "Fingerprint sensor error" self
  | _ => self
  end.

Definition terminal_or_idle (s : AuthState) : bool :=
  bool_decide (s = IDLE) || bool_decide (s = ACCESS_GRANTED)
  || bool_decide (s = ACCESS_DENIED).

(** The dispatch on the session state in [_auth_loop] (source lines
    189-198), with its three seconds of sleep before the reset. *)
Definition state_machine (now : Q) (calls : Door.Calls) (users : gmap Z User)
    (face_result : FaceResult) (fp_result : FingerprintResult)
    (session : AuthSession) (self : AuthenticationEngine) : AuthenticationEngine :=
  match state session with
  | IDLE => _process_idle_state now users face_result session self
  | FACE_MATCHED =>
      _process_fingerprint_verification now calls users fp_result session self
  | ACCESS_GRANTED | ACCESS_DENIED => _reset_session (now + 3) self
  | _ => self
  end.

(** One iteration of the [while] loop of [_auth_loop], entered at time
    [now]; [face_result] and [fp_result] are what the face engine and
    the fingerprint manager return if they are asked. *)
Definition _auth_loop (now : Q) (calls : Door.Calls) (users : gmap Z User)
    (face_result : FaceResult) (fp_result : FingerprintResult)
    (self : AuthenticationEngine) : AuthenticationEngine :=
  let self :=
    match _current_session self with
    | None => set_session (Some (new_session now)) self
    | Some _ => self
    end in
  let session := default (new_session now) (_current_session self) in
  if negb (terminal_or_idle (state session)) then
    let elapsed := (now - start_time session)%Q in
    if Qlt_le_dec (auth_timeout self) elapsed
    then _handle_timeout now session self
    else state_machine now calls users face_result fp_result session self
  else state_machine now calls users face_result fp_result session self.

(** The fingerprint statuses with which a scan has come to a verdict;
    TIMEOUT and NO_FINGER mean that the engine keeps waiting. *)
Definition scan_completed (st : FingerprintStatus) : Prop :=
  st = Fingerprint.MATCHED \/ st = Fingerprint.NOT_MATCHED
  \/ st = Fingerprint.SENSOR_ERROR.

(** Both factors name the same user and the account is active. *)
Definition grant_condition (users : gmap Z User) (session : AuthSession)
    (fp_result : FingerprintResult) : Prop :=
  Fingerprint.status fp_result = Fingerprint.MATCHED /\
  face_user_id session = Fingerprint.user_id fp_result /\
  exists user,
    get_by_id users (face_user_id session) = Some user /\ is_active user = true.

(** [cancel_authentication] *)
Definition cancel_authentication (now : Q) (self : AuthenticationEngine)
    : AuthenticationEngine :=
  let self :=
    match _current_session self with
    | Some session =>
        if negb (terminal_or_idle (state session)) then
          let session :=
            mkSession ACCESS_DENIED (face_result session)
              (fingerprint_result session) (face_user_id session)
              (fingerprint_user_id session) (matched_user_id session)
              (matched_user_name session) (start_time session) (end_time session)
              (Some "Cancelled") (confidence session) in
          _notify_state_change session (set_session (Some session) self)
        else self
    | None => self
    end in
  _reset_session now self.

End Auth.

(** ** Predicates on door controllers *)

Module DoorFacts.

Import Door.

(** The actions a controller performed between two of its states. *)
Definition actions_since (before after : DoorController) : list Action :=
  drop (List.length (trace before)) (trace after).

(** A timer can only be waiting while the door is unlocked. *)
Definition pending_means_unlocked (w : DoorController) : Prop :=
  forall timer t,
    timers w !! timer = Some t -> finished t = false -> _state w = UNLOCKED.

(** The states a controller rests in between calls. *)
Definition at_rest (w : DoorController) : Prop :=
  (_state w = LOCKED \/ _state w = UNLOCKED \/ _state w = ERROR) /\
  (_state w = LOCKED -> _last_unlock_time w = None /\ _auto_lock_timer w = None).

End DoorFacts.

(** ** [modules/fingerprint_module.py]: connection, enrolment, deletion *)

Module FingerprintOps.

Import Fingerprint.

(** The sensor object together with the counter [_sim_next_id] of its
    simulation. *)
Record SensorState := mkState { sensor : FingerprintSensor; _sim_next_id : Z }.

Definition with_simulation (b : bool) (self : FingerprintSensor) : FingerprintSensor :=
  mkSensor b (_serial self) (_connected self) (_sim_fingerprints self).

Definition with_serial (s : option bool) (self : FingerprintSensor) : FingerprintSensor :=
  mkSensor (simulation self) s (_connected self) (_sim_fingerprints self).

Definition with_connected (b : bool) (self : FingerprintSensor) : FingerprintSensor :=
  mkSensor (simulation self) (_serial self) b (_sim_fingerprints self).

Definition with_sim_fingerprints (d : list (Z * Z)) (self : FingerprintSensor)
    : FingerprintSensor :=
  mkSensor (simulation self) (_serial self) (_connected self) d.

(** [d[k] = v] on a dict: an existing key keeps its place. *)
Fixpoint dict_set (k v : Z) (d : list (Z * Z)) : list (Z * Z) :=
  match d with
  | [] => [(k, v)]
  | (k', v') :: d' =>
      if bool_decide (k' = k) then (k, v) :: d' else (k', v') :: dict_set k v d'
  end.

(** [del d[k]] *)
Fixpoint dict_del (k : Z) (d : list (Z * Z)) : list (Z * Z) :=
  match d with
  | [] => []
  | (k', v') :: d' => if bool_decide (k' = k) then d' else (k', v') :: dict_del k d'
  end.

(** [d.keys()] *)
Definition dict_keys (d : list (Z * Z)) : list Z := fst <$> d.

(** [_load_simulation_data]; [fingerprints] are the pairs
    (fingerprint_id, user_id) of [get_all_fingerprints()], [None] when the
    repository raises. *)
Definition _load_simulation_data (fingerprints : option (list (Z * Z)))
    (st : SensorState) : SensorState :=
  match fingerprints with
  | None => st
  | Some fps =>
      foldl (fun st fp =>
               mkState
                 (with_sim_fingerprints
                    (dict_set fp.1 fp.2 (_sim_fingerprints (sensor st))) (sensor st))
                 (Z.max (_sim_next_id st) (fp.1 + 1)))
            st fps
  end.

(** [set_simulation] *)
Definition set_simulation (enabled : bool) (fingerprints : option (list (Z * Z)))
    (st : SensorState) : SensorState :=
  let st := mkState (with_simulation enabled (sensor st)) (_sim_next_id st) in
  if enabled then
    let st := _load_simulation_data fingerprints st in
    mkState (with_connected true (sensor st)) (_sim_next_id st)
  else
    mkState (with_serial None (with_connected false (sensor st))) (_sim_next_id st).

(** [_verify_password] *)
Definition _verify_password (self : FingerprintSensor) (port : Port)
    : option (bool * Port) :=
  if simulation self then Some (true, port)
  else
    let data := [low_byte 0x00; low_byte 0x00; low_byte 0x00; low_byte 0x00] in
    '((code, _), port) ← _send_command self port CMD_VERIFY_PASSWORD data;
    Some (bool_decide (code = 0x00), port).

(** [connect]; [opens] tells whether [serial.Serial(...)] opens the port
    (it raises [SerialException] or [OSError] otherwise). *)
Definition connect (opens : bool) (self : FingerprintSensor) (port : Port)
    : option (bool * FingerprintSensor * Port) :=
  if simulation self then Some (true, with_connected true self, port)
  else if negb opens then Some (false, self, port)
  else
    let self := with_serial (Some true) self in
    match _verify_password self port with
    | Some (true, port) => Some (true, with_connected true self, port)
    | Some (false, port) => Some (false, with_serial None self, port)
    | None => None
    end.

(** [disconnect] *)
Definition disconnect (self : FingerprintSensor) : FingerprintSensor :=
  with_connected false (with_serial None self).

(** [is_connected] *)
Definition is_connected (self : FingerprintSensor) : bool := _connected self.

(** What [enroll_fingerprint] hands back: its result tuple, or the
    exception of [_get_next_fingerprint_id]. *)
Inductive EnrollOutcome :=
| Returned (success : bool) (message : string) (fingerprint_id : Z)
| Raised (message : string).

(** The calls to the persistence layer and to the web API, as made. *)
Inductive RepoCall :=
| SaveFingerprint (user_id fingerprint_id : Z) (finger_position : string)
| UpdateUser (user_id : Z) (fingerprint_enrolled : bool)
| ApiEnrollment (user_id : Z) (biometric_type : string) (enrolled : bool)
| DeleteFingerprint (user_id : Z)
| SystemLogInfo (module message details : string).

Record EnrollRun := mkRun {
  outcome : EnrollOutcome;
  state_after : SensorState;
  port_after : Port;
  callbacks : list string;
  repo_calls : list RepoCall
}.

(** The loop of the second capture (source lines 465-474): [true] when
    it leaves by [break], [false] when it runs out of time. *)
Fixpoint second_capture (self : FingerprintSensor) (polls : nat) (port : Port)
    : option (bool * Port) :=
  match polls with
  | O => Some (false, port)
  | S polls' =>
      '((code, _), port) ← _send_command self port CMD_GET_IMAGE [];
      if bool_decide (code = 0x00) then
        '((code, _), port) ← _send_command self port CMD_GEN_CHAR [low_byte 0x02];
        if bool_decide (code = 0x00) then Some (true, port)
        else second_capture self polls' port
      else second_capture self polls' port
  end.

(** [callback(msg)] when a callback was passed. *)
Definition say (callback : bool) (msg : string) : list string :=
  if callback then [msg] else [].

(** [enroll_fingerprint].  [user] is the row of [user_repo.get_by_id],
    [fingerprints] the slot ids of [get_all_fingerprints()]; the template
    hash written with the mapping is left out. *)
Definition enroll_fingerprint (user : option Auth.User) (user_id : Z)
    (finger_position : string) (callback : bool) (polls1 polls2 : nat)
    (fingerprints : list Z) (st : SensorState) (port : Port) : option EnrollRun :=
  let self := sensor st in
  match user with
  | None => Some (mkRun (Returned false "User not found" (-1)) st port [] [])
  | Some user =>
      if negb (_connected self) then
        Some (mkRun (Returned false "Sensor not connected" (-1)) st port [] [])
      else
        let said := say callback "Place finger on sensor..." in
        if simulation self then
          let said :=
            said ++ say callback "First scan captured, lift finger..."
                 ++ say callback "Place same finger again..."
                 ++ say callback "Processing..." in
          let fp_id := _sim_next_id st in
          let st :=
            mkState (with_sim_fingerprints
                       (dict_set fp_id user_id (_sim_fingerprints self)) self)
                    (_sim_next_id st + 1) in
          Some (mkRun (Returned true "Fingerprint enrolled successfully (simulation)" fp_id)
                  st port said
                  [ SaveFingerprint user_id fp_id finger_position;
                    SystemLogInfo "FingerprintEnrollment"
                      ("Enrolled fingerprint for " +:+ Auth.full_name user)
                      ("Fingerprint ID: " +:+ pretty fp_id) ])
        else
          '(result1, port) ← capture_fingerprint self polls1 port;
          if negb (bool_decide (status result1 = CAPTURED)) then
            Some (mkRun (Returned false
                           ("First capture failed: " +:+ message result1) (-1))
                    st port said [])
          else
            let said :=
              said ++ say callback "First scan captured. Remove finger..."
                   ++ say callback "Place the same finger again..." in
            '(captured, port) ← second_capture self polls2 port;
            if negb captured then
              Some (mkRun (Returned false "Second capture timed out" (-1))
                      st port said [])
            else
              '((code, _), port) ← _send_command self port 0x05 [];
              if negb (bool_decide (code = 0x00)) then
                Some (mkRun (Returned false "Failed to create fingerprint template" (-1))
                        st port said [])
              else
                match _get_next_fingerprint_id fingerprints with
                | None =>
                    Some (mkRun (Raised "Fingerprint storage full") st port said [])
                | Some fp_id =>
                    '((code, _), port) ←
                      _send_command self port CMD_STORE_CHAR
                        [low_byte 0x01; low_byte (Z.shiftr fp_id 8); low_byte fp_id];
                    if negb (bool_decide (code = 0x00)) then
                      Some (mkRun (Returned false
                                     ("Failed to store fingerprint (error: "
                                        +:+ pretty code +:+ ")") (-1))
                              st port said [])
                    else
                      Some (mkRun (Returned true "Fingerprint enrolled successfully" fp_id)
                              st port said
                              [ SaveFingerprint user_id fp_id finger_position;
                                UpdateUser user_id true;
                                ApiEnrollment user_id "fingerprint" true;
                                SystemLogInfo "FingerprintEnrollment"
                                  ("Enrolled fingerprint for " +:+ Auth.full_name user)
                                  ("Fingerprint ID: " +:+ pretty fp_id) ])
                end
  end.

(** [delete_fingerprint]; [fp_data] is the slot id in the row of
    [fingerprint_repo.get_by_user_id], if there is one. *)
Definition delete_fingerprint (fp_data : option Z) (user_id : Z)
    (st : SensorState) (port : Port)
    : option (bool * SensorState * Port * list RepoCall) :=
  let self := sensor st in
  match fp_data with
  | None => Some (true, st, port, [])
  | Some fp_id =>
      port ←
        (if negb (simulation self) && _connected self then
           '(_, port) ←
             _send_command self port CMD_DELETE_CHAR
               [low_byte (Z.shiftr fp_id 8); low_byte fp_id;
                low_byte 0x00; low_byte 0x01];
           Some port
         else Some port);
      let st :=
        if simulation self && bool_decide (fp_id ∈ dict_keys (_sim_fingerprints self))
        then mkState (with_sim_fingerprints
                        (dict_del fp_id (_sim_fingerprints self)) self)
                     (_sim_next_id st)
        else st in
      Some (true, st, port,
            [ DeleteFingerprint user_id;
              SystemLogInfo "FingerprintDeletion"
                ("Deleted fingerprint for user " +:+ pretty user_id)
                ("Fingerprint ID: " +:+ pretty fp_id) ])
  end.

(** Every simulated slot id lies below the counter. *)
Definition keys_below (st : SensorState) : Prop :=
  forall k, k ∈ dict_keys (_sim_fingerprints (sensor st)) -> k < _sim_next_id st.

(** [FingerprintManager.scan_once]: the sensor's search, whose result is
    also kept as [_last_result]. *)
Definition scan_once (self : FingerprintSensor)
    (fingerprint_repo : gmap Z FingerprintRow) (polls : nat) (rnd : Q) (port : Port)
    : option (FingerprintResult * option FingerprintResult * Port) :=
  '(result, port) ← search_fingerprint self fingerprint_repo polls rnd port;
  Some (result, Some result, port).

End FingerprintOps.

(** ** [main.py]: the state machine of the desktop application *)

Module Gui.

Import Auth(AuthState, AccessRecord, User).

(** The state variables of [SmartDoorGUI] that take part in the access
    decision, with the door controller and the access log it writes to;
    [verifications] counts the background threads started for
    [_verify_fingerprint].  Widgets and labels are left out. *)
Record SmartDoorGUI := mkGui {
  _auth_state : AuthState;
  _matched_face_user_id : option Z;
  _auth_start_time : option Q;
  _current_face_result : option Face.FaceResult;
  _current_fp_result : option Fingerprint.FingerprintResult;
  door_controller : Door.DoorController;
  access_log : list AccessRecord;
  verifications : nat
}.

Definition initial (simulation : bool) : SmartDoorGUI :=
  mkGui Auth.IDLE None None None None (Door.initial simulation) [] 0.

(** [_grant_access] *)
Definition _grant_access (now : Q) (calls : Door.Calls) (user : User)
    (self : SmartDoorGUI) : SmartDoorGUI :=
  let user_name := Auth.full_name user in
  mkGui Auth.ACCESS_GRANTED (_matched_face_user_id self) (Some now)
    (_current_face_result self) (_current_fp_result self)
    (snd (Door.unlock None ("Authenticated: " +:+ user_name) now calls
            (door_controller self)))
    (access_log self ++
       [Auth.mkAccessRecord (Some (Auth.id user)) "ENTRY" "SUCCESS" true true None
          (Some (match _current_face_result self with
                 | Some r => Face.confidence r
                 | None => 0%Q
                 end))])
    (verifications self).

(** [_handle_auth_failure] *)
Definition _handle_auth_failure (now : Q) (calls : Door.Calls) (reason : string)
    (self : SmartDoorGUI) : SmartDoorGUI :=
  mkGui Auth.ACCESS_DENIED (_matched_face_user_id self) (Some now)
    (_current_face_result self) (_current_fp_result self)
    (snd (Door.lock "Access denied" now calls (door_controller self)))
    (access_log self ++
       [Auth.mkAccessRecord (_matched_face_user_id self) "ENTRY" "DENIED"
          (bool_decide (is_Some (_current_face_result self))) false
          (Some reason) None])
    (verifications self).

(** [_reset_auth_state] *)
Definition _reset_auth_state (self : SmartDoorGUI) : SmartDoorGUI :=
  mkGui Auth.IDLE None None None None (door_controller self) (access_log self)
    (verifications self).

(** [_handle_fingerprint_result] *)
Definition _handle_fingerprint_result (now : Q) (calls : Door.Calls)
    (users : gmap Z User) (fp_result : Fingerprint.FingerprintResult)
    (self : SmartDoorGUI) : SmartDoorGUI :=
  if negb (bool_decide (_auth_state self = Auth.FACE_MATCHED)) then self
  else
    match Fingerprint.status fp_result with
    | Fingerprint.MATCHED =>
        if bool_decide (Fingerprint.user_id fp_result = _matched_face_user_id self) then
          match Auth.get_by_id users (Fingerprint.user_id fp_result) with
          | Some user =>
              if Auth.is_active user then _grant_access now calls user self
              else _handle_auth_failure now calls "User account is disabled" self
          | None => _handle_auth_failure now calls "User account is disabled" self
          end
        else
          _handle_auth_failure now calls
            "Face and fingerprint don't match same user" self
    | Fingerprint.NOT_MATCHED =>
        _handle_auth_failure now calls "Fingerprint not recognized" self
    | Fingerprint.TIMEOUT =>
        _handle_auth_failure now calls "Fingerprint scan timeout" self
    | _ => self
    end.

(** [_verify_fingerprint] with the call it schedules on the GUI thread;
    [fp_result] is what [scan_once(timeout=10.0)] returns. *)
Definition _verify_fingerprint (now : Q) (calls : Door.Calls) (users : gmap Z User)
    (fp_result : Fingerprint.FingerprintResult) (self : SmartDoorGUI) : SmartDoorGUI :=
  let self :=
    mkGui (_auth_state self) (_matched_face_user_id self) (_auth_start_time self)
      (_current_face_result self) (Some fp_result) (door_controller self)
      (access_log self) (verifications self) in
  _handle_fingerprint_result now calls users fp_result self.

(** [_process_authentication].  Subtracting from a start time that is
    [None] raises a [TypeError], which [_process_loop] catches: the state
    stays as it is. *)
Definition _process_authentication (now : Q) (calls : Door.Calls) (users : gmap Z User)
    (face_result : Face.FaceResult) (self : SmartDoorGUI) : SmartDoorGUI :=
  match _auth_state self with
  | Auth.IDLE =>
      if bool_decide (Face.status face_result = Face.FACE_MATCHED) then
        match Auth.get_by_id users (Face.user_id face_result) with
        | Some user =>
            if Auth.is_active user then
              mkGui Auth.FACE_MATCHED (Face.user_id face_result) (Some now)
                (Some face_result) (_current_fp_result self) (door_controller self)
                (access_log self) (S (verifications self))
            else self
        | None => self
        end
      else self
  | Auth.FACE_MATCHED =>
      match _auth_start_time self with
      | Some start =>
          if Qlt_le_dec 30 (now - start) then
            let self :=
              mkGui Auth.TIMEOUT (_matched_face_user_id self) (_auth_start_time self)
                (_current_face_result self) (_current_fp_result self)
                (door_controller self) (access_log self) (verifications self) in
            _handle_auth_failure now calls "Authentication timeout" self
          else self
      | None => self
      end
  | Auth.ACCESS_GRANTED | Auth.ACCESS_DENIED | Auth.TIMEOUT =>
      match _auth_start_time self with
      | Some start => if Qlt_le_dec 5 (now - start) then _reset_auth_state self else self
      | None => self
      end
  | _ => self
  end.

(** The things that happen to the application. *)
Inductive Event :=
| Frame (face_result : Face.FaceResult)
| Scanned (fp_result : Fingerprint.FingerprintResult).

Definition handle (now : Q) (calls : Door.Calls) (users : gmap Z User) (e : Event)
    (self : SmartDoorGUI) : SmartDoorGUI :=
  match e with
  | Frame face_result => _process_authentication now calls users face_result self
  | Scanned fp_result => _verify_fingerprint now calls users fp_result self
  end.

End Gui.

(** ** Sample data *)

Module Samples.

Import Fingerprint.

(** A sensor on an open port, and a port on which three acknowledge
    packets with confirmation code 0 are about to arrive. *)
Definition sensor : FingerprintSensor := mkSensor false (Some true) true [].

Definition ack : list byte :=
  low_byte <$> [0xEF; 0x01; 0xFF; 0xFF; 0xFF; 0xFF; 0x07; 0x00; 0x03; 0x00; 0x00; 0x0A].

Definition port : Port := mkPort [] [Arrives ack; Arrives ack; Arrives ack].

(** The port after a capture that took one poll. *)
Definition port_after_capture : Port :=
  mkPort [ HEADER ++ ADDRESS ++ (low_byte <$> [0x01; 0x00; 0x03; 0x01; 0x00; 0x05]);
           HEADER ++ ADDRESS ++ (low_byte <$> [0x01; 0x00; 0x04; 0x02; 0x01; 0x00; 0x08]) ]
         [Arrives ack].

Definition password : list byte := low_byte <$> [0x00; 0x00; 0x00; 0x00].

(** A simulated door, unlocked at time 10 with the default duration. *)
Definition unlocked_door : Door.DoorController :=
  snd (Door.unlock None "Manual" 10 Door.all_ok (Door.initial true)).

(** A door on real hardware, unlocked at time 10. *)
Definition unlocked_hardware_door : Door.DoorController :=
  snd (Door.unlock None "Manual" 10 Door.all_ok (Door.initial false)).

(** Two accounts, the second one disabled. *)
Definition users : gmap Z Auth.User :=
  {[ 1 := Auth.mkUser 1 "Ada" "Byron" "E001" true;
     2 := Auth.mkUser 2 "Bob" "Ross" "E002" false ]}.

Definition face_of (user_id : Z) (name : string) : Face.FaceResult :=
  Face.mkFaceResult Face.FACE_MATCHED (Some user_id) (Some name) None 0.7
    (Some (40, 240, 200, 80)).

Definition finger_of (user_id : Z) (name : string) : Fingerprint.FingerprintResult :=
  Fingerprint.mkFingerprintResult Fingerprint.MATCHED (Some user_id) (Some name)
    None (Some 5) 0.95 "Fingerprint matched".

(** The session after the first user's face was matched at time 100. *)
Definition face_matched_session : Auth.AuthSession :=
  Auth.mkSession Auth.FACE_MATCHED (Some (face_of 1 "Ada Byron")) None (Some 1)
    None None None 100 None None 0.

Definition waiting_engine : Auth.AuthenticationEngine :=
  Auth.set_session (Some face_matched_session) (Auth.initial true 0).

Definition idle_engine : Auth.AuthenticationEngine := Auth.initial true 0.

(** One-dimensional embeddings, on which the Euclidean distance is the
    absolute difference; two enrolled users and a refreshed cache. *)
Definition distance1 (a b : Q) : Q := Qabs (a - b).

Definition face_rows : list (Face.EncodingRow Q) :=
  [ Face.mkEncodingRow 1 0.3%Q "Ada Byron" "E001";
    Face.mkEncodingRow 2 0.9%Q "Bob Ross" "E002" ].

Definition face_engine : Face.FaceRecognitionEngine Q :=
  Face._refresh_known_faces 100 (Some face_rows) (Face.mkEngine [] [] 0 30).

End Samples.

(** ** More sample data *)

Module MoreSamples.

Import Fingerprint FingerprintOps.

Definition ada : Auth.User := Auth.mkUser 1 "Ada" "Byron" "E001" true.

(** A simulated sensor with slots 1 and 2 loaded from the repository. *)
Definition sim_state : SensorState :=
  set_simulation true (Some [(1, 1); (2, 2)])
    (mkState (mkSensor true None false []) 1).

(** The hardware sensor of [Samples] with a fresh counter. *)
Definition hw_state : SensorState := mkState Samples.sensor 1.

(** A port on which [n] acknowledge packets are about to arrive. *)
Definition acks (n : nat) : Port := mkPort [] (replicate n (Arrives Samples.ack)).

(** A sensor that was never connected. *)
Definition offline_sensor : FingerprintSensor := mkSensor false None false [].

(** The repository rows behind slots 1 and 2. *)
Definition rows : gmap Z FingerprintRow :=
  {[ 1 := mkFingerprintRow 1 "Ada" "Byron" "E001" true;
     2 := mkFingerprintRow 2 "Bob" "Ross" "E002" false ]}.

(** A hardware enrolment of the first user while slots 1, 2 and 4 are
    taken, with every command acknowledged. *)
Definition enrolment : EnrollRun :=
  default (mkRun (Raised "") hw_state (acks 0) [] [])
    (enroll_fingerprint (Some ada) 1 "right_index" false 1 1 [1; 2; 4]
       hw_state (acks 6)).

(** The same with all of 1..162 taken. *)
Definition full_enrolment : EnrollRun :=
  default (mkRun (Returned true "" 0) hw_state (acks 0) [] [])
    (enroll_fingerprint (Some ada) 1 "right_index" false 1 1 (seqZ 1 162)
       hw_state (acks 6)).

(** The application after the first user's face was matched at time
    100. *)
Definition gui_waiting : Gui.SmartDoorGUI :=
  Gui.handle 100 Door.all_ok Samples.users (Gui.Frame (Samples.face_of 1 "Ada Byron"))
    (Gui.initial true).

End MoreSamples.

(** * Properties *)

(** ** Bytes and big-endian pairs *)

Section Bytes.

Lemma byte_of_int_Some z :
  0 <= z < 256 -> exists b, byte_of_int z = Some b /\ int_of_byte b = z.
Proof.
  intros Hz. unfold byte_of_int. rewrite bool_decide_eq_true_2 by done.
  destruct (Byte.of_N (Z.to_N z)) as [b|] eqn:E.
  - exists b. split; [done|]. unfold int_of_byte.
    rewrite (Byte.to_of_N _ E). lia.
  - apply Byte.of_N_None_iff in E. lia.
Qed.

Lemma int_of_byte_range b : 0 <= int_of_byte b < 256.
Proof. unfold int_of_byte. pose proof (Byte.to_N_bounded b). lia. Qed.

Lemma land_255 z : Z.land z 255 = z mod 256.
Proof. exact (Z.land_ones z 8 ltac:(lia)). Qed.

Lemma int_of_low_byte z : int_of_byte (low_byte z) = Z.land z 255.
Proof.
  unfold low_byte.
  destruct (byte_of_int_Some (Z.land z 255)) as (b & -> & Hb); [|done].
  rewrite land_255. apply Z.mod_pos_bound. lia.
Qed.

Lemma sum_app l1 l2 : sum (l1 ++ l2) = sum l1 + sum l2.
Proof. induction l1 as [|b l1 IH]; simpl; lia. Qed.

(** A byte below a value shifted by eight bits: the bits do not
    overlap, so [|] is [+]. *)
Lemma lor_shiftl_8 a b :
  0 <= b < 256 -> Z.lor (Z.shiftl a 8) b = a * 256 + b.
Proof.
  intros Hb. rewrite Z.shiftl_mul_pow2 by lia. change (2 ^ 8) with 256.
  rewrite <- Z.lxor_lor, <- Z.add_nocarry_lxor; [done| |];
    (replace (a * 256) with (Z.shiftl a 8)
       by (rewrite Z.shiftl_mul_pow2; [done | lia]);
     rewrite <- (Z.mod_small b 256), <- land_255 by lia;
     apply Z.bits_inj'; intros n Hn;
     rewrite Z.land_spec, Z.bits_0, Z.shiftl_spec by lia;
     destruct (Z.lt_ge_cases n 8);
     [ rewrite (Z.testbit_neg_r _ (n - 8)) by lia; done
     | rewrite Z.land_spec; change 255 with (Z.ones 8);
       rewrite Z.ones_spec_high by lia; rewrite !andb_false_r; done ]).
Qed.

Lemma be16_value hi lo :
  Fingerprint.be16 hi lo = int_of_byte hi * 256 + int_of_byte lo.
Proof. apply lor_shiftl_8, int_of_byte_range. Qed.

Lemma be16_range hi lo : 0 <= Fingerprint.be16 hi lo < 65536.
Proof.
  rewrite be16_value.
  pose proof (int_of_byte_range hi). pose proof (int_of_byte_range lo). lia.
Qed.

(** [bytes([(z >> 8) & 0xFF, z & 0xFF])] is [z] in big-endian order. *)
Lemma be16_split z :
  0 <= z < 65536 ->
  Fingerprint.be16 (low_byte (Z.shiftr z 8)) (low_byte z) = z.
Proof.
  intros Hz. rewrite be16_value, !int_of_low_byte, !land_255.
  rewrite Z.shiftr_div_pow2 by lia. change (2 ^ 8) with 256.
  rewrite (Z.mod_small (z / 256))
    by (split; [apply Z.div_pos; lia | apply Z.div_lt_upper_bound; lia]).
  pose proof (Z.div_mod z 256). lia.
Qed.

Lemma land_FFFF_range z : 0 <= Z.land z 0xFFFF < 65536.
Proof.
  change 0xFFFF with (Z.ones 16).
  rewrite (Z.land_ones z 16) by lia. apply Z.mod_pos_bound. lia.
Qed.

End Bytes.

(** ** The sensor protocol *)

Section FingerprintProtocol.

Import Fingerprint.

Lemma packet_body_eq command data c :
  byte_of_int command = Some c ->
  packet_body command data =
    Some (HEADER ++ ADDRESS ++ [PACKAGE_IDENTIFIER]
            ++ length_field (c :: data) ++ c :: data).
Proof. intros Hc. unfold packet_body. rewrite Hc. reflexivity. Qed.

(** The first six bytes, header and address, stay out of the sum; the
    package identifier at index 6 is its first summand. *)
Lemma checksum_body c data :
  checksum (HEADER ++ ADDRESS ++ [PACKAGE_IDENTIFIER]
              ++ length_field (c :: data) ++ c :: data)
  = Z.land (sum (PACKAGE_IDENTIFIER :: length_field (c :: data) ++ c :: data)) 0xFFFF.
Proof. reflexivity. Qed.

(** C2, as the code has it: for every command byte and payload the two
    bytes appended to an outgoing packet are, in big-endian order, the sum
    of all bytes from the one-byte package identifier (not only from the
    length field) through the end of the payload, truncated to 16 bits. *)
Theorem checksum_covers_package_identifier command data :
  0 <= command < 256 ->
  exists c hi lo,
    byte_of_int command = Some c /\
    build_packet command data =
      Some (HEADER ++ ADDRESS ++ [PACKAGE_IDENTIFIER]
              ++ length_field (c :: data) ++ c :: data ++ [hi; lo]) /\
    be16 hi lo =
      Z.land (sum (PACKAGE_IDENTIFIER :: length_field (c :: data) ++ c :: data)) 0xFFFF.
Proof.
  intros Hc. destruct (byte_of_int_Some command Hc) as (c & Ec & _).
  set (body := HEADER ++ ADDRESS ++ [PACKAGE_IDENTIFIER]
                 ++ length_field (c :: data) ++ c :: data).
  exists c, (low_byte (Z.shiftr (checksum body) 8)), (low_byte (checksum body)).
  split; [done|]. split.
  - unfold build_packet. rewrite (packet_body_eq _ _ _ Ec). reflexivity.
  - rewrite be16_split by apply land_FFFF_range. apply checksum_body.
Qed.

Lemma checksum_covers_package_identifier_witness :
  exists c hi lo,
    byte_of_int CMD_VERIFY_PASSWORD = Some c /\
    build_packet CMD_VERIFY_PASSWORD Samples.password =
      Some (HEADER ++ ADDRESS ++ [PACKAGE_IDENTIFIER]
              ++ length_field (c :: Samples.password)
              ++ c :: Samples.password ++ [hi; lo]) /\
    be16 hi lo =
      Z.land (sum (PACKAGE_IDENTIFIER :: length_field (c :: Samples.password)
                     ++ c :: Samples.password)) 0xFFFF.
Proof.
  apply (checksum_covers_package_identifier CMD_VERIFY_PASSWORD).
  unfold CMD_VERIFY_PASSWORD. lia.
Defined.

(** The appended sum is the specification's sum plus one, modulo 2^16,
    on every packet. *)
Lemma checksum_vs_spec c data :
  Z.land (sum (PACKAGE_IDENTIFIER :: length_field (c :: data) ++ c :: data)) 0xFFFF
  = (spec_checksum (c :: data) + 1) mod 65536.
Proof.
  unfold spec_checksum. change 0xFFFF with (Z.ones 16).
  rewrite !Z.land_ones by lia. change (2 ^ 16) with 65536.
  cbn [sum foldr]. change (int_of_byte PACKAGE_IDENTIFIER) with 1.
  rewrite Z.add_mod_idemp_l by lia. f_equal.
  unfold sum. lia.
Qed.

(** The handshake packet of the sensor's data sheet. *)
Example verify_password_packet :
  map int_of_byte <$> build_packet CMD_VERIFY_PASSWORD Samples.password
  = Some [0xEF; 0x01; 0xFF; 0xFF; 0xFF; 0xFF; 0x01; 0x00; 0x07; 0x13;
          0x00; 0x00; 0x00; 0x00; 0x00; 0x1B].
Proof. reflexivity. Qed.

(** C2 as stated fails on the get-image packet: the appended checksum is
    5, the sum from the length field on is 4. *)
Lemma checksum_is_not_sum_from_length_field :
  build_packet CMD_GET_IMAGE [] =
    Some (HEADER ++ ADDRESS ++ [PACKAGE_IDENTIFIER]
            ++ length_field [low_byte CMD_GET_IMAGE] ++ [low_byte CMD_GET_IMAGE]
            ++ [low_byte 0x00; low_byte 0x05]) /\
  be16 (low_byte 0x00) (low_byte 0x05) = 5 /\
  spec_checksum [low_byte CMD_GET_IMAGE] = 4.
Proof. repeat split. Qed.

(** On the hardware path every command is written as built, and no
    payload ever comes back: [read(12)] returns at most twelve bytes, and
    the payload is only cut out of a longer response. *)
Lemma send_command_hardware self port command data packet :
  hardware self ->
  build_packet command data = Some packet ->
  exists code rdata port',
    _send_command self port command data = Some ((code, rdata), port') /\
    tx port' = tx port ++ [packet] /\ rdata = [].
Proof.
  intros (Hsim & _ & Hser) Hp. unfold _send_command.
  rewrite Hsim, Hser, Hp. simpl.
  destruct (rx port) as [|[bs|] rest]; simpl.
  - by eexists _, _, _.
  - unfold parse_response.
    case_bool_decide; [by eexists _, _, _|].
    rewrite bool_decide_eq_false_2; [by eexists _, _, _|].
    rewrite length_take. lia.
  - by eexists _, _, _.
Qed.

Lemma searched_slots_args : searched_slots SEARCH_ARGS = seqZ 0 163.
Proof. reflexivity. Qed.

Lemma next_fingerprint_id_range fingerprints i :
  _get_next_fingerprint_id fingerprints = Some i ->
  1 <= i <= 162 /\ i ∉ fingerprints.
Proof.
  unfold _get_next_fingerprint_id. destruct fingerprints as [|f fs].
  - intros [= <-]. split; [lia|]. apply not_elem_of_nil.
  - intros Hf. apply find_some in Hf as [Hin Hd].
    apply bool_decide_eq_true_1 in Hd.
    apply list_elem_of_In, elem_of_seqZ in Hin.
    split; [lia|]. intros Hi. apply Hd. by apply elem_of_list_to_set.
Qed.

(** With the twelve-byte read no payload reaches the decoder, so the
    result of an identification on the hardware path carries no slot
    id. *)
Lemma decode_search_no_payload repo code :
  fingerprint_id (decode_search repo code []) = None.
Proof. unfold decode_search. destruct (bool_decide (code = 0)); by case_bool_decide. Qed.

(** C4, as the code has it: after a successful capture an identification
    request on the hardware path writes one more packet, the search
    command with buffer 1, start page 0 and page count 163: the window it
    searches is the slots 0..162, that is the whole slot space 1..162,
    from which the enrolment allocator hands out its slots, and slot 0
    besides.  Every slot id that the request decodes from the response
    lies in 1..162: with the twelve-byte read of [_send_command] it
    decodes none. *)
Theorem search_covers_slots_0_to_162 self repo polls rnd port r port1 :
  hardware self ->
  capture_fingerprint self polls port = Some (r, port1) ->
  status r = CAPTURED ->
  exists packet res port2,
    search_fingerprint self repo polls rnd port = Some (res, port2) /\
    build_packet CMD_SEARCH SEARCH_ARGS = Some packet /\
    tx port2 = tx port1 ++ [packet] /\
    searched_slots SEARCH_ARGS = seqZ 0 163 /\
    (forall s, s ∈ searched_slots SEARCH_ARGS <-> 0 <= s <= 162) /\
    (forall s, fingerprint_id res = Some s -> 1 <= s <= 162) /\
    fingerprint_id res = None /\
    (forall fingerprints i,
        _get_next_fingerprint_id fingerprints = Some i -> 1 <= i <= 162).
Proof.
  intros Hhw Hcap Hst.
  destruct (build_packet CMD_SEARCH SEARCH_ARGS) as [packet|] eqn:Hp; [|discriminate].
  destruct (send_command_hardware self port1 _ _ _ Hhw Hp)
    as (code & rdata & port2 & Hsend & Htx & ->).
  exists packet, (decode_search repo code []), port2.
  split; [|split; [done|split; [done|split; [done|split; [|split; [|split]]]]]].
  - unfold search_fingerprint. destruct Hhw as (Hsim & Hconn & _).
    rewrite Hconn, Hcap. simpl. rewrite Hst, Hsim. simpl.
    rewrite Hsend. reflexivity.
  - intros s. rewrite searched_slots_args, elem_of_seqZ. lia.
  - intros s. by rewrite decode_search_no_payload.
  - apply decode_search_no_payload.
  - intros fps i Hi. by apply next_fingerprint_id_range in Hi as [Hi _].
Qed.

Lemma search_covers_slots_0_to_162_witness :
  exists packet res port2,
    search_fingerprint Samples.sensor ∅ 1 0 Samples.port = Some (res, port2) /\
    build_packet CMD_SEARCH SEARCH_ARGS = Some packet /\
    tx port2 = tx Samples.port_after_capture ++ [packet] /\
    searched_slots SEARCH_ARGS = seqZ 0 163 /\
    (forall s, s ∈ searched_slots SEARCH_ARGS <-> 0 <= s <= 162) /\
    (forall s, fingerprint_id res = Some s -> 1 <= s <= 162) /\
    fingerprint_id res = None /\
    (forall fingerprints i,
        _get_next_fingerprint_id fingerprints = Some i -> 1 <= i <= 162).
Proof.
  apply (search_covers_slots_0_to_162 Samples.sensor ∅ 1 0 Samples.port
           (result_of CAPTURED "Fingerprint captured successfully")
           Samples.port_after_capture).
  - repeat split.
  - reflexivity.
  - reflexivity.
Defined.

(** C4 as stated fails: the searched slots are not 1..162, slot 0 is
    among them. *)
Lemma searched_slots_are_not_1_to_162 :
  searched_slots SEARCH_ARGS <> seqZ 1 162 /\ 0 ∈ searched_slots SEARCH_ARGS.
Proof.
  split; [discriminate|]. rewrite searched_slots_args. apply elem_of_seqZ. lia.
Qed.

(** A capture never reports a match. *)
Lemma capture_statuses self polls port r port' :
  capture_fingerprint self polls port = Some (r, port') ->
  status r <> MATCHED.
Proof.
  unfold capture_fingerprint.
  destruct (_connected self); simpl; [|by intros [= <- _]].
  destruct (simulation self); [by intros [= <- _]|].
  revert port. induction polls as [|polls IH]; intros port; simpl.
  - by intros [= <- _].
  - destruct (_send_command self port CMD_GET_IMAGE []) as [[[c d] p]|]; [|done].
    simpl. case_bool_decide.
    + destruct (_send_command self p CMD_GEN_CHAR [low_byte 1]) as [[[c2 d2] p2]|];
        [|done].
      simpl. case_bool_decide; by intros [= <- _].
    + case_bool_decide; [apply IH | by intros [= <- _]].
Qed.

(** X1: on the hardware path an identification never answers MATCHED:
    [_send_command] reads at most twelve bytes, so no payload reaches the
    decoder, and a sensor answer with confirmation code 0 is reported as
    SENSOR_ERROR. *)
Lemma hardware_search_never_matches self repo polls rnd port res port' :
  hardware self ->
  search_fingerprint self repo polls rnd port = Some (res, port') ->
  status res <> MATCHED.
Proof.
  intros Hhw. unfold search_fingerprint.
  pose proof Hhw as (Hsim & Hconn & _). rewrite Hconn. simpl.
  destruct (capture_fingerprint self polls port) as [[r p]|] eqn:Hcap; [|done].
  simpl. case_bool_decide as Hst; simpl.
  - rewrite Hsim.
    destruct (build_packet CMD_SEARCH SEARCH_ARGS) as [packet|] eqn:Hp; [|discriminate].
    destruct (send_command_hardware self p _ _ _ Hhw Hp)
      as (code & rdata & p2 & -> & _ & ->).
    simpl. intros [= <- _]. unfold decode_search.
    destruct (bool_decide (code = 0)); by case_bool_decide.
  - intros [= <- _]. by eapply capture_statuses.
Qed.

End FingerprintProtocol.

(** ** The face matcher *)

Section FaceMatch.

Import Face.

(** [argmin_from] as a loop: [ds] is the whole array, [i] the next index
    to look at, [best_idx] the first smallest index among those seen. *)
Lemma argmin_from_spec (ds : list Q) :
  forall l i best_idx best,
    drop i ds = l ->
    (best_idx < i)%nat ->
    ds !! best_idx = Some best ->
    (forall j d, (j < i)%nat -> ds !! j = Some d -> (best <= d)%Q) ->
    (forall j d, (j < best_idx)%nat -> ds !! j = Some d -> (best < d)%Q) ->
    exists d,
      ds !! argmin_from best_idx best i l = Some d /\
      (forall j d', ds !! j = Some d' -> (d <= d')%Q) /\
      (forall j d', (j < argmin_from best_idx best i l)%nat ->
                    ds !! j = Some d' -> (d < d')%Q).
Proof.
  induction l as [|x l IH]; intros i best_idx best Hl Hlt Hb Hle Hfirst.
  - simpl. exists best. split; [done|]. split; [|done].
    intros j d' Hj. apply (Hle j); [|done].
    apply lookup_lt_Some in Hj.
    assert (List.length (drop i ds) = 0%nat) as Hd by (by rewrite Hl).
    rewrite length_drop in Hd. lia.
  - assert (ds !! i = Some x) as Hi.
    { rewrite <- (Nat.add_0_r i), <- lookup_drop, Hl. done. }
    assert (drop (S i) ds = l) as Hl'.
    { pose proof (drop_S ds x i Hi) as Hd. rewrite Hl in Hd. by injection Hd. }
    simpl. destruct (Qlt_le_dec x best) as [Hx|Hx].
    + apply IH; [done|lia|done| |].
      * intros j d Hj Hd. destruct (decide (j = i)) as [->|Hne].
        -- rewrite Hi in Hd. injection Hd as <-. lra.
        -- assert (best <= d)%Q by (apply (Hle j); [lia|done]). lra.
      * intros j d Hj Hd.
        assert (best <= d)%Q by (apply (Hle j); [lia|done]). lra.
    + apply IH; [done|lia|done| |done].
      intros j d Hj Hd. destruct (decide (j = i)) as [->|Hne].
      * rewrite Hi in Hd. by injection Hd as <-.
      * apply (Hle j); [lia|done].
Qed.

(** [np.argmin] returns the first index of a smallest element. *)
Lemma argmin_spec (ds : list Q) :
  ds <> [] ->
  exists d,
    ds !! argmin ds = Some d /\
    (forall j d', ds !! j = Some d' -> (d <= d')%Q) /\
    (forall j d', (j < argmin ds)%nat -> ds !! j = Some d' -> (d < d')%Q).
Proof.
  destruct ds as [|x l]; [done|]. intros _. unfold argmin.
  apply (argmin_from_spec (x :: l) l 1 0 x); [done|lia|done| |].
  - intros j d Hj Hd. assert (j = 0)%nat as -> by lia. injection Hd as <-. lra.
  - intros j d Hj. lia.
Qed.

Section Engine.

Context {Encoding : Type} (face_distance : Encoding -> Encoding -> Q).

Lemma refresh_cache_ok now data (self : FaceRecognitionEngine Encoding) :
  cache_ok self -> cache_ok (_refresh_known_faces now data self).
Proof.
  intros H. destruct data as [rows|]; [|done].
  unfold cache_ok. simpl. by rewrite !length_fmap.
Qed.

Lemma check_cache_ok now data (self : FaceRecognitionEngine Encoding) :
  cache_ok self -> cache_ok (_check_cache_freshness now data self).
Proof.
  intros H. unfold _check_cache_freshness.
  destruct (Qlt_le_dec _ _); [by apply refresh_cache_ok | done].
Qed.

Lemma match_known_spec (self : FaceRecognitionEngine Encoding) loc enc :
  cache_ok self ->
  _known_encodings self <> [] ->
  exists idx known user_data,
    _known_encodings self !! idx = Some known /\
    _known_user_data self !! idx = Some user_data /\
    (forall known', known' ∈ _known_encodings self ->
                    (face_distance known enc <= face_distance known' enc)%Q) /\
    let d := face_distance known enc in
    let r := match_known face_distance self loc enc in
    (status r = FACE_MATCHED <-> (d <= FACE_RECOGNITION_TOLERANCE)%Q) /\
    ((d <= FACE_RECOGNITION_TOLERANCE)%Q ->
       user_id r = Some (ud_user_id user_data) /\ confidence r = (1 - d)%Q) /\
    (~ (d <= FACE_RECOGNITION_TOLERANCE)%Q -> status r = UNKNOWN_FACE).
Proof.
  intros Hok Hne.
  set (ds := (fun known => face_distance known enc) <$> _known_encodings self).
  assert (ds <> []) as Hds.
  { subst ds. intros E. apply fmap_nil_inv in E. done. }
  destruct (argmin_spec ds Hds) as (d & Hd & Hmin & _).
  pose proof Hd as Hd'. subst ds. rewrite list_lookup_fmap in Hd'.
  destruct (_known_encodings self !! argmin _) as [known|] eqn:Hk; [|done].
  injection Hd' as <-.
  destruct (lookup_lt_is_Some_2 (_known_user_data self) (argmin
    ((fun known => face_distance known enc) <$> _known_encodings self)))
    as [user_data Hu].
  { rewrite <- Hok. by eapply lookup_lt_Some. }
  eexists _, known, user_data. split; [exact Hk|]. split; [done|]. split.
  - intros known' Hin. apply list_elem_of_lookup in Hin as [j Hj].
    apply (Hmin j). by rewrite list_lookup_fmap, Hj.
  - simpl. unfold match_known.
    destruct (_known_encodings self) as [|e0 es] eqn:He; [done|].
    rewrite Hd, Hu.
    destruct (Qle_bool _ _) eqn:Hle.
    + apply Qle_bool_iff in Hle. simpl. by repeat split.
    + assert (~ (face_distance known enc <= FACE_RECOGNITION_TOLERANCE)%Q) as Hn.
      { intros H. apply Qle_bool_iff in H. congruence. }
      simpl. repeat split; try done.
Qed.

(** C3: for a frame with one detected and encoded face and a non-empty
    cache (after the freshness check), [process_frame] picks an enrolled
    embedding at minimum distance from the query and returns FACE_MATCHED
    for its user if and only if that distance is at most the tolerance
    0.6, with confidence one minus the distance, and UNKNOWN_FACE
    otherwise. *)
Theorem nearest_neighbour_decision now data loc enc encs
    (self : FaceRecognitionEngine Encoding) :
  let cache := _check_cache_freshness now data self in
  cache_ok self ->
  _known_encodings cache <> [] ->
  exists idx known user_data,
    _known_encodings cache !! idx = Some known /\
    _known_user_data cache !! idx = Some user_data /\
    (forall known', known' ∈ _known_encodings cache ->
                    (face_distance known enc <= face_distance known' enc)%Q) /\
    let d := face_distance known enc in
    let r := fst (process_frame face_distance now data
                    (Detected [loc] (enc :: encs)) self) in
    (FACE_RECOGNITION_TOLERANCE == 0.6)%Q /\
    (status r = FACE_MATCHED <-> (d <= FACE_RECOGNITION_TOLERANCE)%Q) /\
    ((d <= FACE_RECOGNITION_TOLERANCE)%Q ->
       user_id r = Some (ud_user_id user_data) /\ confidence r = (1 - d)%Q) /\
    (~ (d <= FACE_RECOGNITION_TOLERANCE)%Q -> status r = UNKNOWN_FACE).
Proof.
  intros cache Hok Hne.
  destruct (match_known_spec cache loc enc (check_cache_ok now data self Hok) Hne)
    as (idx & known & user_data & Hk & Hu & Hmin & Hiff & Hyes & Hno).
  exists idx, known, user_data.
  split; [done|]. split; [done|]. split; [done|].
  cbn [process_frame fst]. fold cache.
  split; [reflexivity|]. split; [done|]. split; done.
Qed.

End Engine.

Lemma nearest_neighbour_decision_witness :
  exists idx known user_data,
    _known_encodings Samples.face_engine !! idx = Some known /\
    _known_user_data Samples.face_engine !! idx = Some user_data /\
    (forall known', known' ∈ _known_encodings Samples.face_engine ->
        (Samples.distance1 known 0 <= Samples.distance1 known' 0)%Q) /\
    let d := Samples.distance1 known 0 in
    let r := fst (process_frame Samples.distance1 101 None
                    (Detected [(10, 60, 50, 20)] [0%Q]) Samples.face_engine) in
    (FACE_RECOGNITION_TOLERANCE == 0.6)%Q /\
    (status r = FACE_MATCHED <-> (d <= FACE_RECOGNITION_TOLERANCE)%Q) /\
    ((d <= FACE_RECOGNITION_TOLERANCE)%Q ->
       user_id r = Some (ud_user_id user_data) /\ confidence r = (1 - d)%Q) /\
    (~ (d <= FACE_RECOGNITION_TOLERANCE)%Q -> status r = UNKNOWN_FACE).
Proof.
  apply (nearest_neighbour_decision Samples.distance1 101 None (10, 60, 50, 20)
           0%Q [] Samples.face_engine).
  - reflexivity.
  - discriminate.
Defined.

(** The scenario of the specification: distance 0.3 under tolerance 0.6
    matches the first user with confidence 0.7. *)
Example face_matched_at_distance_03 :
  let r := fst (process_frame Samples.distance1 101 None
                  (Detected [(10, 60, 50, 20)] [0%Q]) Samples.face_engine) in
  status r = FACE_MATCHED /\ user_id r = Some 1 /\ (confidence r == 0.7)%Q.
Proof. by vm_compute. Qed.

End FaceMatch.

(** ** The door controller and its relock timer *)

Section DoorTimers.

Import Door.

Implicit Types (self w : DoorController) (timer : nat) (now : Q) (ok : Calls).

Ltac door_cases w ok :=
  let Hsim := fresh "Hsim" in
  let Htimer := fresh "Htimer" in
  destruct (_auto_lock_timer w) eqn:Htimer; destruct (simulation w) eqn:Hsim;
  destruct ok as [[] []]; simpl; rewrite ?Hsim, ?Htimer; simpl.

Lemma lock_fields reason now ok w :
  let w' := snd (lock reason now ok w) in
  fst (lock reason now ok w) = succeeds w ok /\
  timers w' = cancelled w /\
  _auto_lock_timer w' = None /\
  _state w' = (if succeeds w ok then LOCKED else ERROR) /\
  _last_unlock_time w' = (if relay_ok w ok then None else _last_unlock_time w) /\
  unlock_duration w' = unlock_duration w /\
  simulation w' = simulation w.
Proof.
  unfold lock, failed, cancelled, succeeds, relay_ok, gpio_output.
  door_cases w ok; done.
Qed.

Lemma emergency_lock_fields now ok w :
  let w' := snd (emergency_lock now ok w) in
  fst (emergency_lock now ok w) = succeeds w ok /\
  timers w' = cancelled w /\
  _auto_lock_timer w' = None /\
  _state w' = (if relay_ok w ok then LOCKED else _state w) /\
  _last_unlock_time w' = (if relay_ok w ok then None else _last_unlock_time w) /\
  unlock_duration w' = unlock_duration w /\
  simulation w' = simulation w.
Proof.
  unfold emergency_lock, cancelled, succeeds, relay_ok, gpio_output.
  door_cases w ok; done.
Qed.

Lemma unlock_fields duration reason now ok w :
  let w' := snd (unlock duration reason now ok w) in
  fst (unlock duration reason now ok w) = succeeds w ok /\
  timers w' =
    cancelled w ++
      (if succeeds w ok then [mkTimer (chosen_duration w duration) now false] else []) /\
  _auto_lock_timer w' =
    (if succeeds w ok then Some (length (timers w)) else _auto_lock_timer w) /\
  _state w' = (if succeeds w ok then UNLOCKED else ERROR) /\
  _last_unlock_time w' = (if relay_ok w ok then Some now else _last_unlock_time w) /\
  unlock_duration w' = unlock_duration w /\
  simulation w' = simulation w.
Proof.
  unfold unlock, failed, cancelled, succeeds, relay_ok, chosen_duration, gpio_output.
  door_cases w ok; rewrite ?length_alter, ?app_nil_r; by repeat split.
Qed.

Lemma cleanup_fields now ok w :
  timers (cleanup now ok w) = cancelled w /\
  _auto_lock_timer (cleanup now ok w) = None /\
  _state (cleanup now ok w) = (if succeeds w ok then LOCKED else ERROR).
Proof.
  unfold cleanup. destruct (lock_fields "System shutdown" now ok
    (match _auto_lock_timer w with Some timer => cancel timer w | None => w end))
    as (_ & -> & -> & -> & _).
  split; [|split; [done|]].
  - unfold cancelled.
    destruct (_auto_lock_timer w) as [timer|] eqn:E; simpl; rewrite E; [|done].
    apply list_eq. intros j. destruct (decide (j = timer)) as [->|Hne].
    + rewrite !list_lookup_alter_eq. by destruct (timers w !! timer).
    + by rewrite !list_lookup_alter_ne.
  - unfold succeeds, relay_ok. by destruct (_auto_lock_timer w).
Qed.

Lemma cancelled_length w : length (cancelled w) = length (timers w).
Proof. unfold cancelled. destruct (_auto_lock_timer w); by rewrite ?length_alter. Qed.

(** Cancelling the held timer leaves no timer waiting. *)
Lemma cancelled_finished w timer t :
  holds_pending w -> cancelled w !! timer = Some t -> finished t = true.
Proof.
  intros Hinv. unfold cancelled. destruct (_auto_lock_timer w) as [cur|] eqn:Hcur.
  - destruct (decide (timer = cur)) as [->|Hne].
    + rewrite list_lookup_alter_eq. destruct (timers w !! cur); [|done].
      by intros [= <-].
    + rewrite list_lookup_alter_ne by done. intros Hj.
      destruct (finished t) eqn:Hf; [done|].
      specialize (Hinv timer t Hj Hf). congruence.
  - intros Hj. destruct (finished t) eqn:Hf; [done|].
    specialize (Hinv timer t Hj Hf). congruence.
Qed.

Lemma quiet_cancelled w timer t :
  quiet w -> cancelled w !! timer = Some t -> finished t = true.
Proof.
  intros Hq. apply cancelled_finished. intros j t' Hj Hf.
  rewrite (Hq j t' Hj) in Hf. done.
Qed.

Lemma fire_fields timer now ok w w' :
  fire timer now ok w = Some w' ->
  exists t, timers w !! timer = Some t /\ due now t = true /\
            timers w' = alter finish timer (cancelled w) /\
            _auto_lock_timer w' = None.
Proof.
  unfold fire. destruct (timers w !! timer) as [t|]; [|done]. simpl.
  destruct (due now t) eqn:Hdue; [|done]. intros [= <-].
  exists t. unfold _auto_lock.
  destruct (lock_fields "Auto-lock timer" now ok w) as (_ & Ht & Hc & _).
  simpl. rewrite Ht. done.
Qed.

Lemma quiet_cannot_fire timer now ok w : quiet w -> fire timer now ok w = None.
Proof.
  intros Hq. unfold fire. destruct (timers w !! timer) as [t|] eqn:Ht; [|done].
  simpl. unfold due. by rewrite (Hq timer t Ht).
Qed.

Lemma alter_finish_finished (ts : list Timer) timer j t :
  (forall j t, ts !! j = Some t -> finished t = true) ->
  alter finish timer ts !! j = Some t -> finished t = true.
Proof.
  intros Hall. destruct (decide (j = timer)) as [->|Hne].
  - rewrite list_lookup_alter_eq. destruct (ts !! timer); [|done]. by intros [= <-].
  - rewrite list_lookup_alter_ne by done. apply Hall.
Qed.

(** Every event keeps the held timer the only one that may be waiting. *)
Lemma handle_holds_pending now ok e w w' :
  holds_pending w -> handle now ok e w = Some w' -> holds_pending w'.
Proof.
  intros Hinv He j t. destruct e as [d r|r| |d| |timer]; simpl in He.
  - injection He as <-.
    destruct (unlock_fields d r now ok w) as (_ & -> & -> & _).
    destruct (succeeds w ok).
    + intros Hj Hf. destruct (decide (j < length (cancelled w))%nat) as [Hlt|Hge].
      * rewrite lookup_app_l in Hj by done.
        rewrite (cancelled_finished w j t Hinv Hj) in Hf. done.
      * apply lookup_lt_Some in Hj as Hlen.
        rewrite length_app in Hlen. simpl in Hlen.
        rewrite cancelled_length in *. f_equal. lia.
    + rewrite app_nil_r. intros Hj Hf.
      rewrite (cancelled_finished w j t Hinv Hj) in Hf. done.
  - injection He as <-. destruct (lock_fields r now ok w) as (_ & -> & _).
    intros Hj Hf. rewrite (cancelled_finished w j t Hinv Hj) in Hf. done.
  - injection He as <-. destruct (emergency_lock_fields now ok w) as (_ & -> & _).
    intros Hj Hf. rewrite (cancelled_finished w j t Hinv Hj) in Hf. done.
  - injection He as <-. unfold set_unlock_duration.
    destruct (Qlt_le_dec 0 d); apply Hinv.
  - injection He as <-. destruct (cleanup_fields now ok w) as (-> & _).
    intros Hj Hf. rewrite (cancelled_finished w j t Hinv Hj) in Hf. done.
  - apply fire_fields in He as (t0 & _ & _ & -> & _).
    intros Hj Hf.
    rewrite (alter_finish_finished _ _ _ _ (fun j t => cancelled_finished w j t Hinv) Hj)
      in Hf. done.
Qed.

Lemma run_holds_pending es : forall w w',
  holds_pending w -> run es w = Some w' -> holds_pending w'.
Proof.
  induction es as [|[[now ok] e] es IH]; intros w w' Hinv Hrun; simpl in Hrun.
  - by injection Hrun as <-.
  - destruct (handle now ok e w) as [w1|] eqn:He; [|done].
    simpl in Hrun. eapply IH; [|done]. by eapply handle_holds_pending.
Qed.

Lemma reachable_holds_pending w : reachable w -> holds_pending w.
Proof.
  intros (sim & es & Hrun). eapply run_holds_pending; [|done].
  intros j t Hj. done.
Qed.

(** Apart from [unlock], no event wakes a quiet controller, and a timer
    cannot fire on one. *)
Lemma handle_quiet now ok e w w' :
  quiet w -> is_unlock e = false -> handle now ok e w = Some w' ->
  quiet w' /\ is_fires e = false.
Proof.
  intros Hq Hnu He. destruct e as [d r|r| |d| |timer]; try done; simpl in He.
  - injection He as <-. split; [|done]. intros j t.
    destruct (lock_fields r now ok w) as (_ & -> & _). by apply quiet_cancelled.
  - injection He as <-. split; [|done]. intros j t.
    destruct (emergency_lock_fields now ok w) as (_ & -> & _). by apply quiet_cancelled.
  - injection He as <-. split; [|done]. unfold set_unlock_duration.
    destruct (Qlt_le_dec 0 d); apply Hq.
  - injection He as <-. split; [|done]. intros j t.
    destruct (cleanup_fields now ok w) as (-> & _). by apply quiet_cancelled.
  - by rewrite quiet_cannot_fire in He.
Qed.

Lemma run_quiet es : forall w w',
  quiet w -> run es w = Some w' ->
  Forall (fun x => is_unlock x.2 = false) es ->
  Forall (fun x => is_fires x.2 = false) es /\ quiet w'.
Proof.
  induction es as [|[[now ok] e] es IH]; intros w w' Hq Hrun Hnu; simpl in Hrun.
  - injection Hrun as <-. by split.
  - destruct (handle now ok e w) as [w1|] eqn:He; [|done]. simpl in Hrun.
    apply Forall_cons in Hnu as [Hnu1 Hnu].
    destruct (handle_quiet now ok e w w1 Hq Hnu1 He) as [Hq1 Hnf].
    destruct (IH w1 w' Hq1 Hrun Hnu) as [Hfs Hq']. split; [|done].
    by apply Forall_cons.
Qed.

(** A transition starts by cancelling the held timer. *)
Lemma transition_cancels_first now ok e w w' timer :
  is_transition e = true ->
  handle now ok e w = Some w' ->
  _auto_lock_timer w = Some timer ->
  exists rest, trace w' = trace w ++ Cancel timer :: rest.
Proof.
  intros Ht He Hcur. destruct e as [d r|r| |d| |j]; try done;
    simpl in He; injection He as <-.
  - unfold unlock, failed, gpio_output. rewrite Hcur.
    destruct (simulation w) eqn:Hsim; destruct ok as [[] []]; simpl;
      rewrite ?Hsim; simpl; rewrite <- ?app_assoc; simpl; by eexists.
  - unfold lock, failed, gpio_output. rewrite Hcur.
    destruct (simulation w) eqn:Hsim; destruct ok as [[] []]; simpl;
      rewrite ?Hsim; simpl; rewrite <- ?app_assoc; simpl; by eexists.
  - unfold emergency_lock, gpio_output. rewrite Hcur.
    destruct (simulation w) eqn:Hsim; destruct ok as [[] []]; simpl;
      rewrite ?Hsim; simpl; rewrite <- ?app_assoc; simpl; by eexists.
Qed.

(** After a transition every timer that existed before it is finished. *)
Lemma transition_finishes_old now ok e w w' timer t :
  holds_pending w ->
  is_transition e = true ->
  handle now ok e w = Some w' ->
  (timer < length (timers w))%nat ->
  timers w' !! timer = Some t -> finished t = true.
Proof.
  intros Hinv Ht He Hlt. destruct e as [d r|r| |d| |j]; try done;
    simpl in He; injection He as <-.
  - destruct (unlock_fields d r now ok w) as (_ & -> & _).
    rewrite lookup_app_l by (by rewrite cancelled_length).
    by apply cancelled_finished.
  - destruct (lock_fields r now ok w) as (_ & -> & _). by apply cancelled_finished.
  - destruct (emergency_lock_fields now ok w) as (_ & -> & _).
    by apply cancelled_finished.
Qed.

(** C5: on every controller that a history of events can produce,
    [unlock(d)] followed by [lock()] leaves the timer that [unlock]
    started cancelled and no timer waiting, so that no relock fires until
    the door is unlocked again; and each of [unlock], [lock] and
    [emergency_lock] begins by cancelling the timer the controller holds,
    leaving every timer created earlier finished. *)
Theorem lock_after_unlock_prevents_relock w d reason1 reason2 t1 t2 ok1 ok2 :
  reachable w ->
  let w1 := snd (unlock d reason1 t1 ok1 w) in
  let w2 := snd (lock reason2 t2 ok2 w1) in
  (succeeds w ok1 = true ->
     timers w1 !! length (timers w) = Some (mkTimer (chosen_duration w d) t1 false) /\
     timers w2 !! length (timers w) = Some (mkTimer (chosen_duration w d) t1 true)) /\
  quiet w2 /\
  (forall timer now ok, fire timer now ok w2 = None) /\
  (forall es w3,
      run es w2 = Some w3 ->
      Forall (fun x => is_unlock x.2 = false) es ->
      Forall (fun x => is_fires x.2 = false) es) /\
  (forall now ok e w',
      is_transition e = true ->
      handle now ok e w = Some w' ->
      (forall timer, _auto_lock_timer w = Some timer ->
                     exists rest, trace w' = trace w ++ Cancel timer :: rest) /\
      (forall timer t, (timer < length (timers w))%nat ->
                       timers w' !! timer = Some t -> finished t = true)).
Proof.
  intros Hreach w1 w2. pose proof (reachable_holds_pending w Hreach) as Hinv.
  assert (holds_pending w1) as Hinv1.
  { by apply (handle_holds_pending t1 ok1 (Unlock d reason1) w). }
  assert (quiet w2) as Hq.
  { intros j t. subst w2. destruct (lock_fields reason2 t2 ok2 w1) as (_ & -> & _).
    by apply cancelled_finished. }
  split; [|split; [done|split; [|split]]].
  - intros Hok. subst w2.
    destruct (lock_fields reason2 t2 ok2 w1) as (_ & -> & _).
    unfold cancelled. subst w1.
    destruct (unlock_fields d reason1 t1 ok1 w) as (_ & -> & -> & _).
    rewrite Hok.
    assert ((cancelled w ++ [mkTimer (chosen_duration w d) t1 false])
              !! length (timers w) = Some (mkTimer (chosen_duration w d) t1 false)) as E.
    { rewrite lookup_app_r by (by rewrite cancelled_length).
      by rewrite cancelled_length, Nat.sub_diag. }
    split; [done|]. by rewrite list_lookup_alter_eq, E.
  - intros timer now ok. by apply quiet_cannot_fire.
  - intros es w3 Hrun Hnu. by destruct (run_quiet es w2 w3 Hq Hrun Hnu).
  - intros now ok e w' Ht He. split.
    + intros timer. by apply (transition_cancels_first now ok e).
    + intros timer t. by apply (transition_finishes_old now ok e).
Qed.

Lemma lock_after_unlock_prevents_relock_witness :
  let w := Samples.unlocked_door in
  let w1 := snd (unlock (Some 8%Q) "Manual" 12 all_ok w) in
  let w2 := snd (lock "Manual" 13 all_ok w1) in
  (succeeds w all_ok = true ->
     timers w1 !! length (timers w) = Some (mkTimer (chosen_duration w (Some 8%Q)) 12 false) /\
     timers w2 !! length (timers w) = Some (mkTimer (chosen_duration w (Some 8%Q)) 12 true)) /\
  quiet w2 /\
  (forall timer now ok, fire timer now ok w2 = None) /\
  (forall es w3,
      run es w2 = Some w3 ->
      Forall (fun x => is_unlock x.2 = false) es ->
      Forall (fun x => is_fires x.2 = false) es) /\
  (forall now ok e w',
      is_transition e = true ->
      handle now ok e w = Some w' ->
      (forall timer, _auto_lock_timer w = Some timer ->
                     exists rest, trace w' = trace w ++ Cancel timer :: rest) /\
      (forall timer t, (timer < length (timers w))%nat ->
                       timers w' !! timer = Some t -> finished t = true)).
Proof.
  apply (lock_after_unlock_prevents_relock Samples.unlocked_door (Some 8%Q)
           "Manual" "Manual" 12 13 all_ok all_ok).
  exists true, [(10%Q, all_ok, Unlock None "Manual")]. reflexivity.
Defined.

(** Without the [lock()], the relock does fire once the interval is
    over. *)
Example relock_fires_when_not_locked :
  is_Some (fire 0 15 all_ok Samples.unlocked_door) /\
  fire 0 14 all_ok Samples.unlocked_door = None.
Proof. split; [by eexists | reflexivity]. Qed.

(** Away from the duration 0 the countdown is restarted as asked: for
    every non-zero duration d2, an [unlock(d2)] that goes through (neither
    the relay call nor the log write raises) while the door is UNLOCKED
    cancels the timer scheduled before and starts a fresh one-shot timer
    with interval d2 at the time of the call; that timer is the only one
    waiting, and it can fire exactly from d2 after the call on. *)
Theorem unlock_restarts_relock_countdown w d2 reason now ok :
  reachable w ->
  _state w = UNLOCKED ->
  ~ (d2 == 0)%Q ->
  succeeds w ok = true ->
  let w' := snd (unlock (Some d2) reason now ok w) in
  let fresh := length (timers w) in
  fst (unlock (Some d2) reason now ok w) = true /\
  _state w' = UNLOCKED /\
  (forall timer, _auto_lock_timer w = Some timer ->
                 exists rest, trace w' = trace w ++ Cancel timer :: rest) /\
  _auto_lock_timer w' = Some fresh /\
  timers w' !! fresh = Some (mkTimer d2 now false) /\
  (forall timer t, timer <> fresh -> timers w' !! timer = Some t -> finished t = true) /\
  (forall timer t ok', timer <> fresh -> fire timer t ok' w' = None) /\
  (forall t ok', is_Some (fire fresh t ok' w') <-> (now + d2 <= t)%Q).
Proof.
  intros Hreach Hst Hd Hok w' fresh.
  pose proof (reachable_holds_pending w Hreach) as Hinv.
  destruct (unlock_fields (Some d2) reason now ok w)
    as (Hret & Hts & Hcur & Hstate & _).
  fold w' in Hts, Hcur, Hstate. rewrite Hok in *.
  assert (chosen_duration w (Some d2) = d2) as Hdur.
  { unfold chosen_duration, truthy. destruct (Qeq_bool d2 0) eqn:E; [|done].
    apply Qeq_bool_iff in E. done. }
  rewrite Hdur in Hts.
  assert (timers w' !! fresh = Some (mkTimer d2 now false)) as Hfresh.
  { rewrite Hts, lookup_app_r by (by rewrite cancelled_length).
    by rewrite cancelled_length, Nat.sub_diag. }
  assert (forall timer t, timer <> fresh -> timers w' !! timer = Some t ->
                          finished t = true) as Hold.
  { intros timer t Hne Hj. rewrite Hts in Hj.
    destruct (decide (timer < length (cancelled w))%nat) as [Hlt|Hge].
    - rewrite lookup_app_l in Hj by done. by eapply cancelled_finished.
    - apply lookup_lt_Some in Hj as Hlen. rewrite length_app in Hlen.
      simpl in Hlen. rewrite cancelled_length in *. subst fresh. lia. }
  split; [done|]. split; [done|]. split.
  { intros timer. by apply (transition_cancels_first now ok (Unlock (Some d2) reason)). }
  split; [done|]. split; [done|]. split; [done|]. split.
  - intros timer t ok' Hne. unfold fire.
    destruct (timers w' !! timer) as [tm|] eqn:Ht; [|done]. simpl.
    unfold due. by rewrite (Hold timer tm Hne Ht).
  - intros t ok'. unfold fire. rewrite Hfresh. simpl. unfold due. simpl.
    destruct (Qle_bool (now + d2) t) eqn:E.
    + apply Qle_bool_iff in E. split; [done|]. intros _. by eexists.
    + split; [by intros [? ?]|]. intros H. apply Qle_bool_iff in H. congruence.
Qed.

Lemma unlock_restarts_relock_countdown_witness :
  let w := Samples.unlocked_door in
  let w' := snd (unlock (Some 8%Q) "Manual" 12 all_ok w) in
  let fresh := length (timers w) in
  fst (unlock (Some 8%Q) "Manual" 12 all_ok w) = true /\
  _state w' = UNLOCKED /\
  (forall timer, _auto_lock_timer w = Some timer ->
                 exists rest, trace w' = trace w ++ Cancel timer :: rest) /\
  _auto_lock_timer w' = Some fresh /\
  timers w' !! fresh = Some (mkTimer 8 12 false) /\
  (forall timer t, timer <> fresh -> timers w' !! timer = Some t -> finished t = true) /\
  (forall timer t ok', timer <> fresh -> fire timer t ok' w' = None) /\
  (forall t ok', is_Some (fire fresh t ok' w') <-> (12 + 8 <= t)%Q).
Proof.
  apply (unlock_restarts_relock_countdown Samples.unlocked_door 8%Q "Manual" 12 all_ok).
  - exists true, [(10%Q, all_ok, Unlock None "Manual")]. reflexivity.
  - reflexivity.
  - discriminate.
  - reflexivity.
Defined.

(** The default duration of a controller is always positive: it starts
    as 5 and [set_unlock_duration] only takes positive values. *)
Lemma handle_unlock_duration_pos now ok e w w' :
  (0 < unlock_duration w)%Q -> handle now ok e w = Some w' ->
  (0 < unlock_duration w')%Q.
Proof.
  intros Hpos He. destruct e as [d r|r| |d| |timer]; simpl in He.
  - injection He as <-.
    by destruct (unlock_fields d r now ok w) as (_ & _ & _ & _ & _ & -> & _).
  - injection He as <-.
    by destruct (lock_fields r now ok w) as (_ & _ & _ & _ & _ & -> & _).
  - injection He as <-.
    by destruct (emergency_lock_fields now ok w) as (_ & _ & _ & _ & _ & -> & _).
  - injection He as <-. unfold set_unlock_duration.
    by destruct (Qlt_le_dec 0 d).
  - injection He as <-. unfold cleanup.
    destruct (lock_fields "System shutdown" now ok
      (match _auto_lock_timer w with Some timer => cancel timer w | None => w end))
      as (_ & _ & _ & _ & _ & -> & _).
    by destruct (_auto_lock_timer w).
  - unfold fire in He. destruct (timers w !! timer) as [t|]; [|done]. simpl in He.
    destruct (due now t); [|done]. injection He as <-. simpl.
    unfold _auto_lock.
    by destruct (lock_fields "Auto-lock timer" now ok w) as (_ & _ & _ & _ & _ & -> & _).
Qed.

Lemma run_unlock_duration_pos es : forall w w',
  (0 < unlock_duration w)%Q -> run es w = Some w' -> (0 < unlock_duration w')%Q.
Proof.
  induction es as [|[[now ok] e] es IH]; intros w w' Hpos Hrun; simpl in Hrun.
  - by injection Hrun as <-.
  - destruct (handle now ok e w) as [w1|] eqn:He; [|done].
    simpl in Hrun. eapply IH; [|done]. by eapply handle_unlock_duration_pos.
Qed.

Lemma reachable_unlock_duration_pos w : reachable w -> (0 < unlock_duration w)%Q.
Proof.
  intros (sim & es & Hrun). eapply run_unlock_duration_pos; [|exact Hrun].
  by vm_compute.
Qed.

(** C6 fails on the code at the duration 0: on every controller that a
    history of events can produce and that is UNLOCKED, an [unlock(0)]
    that goes through cancels the timer scheduled before, as claimed, but
    starts the fresh timer with the controller's default
    [unlock_duration], which is positive, and not with the 0 it was
    given: that timer cannot fire at the time of the call, and fires
    exactly from [unlock_duration] seconds after the call on.  The
    docstring of [unlock] reserves the default for [None]; line 177,
    [duration or self.unlock_duration], also replaces a 0. *)
Theorem unlock_zero_uses_default_duration w d2 reason now ok :
  reachable w ->
  _state w = UNLOCKED ->
  (d2 == 0)%Q ->
  succeeds w ok = true ->
  let w' := snd (unlock (Some d2) reason now ok w) in
  let fresh := length (timers w) in
  fst (unlock (Some d2) reason now ok w) = true /\
  (forall timer, _auto_lock_timer w = Some timer ->
                 exists rest, trace w' = trace w ++ Cancel timer :: rest) /\
  _auto_lock_timer w' = Some fresh /\
  timers w' !! fresh = Some (mkTimer (unlock_duration w) now false) /\
  timers w' !! fresh <> Some (mkTimer d2 now false) /\
  (0 < unlock_duration w)%Q /\
  (forall ok', fire fresh now ok' w' = None) /\
  (forall t ok', is_Some (fire fresh t ok' w') <-> (now + unlock_duration w <= t)%Q).
Proof.
  intros Hreach Hst Hd Hok w' fresh.
  pose proof (reachable_unlock_duration_pos w Hreach) as Hpos.
  destruct (unlock_fields (Some d2) reason now ok w)
    as (Hret & Hts & Hcur & _).
  fold w' in Hts, Hcur. rewrite Hok in *.
  assert (chosen_duration w (Some d2) = unlock_duration w) as Hdur.
  { unfold chosen_duration, truthy. destruct (Qeq_bool d2 0) eqn:E; [done|].
    apply Qeq_bool_neq in E. done. }
  rewrite Hdur in Hts.
  assert (timers w' !! fresh = Some (mkTimer (unlock_duration w) now false)) as Hfresh.
  { rewrite Hts, lookup_app_r by (by rewrite cancelled_length).
    by rewrite cancelled_length, Nat.sub_diag. }
  assert (forall t ok', is_Some (fire fresh t ok' w')
                        <-> (now + unlock_duration w <= t)%Q) as Hfire.
  { intros t ok'. unfold fire. rewrite Hfresh. simpl. unfold due. simpl.
    destruct (Qle_bool (now + unlock_duration w) t) eqn:E.
    - apply Qle_bool_iff in E. split; [done|]. intros _. by eexists.
    - split; [by intros [? ?]|]. intros H. apply Qle_bool_iff in H. congruence. }
  split; [done|]. split.
  { intros timer. by apply (transition_cancels_first now ok (Unlock (Some d2) reason)). }
  split; [done|]. split; [done|]. split.
  { rewrite Hfresh. intros [= E]. rewrite E in Hpos. rewrite Hd in Hpos.
    by apply Qlt_irrefl in Hpos. }
  split; [done|]. split; [|done].
  intros ok'. destruct (fire fresh now ok' w') as [w2|] eqn:E; [|done].
  assert (now + unlock_duration w <= now)%Q as Hle by (apply (Hfire now ok'); by rewrite E).
  lra.
Qed.

Lemma unlock_zero_uses_default_duration_witness :
  let w := Samples.unlocked_door in
  let w' := snd (unlock (Some 0%Q) "Manual" 12 all_ok w) in
  fst (unlock (Some 0%Q) "Manual" 12 all_ok w) = true /\
  _auto_lock_timer w' = Some 1%nat /\
  timers w' !! 1%nat = Some (mkTimer DOOR_UNLOCK_DURATION 12 false) /\
  timers w' !! 1%nat <> Some (mkTimer 0 12 false) /\
  fire 1 12 all_ok w' = None /\
  fire 1 16 all_ok w' = None /\
  is_Some (fire 1 17 all_ok w').
Proof.
  assert (reachable Samples.unlocked_door) as Hreach.
  { exists true, [(10%Q, all_ok, Unlock None "Manual")]. by vm_compute. }
  destruct (unlock_zero_uses_default_duration Samples.unlocked_door 0%Q "Manual" 12
              all_ok Hreach eq_refl (Qeq_refl 0) eq_refl)
    as (Hret & _ & Hcur & Hfresh & Hne & _ & Hnow & Hfire).
  cbv zeta.
  split; [exact Hret|]. split; [exact Hcur|]. split; [exact Hfresh|].
  split; [exact Hne|]. split; [apply Hnow|].
  split.
  - match goal with |- ?f = None => destruct f as [w2|] eqn:E; [|done] end.
    assert (12 + unlock_duration Samples.unlocked_door <= 16)%Q as Hle
      by (apply (Hfire 16%Q all_ok); exists w2; exact E).
    by vm_compute in Hle.
  - apply (Hfire 17%Q all_ok). by vm_compute.
Defined.

End DoorTimers.

(** ** Emergency lock and the status snapshot *)

Section DoorStatusFacts.

Import Door.

Implicit Types (self w : DoorController) (now : Q) (ok : Calls).

(** When neither the relay call nor the log write raises,
    [emergency_lock] and [lock] leave the same controller behind; only
    what they log and announce differs. *)
Lemma emergency_lock_like_lock_on_success reason now ok w :
  succeeds w ok = true ->
  let a := snd (lock reason now ok w) in
  let b := snd (emergency_lock now ok w) in
  _state a = _state b /\ _state b = LOCKED /\
  _auto_lock_timer a = _auto_lock_timer b /\ _auto_lock_timer b = None /\
  _last_unlock_time a = _last_unlock_time b /\ _last_unlock_time b = None /\
  timers a = timers b /\
  unlock_duration a = unlock_duration b /\ simulation a = simulation b.
Proof.
  intros Hok a b. subst a b.
  destruct (lock_fields reason now ok w) as (_ & -> & -> & -> & -> & -> & ->).
  destruct (emergency_lock_fields now ok w) as (_ & -> & -> & -> & -> & -> & ->).
  rewrite Hok. unfold succeeds in Hok. apply andb_true_iff in Hok as [-> _].
  by repeat split.
Qed.

(** C9 fails on the code where the actuation fails: on the hardware door
    unlocked at time 10, a [lock] whose relay call raises leaves the
    state ERROR, an [emergency_lock] whose relay call raises leaves it
    UNLOCKED, returns False, announces nothing, and no timer is left to
    relock the door. *)
Lemma emergency_lock_keeps_state_on_failure :
  let w := Samples.unlocked_hardware_door in
  _state w = UNLOCKED /\
  lock "Manual" 11 gpio_raises w =
    (false, snd (lock "Manual" 11 gpio_raises w)) /\
  _state (snd (lock "Manual" 11 gpio_raises w)) = ERROR /\
  fst (emergency_lock 11 gpio_raises w) = false /\
  _state (snd (emergency_lock 11 gpio_raises w)) = UNLOCKED /\
  trace (snd (emergency_lock 11 gpio_raises w)) = trace w ++ [Cancel 0] /\
  (forall timer now ok,
      fire timer now ok (snd (emergency_lock 11 gpio_raises w)) = None).
Proof.
  split; [by vm_compute|]. split; [by vm_compute|]. split; [by vm_compute|].
  split; [by vm_compute|]. split; [by vm_compute|]. split; [by vm_compute|].
  intros timer now ok. apply quiet_cannot_fire.
  intros j t.
  destruct (emergency_lock_fields 11 gpio_raises Samples.unlocked_hardware_door)
    as (_ & -> & _).
  apply cancelled_finished, reachable_holds_pending.
  exists false, [(10%Q, all_ok, Unlock None "Manual")]. by vm_compute.
Qed.

(** The same split shows when it is the log write that raises, in
    simulation as well: [lock] ends in ERROR, [emergency_lock] has
    already set LOCKED and returns False without telling the
    observers. *)
Example emergency_lock_after_log_failure :
  let w := Samples.unlocked_door in
  fst (lock "Manual" 11 log_raises w) = false /\
  _state (snd (lock "Manual" 11 log_raises w)) = ERROR /\
  fst (emergency_lock 11 log_raises w) = false /\
  _state (snd (emergency_lock 11 log_raises w)) = LOCKED /\
  trace (snd (emergency_lock 11 log_raises w))
  = trace w ++ [Cancel 0; SetState LOCKED].
Proof.
  split; [by vm_compute|]. split; [by vm_compute|]. split; [by vm_compute|].
  split; by vm_compute.
Qed.

(** [max(0, x)] is never negative. *)
Lemma Qmax_0_nonneg x : (0 <= Qmax 0 x)%Q.
Proof. apply Q.le_max_l. Qed.

(** C10: the countdown of [get_status] is never negative, is 0 unless
    the door is UNLOCKED, and for an unlocked door is the controller's
    default [unlock_duration] minus the time since the last unlock, cut
    off at 0, also right after an [unlock] that was given another
    duration. *)
Theorem time_until_lock_uses_default_duration w now :
  let s := get_status now w in
  (0 <= time_until_lock s)%Q /\
  (_state w <> UNLOCKED -> time_until_lock s = 0%Q) /\
  (forall last,
      _state w = UNLOCKED -> _last_unlock_time w = Some last -> ~ (last == 0)%Q ->
      time_until_lock s = Qmax 0 (unlock_duration w - (now - last))) /\
  (forall d reason t0 ok,
      ~ (t0 == 0)%Q -> succeeds w ok = true ->
      time_until_lock (get_status now (snd (unlock (Some d) reason t0 ok w)))
      = Qmax 0 (unlock_duration w - (now - t0))).
Proof.
  assert (forall w last, _state w = UNLOCKED -> _last_unlock_time w = Some last ->
            ~ (last == 0)%Q ->
            time_until_lock (get_status now w)
            = Qmax 0 (unlock_duration w - (now - last))) as Hunlocked.
  { intros w0 last Hst Hlast Hnz. unfold get_status. simpl. rewrite Hlast, Hst.
    rewrite bool_decide_eq_true_2 by done. unfold truthy.
    destruct (Qeq_bool last 0) eqn:E; [|done].
    apply Qeq_bool_iff in E. done. }
  cbv zeta. split; [|split; [|split]].
  - unfold get_status. simpl. destruct (_last_unlock_time w) as [last|]; [|done].
    destruct (_ && _); [apply Qmax_0_nonneg | done].
  - intros Hst. unfold get_status. simpl.
    destruct (_last_unlock_time w) as [last|]; [|done].
    by rewrite bool_decide_eq_false_2.
  - apply Hunlocked.
  - intros d reason t0 ok Hnz Hok.
    destruct (unlock_fields (Some d) reason t0 ok w)
      as (_ & _ & _ & Hst & Hlast & Hdur & _).
    rewrite Hok in Hst. unfold succeeds in Hok.
    apply andb_true_iff in Hok as [Hrelay _]. rewrite Hrelay in Hlast.
    rewrite (Hunlocked _ t0 Hst Hlast Hnz). by rewrite Hdur.
Qed.

Lemma time_until_lock_uses_default_duration_witness :
  time_until_lock
    (get_status 12 (snd (unlock (Some 60%Q) "Manual" 10 all_ok (initial true))))
  = Qmax 0 (DOOR_UNLOCK_DURATION - (12 - 10)).
Proof.
  apply (time_until_lock_uses_default_duration (initial true) 12).
  - discriminate.
  - reflexivity.
Defined.

(** An unlocked door always has its unlock time recorded. *)
Lemma handle_unlocked_has_time now ok e w w' :
  (_state w = UNLOCKED -> is_Some (_last_unlock_time w)) ->
  handle now ok e w = Some w' ->
  _state w' = UNLOCKED -> is_Some (_last_unlock_time w').
Proof.
  intros Hinv He. destruct e as [d r|r| |d| |timer]; simpl in He.
  - injection He as <-.
    destruct (unlock_fields d r now ok w) as (_ & _ & _ & -> & -> & _).
    unfold succeeds. by destruct (relay_ok w ok), (log_ok ok).
  - injection He as <-.
    destruct (lock_fields r now ok w) as (_ & _ & _ & -> & _).
    by destruct (succeeds w ok).
  - injection He as <-.
    destruct (emergency_lock_fields now ok w) as (_ & _ & _ & -> & -> & _).
    by destruct (relay_ok w ok).
  - injection He as <-. unfold set_unlock_duration.
    by destruct (Qlt_le_dec 0 d).
  - injection He as <-.
    destruct (cleanup_fields now ok w) as (_ & _ & ->).
    by destruct (succeeds w ok).
  - unfold fire in He. destruct (timers w !! timer) as [t|]; [|done]. simpl in He.
    destruct (due now t); [|done]. injection He as <-. simpl. unfold _auto_lock.
    destruct (lock_fields "Auto-lock timer" now ok w) as (_ & _ & _ & -> & _).
    by destruct (succeeds w ok).
Qed.

Lemma reachable_unlocked_has_time w :
  reachable w -> _state w = UNLOCKED -> is_Some (_last_unlock_time w).
Proof.
  intros (sim & es & Hrun). revert Hrun.
  assert (_state (initial sim) = UNLOCKED -> is_Some (_last_unlock_time (initial sim)))
    as Hinit by done.
  revert Hinit. generalize (initial sim). revert w.
  induction es as [|[[now ok] e] es IH]; intros w w0 Hinv Hrun; simpl in Hrun.
  - by injection Hrun as <-.
  - destruct (handle now ok e w0) as [w1|] eqn:He; [|done]. simpl in Hrun.
    eapply IH; [|done]. by eapply handle_unlocked_has_time.
Qed.

End DoorStatusFacts.

(** ** The authentication engine *)

Section AuthDecision.

Import Auth.

Implicit Types (self : AuthenticationEngine) (session : AuthSession).

Lemma grant_access_fields now ok session user self :
  let self' := _grant_access now ok session user self in
  (exists s, _current_session self' = Some s /\ state s = ACCESS_GRANTED /\
             matched_user_id s = Some (id user)) /\
  door_controller self' =
    snd (Door.unlock None ("Authenticated: " +:+ full_name user) now ok
           (door_controller self)) /\
  (exists r, access_log self' = access_log self ++ [r] /\ result r = "SUCCESS").
Proof. simpl. split; [|split]; [by eexists | done | by eexists]. Qed.

Lemma deny_access_fields now ok session reason self :
  let self' := _deny_access now ok session reason self in
  (exists s, _current_session self' = Some s /\ state s = ACCESS_DENIED /\
             failure_reason s = Some reason) /\
  door_controller self' =
    snd (Door.lock "Access denied" now ok (door_controller self)) /\
  (exists r, access_log self' = access_log self ++ [r] /\ result r = "DENIED" /\
             log_failure_reason r = Some reason).
Proof. simpl. split; [|split]; [by eexists | done | by eexists]. Qed.

(** C1: in state FACE_MATCHED the engine ends in ACCESS_GRANTED, having
    called [DoorController.unlock], if and only if the fingerprint status
    is MATCHED, the two user ids are equal and the account that is looked
    up is active; every other verdict of a scan (MATCHED, NOT_MATCHED,
    SENSOR_ERROR) ends in ACCESS_DENIED with a call of [lock]; the
    remaining statuses leave the engine as it is. *)
Theorem access_granted_iff now ok users fp_result session self :
  _current_session self = Some session ->
  state session = FACE_MATCHED ->
  let self' := _process_fingerprint_verification now ok users fp_result session self in
  ((exists s, _current_session self' = Some s /\ state s = ACCESS_GRANTED)
     <-> grant_condition users session fp_result) /\
  (grant_condition users session fp_result ->
     exists user,
       get_by_id users (face_user_id session) = Some user /\
       door_controller self' =
         snd (Door.unlock None ("Authenticated: " +:+ full_name user) now ok
                (door_controller self))) /\
  (scan_completed (Fingerprint.status fp_result) ->
   ~ grant_condition users session fp_result ->
     (exists s, _current_session self' = Some s /\ state s = ACCESS_DENIED) /\
     door_controller self' =
       snd (Door.lock "Access denied" now ok (door_controller self))) /\
  (~ scan_completed (Fingerprint.status fp_result) -> self' = self).
Proof.
  intros Hcur Hst. unfold grant_condition, scan_completed.
  unfold _process_fingerprint_verification.
  destruct (Fingerprint.status fp_result) eqn:Hfp; cbv zeta.
  1-3, 7-9:
    (split; [split; [intros (s & Hs & Hg); rewrite Hcur in Hs;
                     injection Hs as <-; congruence
                    | by intros (? & _)]|];
     split; [by intros (? & _)|];
     split; [by intros [?|[?|?]]|done]).
  - (* MATCHED *)
    cbn [face_user_id fingerprint_user_id].
    case_bool_decide as Hid.
    + destruct (get_by_id users (face_user_id session)) as [user|] eqn:Hu.
      * destruct (is_active user) eqn:Hact.
        -- split; [split; [intros _; eauto 6 | intros _; by eexists]|].
           split; [intros _; by exists user|].
           split; [intros _ Hn; destruct Hn; eauto 6 | intros Hn; destruct Hn; auto].
        -- split; [split; [by intros (s & [= <-] & ?)
                          | intros (_ & _ & u & [= <-] & ?); congruence]|].
           split; [intros (_ & _ & u & [= <-] & ?); congruence|].
           split; [intros _ _; split; [by eexists | done]
                  | intros Hn; destruct Hn; auto].
      * split; [split; [by intros (s & [= <-] & ?)
                       | by intros (_ & _ & u & ? & ?)]|].
        split; [by intros (_ & _ & u & ? & ?)|].
        split; [intros _ _; split; [by eexists | done]
               | intros Hn; destruct Hn; auto].
    + split; [split; [by intros (s & [= <-] & ?) | by intros (_ & ? & _)]|].
      split; [by intros (_ & ? & _)|].
      split; [intros _ _; split; [by eexists | done]
             | intros Hn; destruct Hn; auto].
  - (* NOT_MATCHED *)
    split; [split; [by intros (s & [= <-] & ?) | by intros (? & _)]|].
    split; [by intros (? & _)|].
    split; [intros _ _; split; [by eexists | done]
           | intros Hn; destruct Hn; auto].
  - (* SENSOR_ERROR *)
    split; [split; [by intros (s & [= <-] & ?) | by intros (? & _)]|].
    split; [by intros (? & _)|].
    split; [intros _ _; split; [by eexists | done]
           | intros Hn; destruct Hn; auto].
Qed.

Lemma access_granted_iff_witness :
  let session := Samples.face_matched_session in
  let fp_result := Samples.finger_of 1 "Ada Byron" in
  let self := Samples.waiting_engine in
  let self' :=
    _process_fingerprint_verification 105 Door.all_ok Samples.users fp_result session self in
  ((exists s, _current_session self' = Some s /\ state s = ACCESS_GRANTED)
     <-> grant_condition Samples.users session fp_result) /\
  (grant_condition Samples.users session fp_result ->
     exists user,
       get_by_id Samples.users (face_user_id session) = Some user /\
       door_controller self' =
         snd (Door.unlock None ("Authenticated: " +:+ full_name user) 105 Door.all_ok
                (door_controller self))) /\
  (scan_completed (Fingerprint.status fp_result) ->
   ~ grant_condition Samples.users session fp_result ->
     (exists s, _current_session self' = Some s /\ state s = ACCESS_DENIED) /\
     door_controller self' =
       snd (Door.lock "Access denied" 105 Door.all_ok (door_controller self))) /\
  (~ scan_completed (Fingerprint.status fp_result) -> self' = self).
Proof.
  apply (access_granted_iff 105 Door.all_ok Samples.users (Samples.finger_of 1 "Ada Byron")
           Samples.face_matched_session Samples.waiting_engine).
  - reflexivity.
  - reflexivity.
Defined.

(** The scenarios of the specification: the same user on both factors is
    let in and the door is unlocked; another user's finger is turned
    away. *)
Example same_user_is_granted :
  let self' :=
    _process_fingerprint_verification 105 Door.all_ok Samples.users
      (Samples.finger_of 1 "Ada Byron") Samples.face_matched_session
      Samples.waiting_engine in
  (state <$> _current_session self') = Some ACCESS_GRANTED /\
  Door._state (door_controller self') = Door.UNLOCKED.
Proof. by vm_compute. Qed.

Example other_user_is_denied :
  let self' :=
    _process_fingerprint_verification 105 Door.all_ok Samples.users
      (Samples.finger_of 2 "Bob Ross") Samples.face_matched_session
      Samples.waiting_engine in
  (state <$> _current_session self') = Some ACCESS_DENIED /\
  (_current_session self' ≫= failure_reason)
    = Some "Face and fingerprint belong to different users" /\
  Door._state (door_controller self') = Door.LOCKED.
Proof. by vm_compute. Qed.

(** C7: a session that is neither IDLE nor ACCESS_GRANTED nor
    ACCESS_DENIED and is older than the timeout (30 seconds by default)
    is moved to TIMEOUT by the next iteration of the loop, which hands it
    to the observers in that state, appends one access-log row with result
    FAILED and does not touch the door controller, so a locked door stays
    locked; after its two seconds of dwell the iteration installs a fresh
    IDLE session. *)
Theorem timeout_fails_session_and_keeps_door now ok users face_result fp_result
    session self :
  _current_session self = Some session ->
  state session <> IDLE ->
  state session <> ACCESS_GRANTED ->
  state session <> ACCESS_DENIED ->
  (auth_timeout self < now - start_time session)%Q ->
  let self' := _auth_loop now ok users face_result fp_result self in
  exists timed_out record,
    state timed_out = TIMEOUT /\
    failure_reason timed_out = Some "Authentication timeout" /\
    face_user_id timed_out = face_user_id session /\
    state_notified self' =
      state_notified self ++ [timed_out; new_session (now + 2)] /\
    result_notified self' = result_notified self ++ [timed_out] /\
    access_log self' = access_log self ++ [record] /\
    result record = "FAILED" /\
    log_user_id record = face_user_id session /\
    door_controller self' = door_controller self /\
    (Door.is_locked (door_controller self) = true ->
     Door.is_locked (door_controller self') = true) /\
    _current_session self' = Some (new_session (now + 2)) /\
    (AUTH_TIMEOUT == 30)%Q.
Proof.
  intros Hcur H1 H2 H3 Hlate. unfold _auth_loop. rewrite Hcur.
  cbv beta iota zeta. rewrite Hcur. cbn [default from_option].
  unfold Datatypes.id.
  assert (terminal_or_idle (state session) = false) as ->.
  { unfold terminal_or_idle. by rewrite !bool_decide_eq_false_2. }
  cbn [negb]. destruct (Qlt_le_dec _ _) as [_|Hle]; [|lra].
  exists (mkSession TIMEOUT (Auth.face_result session) (fingerprint_result session)
            (face_user_id session) (fingerprint_user_id session)
            (matched_user_id session) (matched_user_name session)
            (start_time session) (Some now) (Some "Authentication timeout")
            (confidence session)),
         (mkAccessRecord (face_user_id session) "ENTRY" "FAILED"
            (bool_decide (is_Some (Auth.face_result session))) false
            (Some "Timeout") None).
  unfold _handle_timeout, _reset_session. simpl.
  rewrite <- !app_assoc. simpl.
  repeat (split; [reflexivity|]). split; [done|]. split; reflexivity.
Qed.

Lemma timeout_fails_session_and_keeps_door_witness :
  let self' :=
    _auth_loop 131 Door.all_ok Samples.users (Face.result_of Face.NO_FACE)
      (Fingerprint.result_of Fingerprint.TIMEOUT "Fingerprint capture timed out")
      Samples.waiting_engine in
  exists timed_out record,
    state timed_out = TIMEOUT /\
    failure_reason timed_out = Some "Authentication timeout" /\
    face_user_id timed_out = face_user_id Samples.face_matched_session /\
    state_notified self' =
      state_notified Samples.waiting_engine ++ [timed_out; new_session (131 + 2)] /\
    result_notified self' = result_notified Samples.waiting_engine ++ [timed_out] /\
    access_log self' = access_log Samples.waiting_engine ++ [record] /\
    result record = "FAILED" /\
    log_user_id record = face_user_id Samples.face_matched_session /\
    door_controller self' = door_controller Samples.waiting_engine /\
    (Door.is_locked (door_controller Samples.waiting_engine) = true ->
     Door.is_locked (door_controller self') = true) /\
    _current_session self' = Some (new_session (131 + 2)) /\
    (AUTH_TIMEOUT == 30)%Q.
Proof.
  apply (timeout_fails_session_and_keeps_door 131 Door.all_ok Samples.users
           (Face.result_of Face.NO_FACE)
           (Fingerprint.result_of Fingerprint.TIMEOUT "Fingerprint capture timed out")
           Samples.face_matched_session Samples.waiting_engine).
  - reflexivity.
  - discriminate.
  - discriminate.
  - discriminate.
  - reflexivity.
Defined.

(** C8: in IDLE, a frame whose face is matched to a user whose account
    is not active (or is gone) changes nothing: the whole iteration of the
    loop returns the engine as it was, with the same session, no
    notification and no row in the access log. *)
Theorem inactive_face_match_is_ignored now ok users face_result fp_result
    session self :
  _current_session self = Some session ->
  state session = IDLE ->
  Face.status face_result = Face.FACE_MATCHED ->
  (forall user, get_by_id users (Face.user_id face_result) = Some user ->
                is_active user = false) ->
  _process_idle_state now users face_result session self = self /\
  _auth_loop now ok users face_result fp_result self = self.
Proof.
  intros Hcur Hst Hface Hinactive.
  assert (_process_idle_state now users face_result session self = self) as Hidle.
  { unfold _process_idle_state. rewrite Hface, bool_decide_eq_true_2 by done.
    destruct (get_by_id users (Face.user_id face_result)) as [user|] eqn:Hu; [|done].
    by rewrite (Hinactive user eq_refl). }
  split; [done|].
  unfold _auth_loop. rewrite Hcur. cbv beta iota zeta. rewrite Hcur.
  cbn [default from_option]. unfold Datatypes.id. rewrite Hst.
  change (negb (terminal_or_idle IDLE)) with false. cbv iota.
  unfold state_machine. rewrite Hst. exact Hidle.
Qed.

Lemma inactive_face_match_is_ignored_witness :
  _process_idle_state 50 Samples.users (Samples.face_of 2 "Bob Ross")
    (new_session 0) Samples.idle_engine = Samples.idle_engine /\
  _auth_loop 50 Door.all_ok Samples.users (Samples.face_of 2 "Bob Ross")
    (Samples.finger_of 2 "Bob Ross") Samples.idle_engine = Samples.idle_engine.
Proof.
  apply (inactive_face_match_is_ignored 50 Door.all_ok Samples.users
           (Samples.face_of 2 "Bob Ross") (Samples.finger_of 2 "Bob Ross")
           (new_session 0) Samples.idle_engine).
  - reflexivity.
  - reflexivity.
  - reflexivity.
  - intros user Hu. vm_compute in Hu. by injection Hu as <-.
Defined.

(** An active account does open a session at the time of the frame. *)
Example active_face_match_opens_session :
  let self' :=
    _auth_loop 50 Door.all_ok Samples.users (Samples.face_of 1 "Ada Byron")
      (Samples.finger_of 1 "Ada Byron") Samples.idle_engine in
  (state <$> _current_session self') = Some FACE_MATCHED /\
  (face_user_id <$> _current_session self') = Some (Some 1) /\
  (start_time <$> _current_session self') = Some 50%Q.
Proof. by vm_compute. Qed.

End AuthDecision.

(** ** More on the fingerprint sensor *)

Section FingerprintMore.

Import Fingerprint FingerprintOps.

Implicit Types (self : FingerprintSensor) (st : SensorState) (port : Port).

Lemma hardware_search_never_matches_witness :
  status (result_of SENSOR_ERROR ("Search error code: " +:+ pretty 0)) <> MATCHED.
Proof.
  apply (hardware_search_never_matches Samples.sensor ∅ 1 0 Samples.port _
           (mkPort (tx Samples.port_after_capture ++
                      [HEADER ++ ADDRESS
                         ++ (low_byte <$> [0x01; 0x00; 0x08; 0x04; 0x01; 0x00; 0x00;
                                           0x00; 0xA3; 0x00; 0xB1])]) [])).
  - by repeat split.
  - by vm_compute.
Defined.

(** The shape of a built packet. *)
Lemma checksum_covers_package_identifier_parts command data :
  0 <= command < 256 ->
  exists c hi lo,
    build_packet command data =
      Some (HEADER ++ ADDRESS ++ [PACKAGE_IDENTIFIER]
              ++ length_field (c :: data) ++ c :: data ++ [hi; lo]).
Proof.
  intros Hc. destruct (byte_of_int_Some command Hc) as (c & Ec & _).
  eexists c, _, _. unfold build_packet. rewrite (packet_body_eq _ _ _ Ec). reflexivity.
Qed.

(** X2: whatever the sensor and the line do, [search_fingerprint] ends
    in one of five statuses: SENSOR_DISCONNECTED, SENSOR_ERROR, TIMEOUT,
    MATCHED or NOT_MATCHED.  It never returns NO_FINGER, CAPTURED, WAITING
    or SCANNING. *)
Theorem search_result_statuses self repo polls rnd port res port' :
  search_fingerprint self repo polls rnd port = Some (res, port') ->
  status res = SENSOR_DISCONNECTED \/ status res = SENSOR_ERROR \/
  status res = TIMEOUT \/ status res = MATCHED \/ status res = NOT_MATCHED.
Proof.
  unfold search_fingerprint.
  destruct (_connected self) eqn:Hconn; simpl; [|intros [= <- _]; auto].
  destruct (capture_fingerprint self polls port) as [[r p]|] eqn:Hcap; [|done].
  simpl. case_bool_decide as Hst; simpl.
  - destruct (simulation self).
    + destruct (_sim_fingerprints self) as [|[fp_id u] rest]; [intros [= <- _]; auto|].
      destruct (Qlt_le_dec rnd 0.8); [|intros [= <- _]; auto].
      destruct (repo !! fp_id) as [row|]; [|intros [= <- _]; auto].
      destruct (is_active row); intros [= <- _]; auto.
    + destruct (_send_command self p CMD_SEARCH SEARCH_ARGS) as [[[code data] p2]|];
        [|done].
      simpl. intros [= <- _]. unfold decode_search.
      destruct (bool_decide (code = 0)); [destruct data as [|d0 [|d1 [|d2 [|d3 rest]]]]|];
        try (case_bool_decide; simpl; auto).
      destruct (repo !! be16 d0 d1) as [row|]; [destruct (is_active row)|]; simpl; auto.
  - intros [= <- _]. revert Hst Hcap. unfold capture_fingerprint. rewrite Hconn. simpl.
    destruct (simulation self); [by intros ? [= <- _]|].
    intros Hst. revert port. induction polls as [|polls IH]; intros port; simpl.
    + intros [= <- _]. auto.
    + destruct (_send_command self port CMD_GET_IMAGE []) as [[[c d] q]|]; [|done].
      simpl. case_bool_decide.
      * destruct (_send_command self q CMD_GEN_CHAR [low_byte 1]) as [[[c2 d2] q2]|];
          [|done].
        simpl. case_bool_decide; intros [= <- _]; simpl in *; auto; done.
      * case_bool_decide; [apply IH | intros [= <- _]; auto].
Qed.

Lemma search_result_statuses_witness :
  let res := result_of SENSOR_ERROR ("Search error code: " +:+ pretty 0) in
  status res = SENSOR_DISCONNECTED \/ status res = SENSOR_ERROR \/
  status res = TIMEOUT \/ status res = MATCHED \/ status res = NOT_MATCHED.
Proof.
  apply (search_result_statuses Samples.sensor ∅ 1 0 Samples.port _
           (mkPort (tx Samples.port_after_capture ++
                      [HEADER ++ ADDRESS
                         ++ (low_byte <$> [0x01; 0x00; 0x08; 0x04; 0x01; 0x00; 0x00;
                                           0x00; 0xA3; 0x00; 0xB1])]) [])).
  by vm_compute.
Defined.

(** A sensor that is not connected is never talked to: capture and
    search answer SENSOR_DISCONNECTED, enrolment answers "Sensor not
    connected", deletion still removes the mapping, and none of them
    writes to or reads from the serial line. *)
Theorem disconnected_sensor_does_no_io st repo polls polls2 rnd port user uid
    position callback fingerprints slot :
  _connected (sensor st) = false ->
  (exists r, capture_fingerprint (sensor st) polls port = Some (r, port) /\
             status r = SENSOR_DISCONNECTED) /\
  (exists r, search_fingerprint (sensor st) repo polls rnd port = Some (r, port) /\
             status r = SENSOR_DISCONNECTED /\ user_id r = None) /\
  (exists run,
      enroll_fingerprint (Some user) uid position callback polls polls2
        fingerprints st port = Some run /\
      outcome run = Returned false "Sensor not connected" (-1) /\
      port_after run = port /\ state_after run = st /\ repo_calls run = []) /\
  (exists st' calls,
      delete_fingerprint (Some slot) uid st port = Some (true, st', port, calls) /\
      DeleteFingerprint uid ∈ calls).
Proof.
  intros Hconn. split; [|split; [|split]].
  - unfold capture_fingerprint. rewrite Hconn. by eexists.
  - unfold search_fingerprint. rewrite Hconn. by eexists.
  - unfold enroll_fingerprint. rewrite Hconn. by eexists.
  - unfold delete_fingerprint. rewrite Hconn, andb_false_r. simpl.
    eexists _, _. split; [reflexivity|]. by constructor.
Qed.

Lemma disconnected_sensor_does_no_io_witness :
  exists r,
    search_fingerprint MoreSamples.offline_sensor ∅ 3 0 (MoreSamples.acks 3)
    = Some (r, MoreSamples.acks 3) /\
    status r = SENSOR_DISCONNECTED /\ user_id r = None.
Proof.
  apply (disconnected_sensor_does_no_io (mkState MoreSamples.offline_sensor 1) ∅ 3 3 0
           (MoreSamples.acks 3) MoreSamples.ada 1 "right_index" true [] 5).
  reflexivity.
Defined.

(** X3: in simulation mode an identification never touches the serial
    line, and it answers MATCHED exactly when a fingerprint is registered,
    the random draw is below 0.8 and the first registered slot belongs to
    an active user of the repository; the match is then always that first
    slot's user, with confidence 0.95.  Otherwise it answers
    NOT_MATCHED. *)
Theorem simulation_search_matches_first_slot self repo polls rnd port :
  simulation self = true -> _connected self = true ->
  exists r,
    search_fingerprint self repo polls rnd port = Some (r, port) /\
    (status r = MATCHED \/ status r = NOT_MATCHED) /\
    (status r = MATCHED <->
     exists fp_id u rest row,
       _sim_fingerprints self = (fp_id, u) :: rest /\ (rnd < 0.8)%Q /\
       repo !! fp_id = Some row /\ is_active row = true /\
       user_id r = Some (row_user_id row) /\ fingerprint_id r = Some fp_id /\
       confidence r = 0.95%Q).
Proof.
  intros Hsim Hconn. unfold search_fingerprint, capture_fingerprint.
  rewrite Hconn, Hsim. simpl.
  destruct (_sim_fingerprints self) as [|[fp_id u] rest].
  { eexists. split; [reflexivity|]. split; [by right|].
    split; [done | by intros (? & ? & ? & ? & ? & _)]. }
  destruct (Qlt_le_dec rnd 0.8) as [Hlt|Hge].
  2: { eexists. split; [reflexivity|]. split; [by right|].
       split; [done|]. intros (? & ? & ? & ? & _ & Hlt & _). lra. }
  destruct (repo !! fp_id) as [row|] eqn:Hrow.
  2: { eexists. split; [reflexivity|]. split; [by right|].
       split; [done|]. intros (? & ? & ? & ? & [= <- _ _] & _ & Hr & _). congruence. }
  destruct (is_active row) eqn:Hact.
  - eexists. split; [reflexivity|]. split; [by left|].
    split; [|done]. intros _. by exists fp_id, u, rest, row.
  - eexists. split; [reflexivity|]. split; [by right|].
    split; [done|]. intros (? & ? & ? & ? & [= <- _ _] & _ & Hr & Ha & _). congruence.
Qed.

Lemma simulation_search_matches_first_slot_witness :
  exists r,
    search_fingerprint (sensor MoreSamples.sim_state) MoreSamples.rows 1 0.5
      (MoreSamples.acks 0)
    = Some (r, MoreSamples.acks 0) /\
    (status r = MATCHED \/ status r = NOT_MATCHED) /\
    (status r = MATCHED <->
     exists fp_id u rest row,
       _sim_fingerprints (sensor MoreSamples.sim_state) = (fp_id, u) :: rest /\
       (0.5 < 0.8)%Q /\
       MoreSamples.rows !! fp_id = Some row /\ is_active row = true /\
       user_id r = Some (row_user_id row) /\ fingerprint_id r = Some fp_id /\
       confidence r = 0.95%Q).
Proof.
  apply (simulation_search_matches_first_slot (sensor MoreSamples.sim_state)
           MoreSamples.rows 1 0.5 (MoreSamples.acks 0)).
  - reflexivity.
  - reflexivity.
Defined.

(** X4: [_send_command] can build a packet exactly for command bytes in
    0..255; the packet is then twelve bytes longer than the data, starts
    with the header EF 01 and the address FF FF FF FF, and its length
    field reads back as the payload length plus two whenever that fits 16
    bits. *)
Theorem packet_framing command data :
  (build_packet command data = None <-> ~ (0 <= command < 256)) /\
  (forall packet,
      build_packet command data = Some packet ->
      length packet = (length data + 12)%nat /\
      take 6 packet = HEADER ++ ADDRESS /\
      (Z.of_nat (length data) + 3 < 65536 ->
       exists l1 l0, packet !! 7%nat = Some l1 /\ packet !! 8%nat = Some l0 /\
                     be16 l1 l0 = Z.of_nat (length data) + 3)).
Proof.
  destruct (decide (0 <= command < 256)) as [Hc|Hc].
  - destruct (checksum_covers_package_identifier_parts command data Hc)
      as (c & hi & lo & Hp).
    rewrite Hp. split; [split; [done | tauto]|].
    intros packet [= <-]. split; [|split].
    + simpl. rewrite length_app. simpl. lia.
    + reflexivity.
    + intros Hlen. eexists _, _. split; [reflexivity|]. split; [reflexivity|].
      rewrite be16_split; simpl length; lia.
  - unfold build_packet, packet_body, byte_of_int.
    rewrite bool_decide_eq_false_2 by done. simpl. split; [done|]. done.
Qed.

Lemma packet_framing_witness :
  length (HEADER ++ ADDRESS
            ++ (low_byte <$> [0x01; 0x00; 0x03; 0x01; 0x00; 0x05])) = (0 + 12)%nat /\
  take 6 (HEADER ++ ADDRESS ++ (low_byte <$> [0x01; 0x00; 0x03; 0x01; 0x00; 0x05]))
  = HEADER ++ ADDRESS /\
  (Z.of_nat 0 + 3 < 65536 ->
   exists l1 l0,
     (HEADER ++ ADDRESS ++ (low_byte <$> [0x01; 0x00; 0x03; 0x01; 0x00; 0x05]))
       !! 7%nat = Some l1 /\
     (HEADER ++ ADDRESS ++ (low_byte <$> [0x01; 0x00; 0x03; 0x01; 0x00; 0x05]))
       !! 8%nat = Some l0 /\
     be16 l1 l0 = Z.of_nat 0 + 3).
Proof.
  apply (packet_framing CMD_GET_IMAGE []). reflexivity.
Defined.

(** A linear search over a range of integers stops at the first hit. *)
Lemma find_seqZ (free : Z -> bool) (n : nat) : forall m,
  match List.find free (seqZ m (Z.of_nat n)) with
  | Some i => m <= i < m + Z.of_nat n /\ free i = true /\
              forall j, m <= j < i -> free j = false
  | None => forall j, m <= j < m + Z.of_nat n -> free j = false
  end.
Proof.
  induction n as [|n IH]; intros m.
  - simpl. intros j. lia.
  - rewrite seqZ_cons by lia. simpl.
    replace (Z.pred (Z.of_nat (S n))) with (Z.of_nat n) by lia.
    destruct (free m) eqn:Hm.
    + split; [lia|]. split; [done|]. intros j. lia.
    + specialize (IH (Z.succ m)). destruct (List.find free _) as [i|].
      * destruct IH as (Hi & Hf & Hlt). split; [lia|]. split; [done|].
        intros j Hj. destruct (decide (j = m)) as [->|Hne]; [done|]. apply Hlt. lia.
      * intros j Hj. destruct (decide (j = m)) as [->|Hne]; [done|]. apply IH. lia.
Qed.

Lemma find_least fingerprints i :
  _get_next_fingerprint_id fingerprints = Some i ->
  forall j, 1 <= j < i -> j ∈ fingerprints.
Proof.
  unfold _get_next_fingerprint_id. destruct fingerprints as [|f fs].
  { intros [= <-] j. lia. }
  set (fps := f :: fs).
  set (free := fun i : Z => bool_decide (i ∉ (list_to_set fps : gset Z))).
  pose proof (find_seqZ free 162 1) as Hfind.
  change (Z.of_nat 162) with 162 in Hfind.
  destruct (List.find free (seqZ 1 162)) as [i'|]; [|done].
  intros [= <-] j Hj. destruct Hfind as (_ & _ & Hlt).
  specialize (Hlt j Hj). unfold free in Hlt.
  apply bool_decide_eq_false_1, dec_stable in Hlt.
  by apply elem_of_list_to_set in Hlt.
Qed.

(** X5: [_get_next_fingerprint_id] returns the smallest slot of 1..162
    that no listed fingerprint uses, and raises exactly when the list is
    not empty and uses all of 1..162. *)
Theorem next_fingerprint_id_is_least_free fingerprints :
  (forall i,
      _get_next_fingerprint_id fingerprints = Some i ->
      1 <= i <= 162 /\ (i ∉ fingerprints) /\
      forall j, 1 <= j < i -> j ∈ fingerprints) /\
  (_get_next_fingerprint_id fingerprints = None <->
   fingerprints <> [] /\ forall j, 1 <= j <= 162 -> j ∈ fingerprints).
Proof.
  unfold _get_next_fingerprint_id. destruct fingerprints as [|f fs].
  { split.
    - intros i [= <-]. split; [lia|]. split; [apply not_elem_of_nil | intros j; lia].
    - split; [done | by intros [? _]]. }
  set (fps := f :: fs).
  set (free := fun i : Z => bool_decide (i ∉ (list_to_set fps : gset Z))).
  assert (forall j, free j = true <-> j ∉ fps) as Hfree.
  { intros j. unfold free. rewrite bool_decide_eq_true.
    by rewrite elem_of_list_to_set. }
  assert (forall j, free j = false <-> j ∈ fps) as Hused.
  { intros j. unfold free. rewrite bool_decide_eq_false.
    rewrite elem_of_list_to_set. split; [apply dec_stable | auto]. }
  pose proof (find_seqZ free 162 1) as Hfind.
  change (Z.of_nat 162) with 162 in Hfind.
  destruct (List.find free (seqZ 1 162)) as [i|].
  - destruct Hfind as (Hi & Hf & Hlt). split.
    + intros i' [= <-]. split; [lia|]. split; [by apply Hfree|].
      intros j Hj. apply Hused, Hlt. lia.
    + split; [done|]. intros [_ Hall]. apply Hfree in Hf. destruct Hf.
      apply Hall. lia.
  - split; [done|]. split; [|done]. intros _. split; [done|].
    intros j Hj. apply Hused, Hfind. lia.
Qed.

Lemma next_fingerprint_id_is_least_free_none fingerprints :
  fingerprints <> [] -> (forall j, 1 <= j <= 162 -> j ∈ fingerprints) ->
  _get_next_fingerprint_id fingerprints = None.
Proof.
  intros Hne Hfull. unfold _get_next_fingerprint_id.
  destruct fingerprints as [|f fs]; [done|].
  set (fps := f :: fs) in *.
  set (free := fun i : Z => bool_decide (i ∉ (list_to_set fps : gset Z))).
  pose proof (find_seqZ free 162 1) as Hfind.
  change (Z.of_nat 162) with 162 in Hfind.
  destruct (List.find free (seqZ 1 162)) as [i|]; [|done].
  destruct Hfind as (Hi & Hf & _). unfold free in Hf.
  apply bool_decide_eq_true_1 in Hf. destruct Hf.
  apply elem_of_list_to_set, Hfull. lia.
Qed.

Lemma next_fingerprint_id_is_least_free_witness :
  1 <= 3 <= 162 /\ (3 ∉ [1; 2; 4]) /\ forall j, 1 <= j < 3 -> j ∈ [1; 2; 4].
Proof.
  apply (next_fingerprint_id_is_least_free [1; 2; 4]). by vm_compute.
Defined.

(** X6: the decoder of the search answer reports MATCHED only for
    confirmation code 0 with at least four payload bytes whose slot is in
    the repository with an active user; the result then carries that
    user, the slot, and the score divided by 200, which lies between 0 and
    327.675 and so may exceed 1.  A slot of a disabled or unknown user is
    reported as NOT_MATCHED. *)
Theorem decode_search_matched_only_active repo code data :
  let r := decode_search repo code data in
  (status r = MATCHED <->
   code = 0 /\
   exists d0 d1 d2 d3 rest row,
     data = d0 :: d1 :: d2 :: d3 :: rest /\
     repo !! be16 d0 d1 = Some row /\ is_active row = true /\
     user_id r = Some (row_user_id row) /\
     fingerprint_id r = Some (be16 d0 d1) /\
     confidence r = (inject_Z (be16 d2 d3) / 200)%Q /\
     (0 <= confidence r <= 327.675)%Q) /\
  (forall s row,
      fingerprint_id r = Some s -> repo !! s = Some row -> is_active row = false ->
      status r = NOT_MATCHED /\ user_id r = None) /\
  (forall s, fingerprint_id r = Some s -> repo !! s = None ->
             status r = NOT_MATCHED /\ user_id r = None).
Proof.
  cbv zeta. unfold decode_search.
  case_bool_decide as Hc.
  2: { case_bool_decide; simpl; (split; [split; [done | by intros [? _]] | by split]). }
  destruct data as [|d0 [|d1 [|d2 [|d3 rest]]]];
    try (case_bool_decide; simpl;
         (split; [split; [done | by intros (_ & ? & ? & ? & ? & ? & ? & ? & _)]
                 | by split])).
  destruct (repo !! be16 d0 d1) as [row|] eqn:Hrow.
  - destruct (is_active row) eqn:Hact; simpl.
    + split; [|split].
      * split; [|done]. intros _. split; [done|].
        exists d0, d1, d2, d3, rest, row. repeat (split; [done|]).
        pose proof (be16_range d2 d3) as [Hlo Hhi].
        unfold Qle, Qdiv, Qmult, Qinv, inject_Z. simpl. lia.
      * intros s row' [= <-] Hr Ha. congruence.
      * intros s [= <-] Hr. congruence.
    + split; [|split].
      * split; [done|].
        intros (_ & ? & ? & ? & ? & ? & r' & [= <- <- _ _ _] & Hr & Ha & _).
        congruence.
      * by intros s row' [= <-] Hr Ha.
      * by intros s [= <-] Hr.
  - simpl. split; [|split].
    + split; [done|].
      intros (_ & ? & ? & ? & ? & ? & r' & [= <- <- _ _ _] & Hr & _). congruence.
    + by intros s row' [= <-] Hr Ha.
    + by intros s [= <-] Hr.
Qed.

Lemma decode_search_matched_only_active_witness :
  status (decode_search MoreSamples.rows 0 (low_byte <$> [0x00; 0x02; 0x00; 0x64]))
  = NOT_MATCHED /\
  user_id (decode_search MoreSamples.rows 0 (low_byte <$> [0x00; 0x02; 0x00; 0x64]))
  = None.
Proof.
  destruct (decode_search_matched_only_active MoreSamples.rows 0
              (low_byte <$> [0x00; 0x02; 0x00; 0x64])) as (_ & Hdisabled & _).
  apply (Hdisabled 2 (mkFingerprintRow 2 "Bob" "Ross" "E002" false)).
  - by vm_compute.
  - by vm_compute.
  - reflexivity.
Defined.

(** *** Simulated slots *)

Lemma dict_set_elem k v d : (k, v) ∈ dict_set k v d.
Proof.
  induction d as [|[k' v'] d IH]; simpl; [by constructor|].
  case_bool_decide; [by constructor | by constructor].
Qed.

Lemma dict_set_keys k v d j :
  j ∈ dict_keys (dict_set k v d) <-> j = k \/ j ∈ dict_keys d.
Proof.
  unfold dict_keys. induction d as [|[k' v'] d IH]; simpl.
  - rewrite list_elem_of_singleton, elem_of_nil. tauto.
  - case_bool_decide as Hk; simpl; rewrite !elem_of_cons.
    + subst k'. tauto.
    + rewrite IH. tauto.
Qed.

Lemma load_keys_below fps : forall st,
  keys_below st ->
  keys_below (_load_simulation_data (Some fps) st) /\
  _sim_next_id st <= _sim_next_id (_load_simulation_data (Some fps) st) /\
  (forall k, k ∈ dict_keys (_sim_fingerprints (sensor st)) \/ k ∈ fps.*1 ->
             k ∈ dict_keys (_sim_fingerprints
                              (sensor (_load_simulation_data (Some fps) st)))) /\
  simulation (sensor (_load_simulation_data (Some fps) st)) = simulation (sensor st).
Proof.
  induction fps as [|[fid uid] fps IH]; intros st Hkb; simpl.
  - split; [done|]. split; [lia|]. split; [|done]. intros k [?|Hk]; [done|].
    by apply elem_of_nil in Hk.
  - set (st1 := mkState
                  (with_sim_fingerprints
                     (dict_set fid uid (_sim_fingerprints (sensor st))) (sensor st))
                  (Z.max (_sim_next_id st) (fid + 1))).
    assert (keys_below st1) as Hkb1.
    { intros k Hk. simpl in *. apply dict_set_keys in Hk as [->|Hk]; [lia|].
      specialize (Hkb k Hk). lia. }
    destruct (IH st1 Hkb1) as (H1 & H2 & H3 & H4).
    split; [done|]. split; [simpl in *; lia|]. split; [|done].
    intros k Hk. apply H3. simpl. rewrite dict_set_keys.
    rewrite elem_of_cons in Hk. simpl in Hk. tauto.
Qed.

(** X7: switching the simulation on marks the sensor connected, loads
    every slot of the repository list into the simulated map and lifts the
    id counter above all of them; switching it off disconnects and drops
    the serial port.  A repository failure leaves the map as it was. *)
Theorem set_simulation_prepares_fresh_ids fingerprints st :
  keys_below st ->
  let on := set_simulation true fingerprints st in
  let off := set_simulation false fingerprints st in
  simulation (sensor on) = true /\ _connected (sensor on) = true /\
  keys_below on /\ _sim_next_id st <= _sim_next_id on /\
  (forall fps k, fingerprints = Some fps -> k ∈ fps.*1 ->
                 k ∈ dict_keys (_sim_fingerprints (sensor on)) /\ k < _sim_next_id on) /\
  (fingerprints = None ->
   _sim_fingerprints (sensor on) = _sim_fingerprints (sensor st) /\
   _sim_next_id on = _sim_next_id st) /\
  simulation (sensor off) = false /\ _connected (sensor off) = false /\
  _serial (sensor off) = None /\
  _sim_fingerprints (sensor off) = _sim_fingerprints (sensor st).
Proof.
  intros Hkb. cbv zeta. unfold set_simulation.
  set (st0 := mkState (with_simulation true (sensor st)) (_sim_next_id st)).
  assert (keys_below st0) as Hkb0 by exact Hkb.
  destruct fingerprints as [fps|].
  - destruct (load_keys_below fps st0 Hkb0) as (H1 & H2 & H3 & H4).
    simpl. split; [exact H4|]. split; [done|]. split; [exact H1|].
    split; [exact H2|]. split; [|split; [done|by repeat split]].
    intros fps' k [= <-] Hk. assert (k ∈ dict_keys (_sim_fingerprints
      (sensor (_load_simulation_data (Some fps) st0)))) as Hin by (apply H3; by right).
    split; [done|]. by apply H1.
  - simpl. by repeat split.
Qed.

Lemma set_simulation_prepares_fresh_ids_witness :
  simulation (sensor MoreSamples.sim_state) = true /\
  _connected (sensor MoreSamples.sim_state) = true /\
  keys_below MoreSamples.sim_state /\
  1 <= _sim_next_id MoreSamples.sim_state.
Proof.
  destruct (set_simulation_prepares_fresh_ids (Some [(1, 1); (2, 2)])
              (mkState (mkSensor true None false []) 1))
    as (H1 & H2 & H3 & H4 & _).
  - intros k Hk. by apply elem_of_nil in Hk.
  - by repeat split.
Defined.

(** X8: a simulated enrolment of an existing user on a connected sensor
    always succeeds, without touching the serial line: it hands out the
    current counter as slot id, which no registered fingerprint uses,
    records the slot for the user, advances the counter and writes the
    mapping to the repository.  The slot id is not bounded by 162. *)
Theorem simulation_enroll_assigns_fresh_id user uid position callback polls1 polls2
    fingerprints st port :
  simulation (sensor st) = true ->
  _connected (sensor st) = true ->
  keys_below st ->
  exists run,
    enroll_fingerprint (Some user) uid position callback polls1 polls2
      fingerprints st port = Some run /\
    outcome run =
      Returned true "Fingerprint enrolled successfully (simulation)" (_sim_next_id st) /\
    (_sim_next_id st ∉ dict_keys (_sim_fingerprints (sensor st))) /\
    _sim_next_id (state_after run) = _sim_next_id st + 1 /\
    ((_sim_next_id st, uid) ∈ _sim_fingerprints (sensor (state_after run))) /\
    keys_below (state_after run) /\
    port_after run = port /\
    (SaveFingerprint uid (_sim_next_id st) position ∈ repo_calls run).
Proof.
  intros Hsim Hconn Hkb. unfold enroll_fingerprint. rewrite Hconn, Hsim. simpl.
  eexists. split; [reflexivity|]. simpl. split; [done|]. split.
  { intros Hin. specialize (Hkb _ Hin). lia. }
  split; [done|]. split; [apply dict_set_elem|]. split.
  { intros k Hk. simpl in *. apply dict_set_keys in Hk as [->|Hk]; [lia|].
    specialize (Hkb k Hk). lia. }
  split; [done|]. by constructor.
Qed.

Lemma simulation_enroll_assigns_fresh_id_witness :
  exists run,
    enroll_fingerprint (Some MoreSamples.ada) 1 "right_index" true 1 1 [1; 2]
      MoreSamples.sim_state (MoreSamples.acks 0) = Some run /\
    outcome run =
      Returned true "Fingerprint enrolled successfully (simulation)"
        (_sim_next_id MoreSamples.sim_state) /\
    (_sim_next_id MoreSamples.sim_state
       ∉ dict_keys (_sim_fingerprints (sensor MoreSamples.sim_state))) /\
    _sim_next_id (state_after run) = _sim_next_id MoreSamples.sim_state + 1 /\
    ((_sim_next_id MoreSamples.sim_state, 1)
       ∈ _sim_fingerprints (sensor (state_after run))) /\
    keys_below (state_after run) /\
    port_after run = MoreSamples.acks 0 /\
    (SaveFingerprint 1 (_sim_next_id MoreSamples.sim_state) "right_index"
       ∈ repo_calls run).
Proof.
  apply (simulation_enroll_assigns_fresh_id MoreSamples.ada 1 "right_index" true 1 1
           [1; 2] MoreSamples.sim_state (MoreSamples.acks 0)).
  - reflexivity.
  - reflexivity.
  - intros k Hk. vm_compute in Hk.
    apply elem_of_cons in Hk as [->|Hk]; [by vm_compute|].
    apply elem_of_cons in Hk as [->|Hk]; [by vm_compute|].
    by apply elem_of_nil in Hk.
Defined.

(** *** Enrolment and deletion on the sensor *)

(** A command byte never makes [_send_command] raise. *)
Lemma send_command_total self port command data :
  0 <= command < 256 -> is_Some (_send_command self port command data).
Proof.
  intros Hc. unfold _send_command.
  destruct (simulation self); [by eexists|].
  destruct (negb _); [by eexists|].
  destruct (checksum_covers_package_identifier_parts command data Hc)
    as (c & hi & lo & ->).
  simpl. destruct (rx port) as [|[bs|] rest]; by eexists.
Qed.


(** On hardware a command that can be built is written, once. *)
Lemma send_command_tx self port command data r port' :
  hardware self ->
  _send_command self port command data = Some (r, port') ->
  exists packet, build_packet command data = Some packet /\
                 tx port' = tx port ++ [packet].
Proof.
  intros Hhw Hs.
  destruct (build_packet command data) as [packet|] eqn:Hp.
  - destruct (send_command_hardware self port _ _ _ Hhw Hp)
      as (code & rdata & p & Hs' & Htx & _).
    rewrite Hs in Hs'. injection Hs' as -> ->. by exists packet.
  - destruct Hhw as (Hsim & _ & Hser). unfold _send_command in Hs.
    rewrite Hsim, Hser, Hp in Hs. done.
Qed.

(** X9: an enrolment that does not succeed leaves no trace in the
    repository and does not change the sensor object: it returns False
    with slot id -1, or raises; one that succeeds has written the mapping
    of the user to the returned slot. *)
Theorem enroll_failure_writes_nothing user uid position callback polls1 polls2
    fingerprints st port run :
  enroll_fingerprint user uid position callback polls1 polls2 fingerprints st port
  = Some run ->
  match outcome run with
  | Returned true _ fp_id => SaveFingerprint uid fp_id position ∈ repo_calls run
  | Returned false _ fp_id =>
      fp_id = -1 /\ repo_calls run = [] /\ state_after run = st
  | Raised _ => repo_calls run = [] /\ state_after run = st
  end.
Proof.
  unfold enroll_fingerprint. destruct user as [user|]; [|by intros [= <-]].
  destruct (_connected (sensor st)); simpl; [|by intros [= <-]].
  destruct (simulation (sensor st)); [intros [= <-]; simpl; by constructor|].
  destruct (capture_fingerprint (sensor st) polls1 port) as [[r1 p1]|]; [|done].
  simpl. case_bool_decide; simpl; [|by intros [= <-]].
  destruct (second_capture (sensor st) polls2 p1) as [[[] p2]|]; [| |done]; simpl;
    [|by intros [= <-]].
  destruct (_send_command (sensor st) p2 5 []) as [[[c3 d3] p3]|]; [|done].
  simpl. case_bool_decide; simpl; [|by intros [= <-]].
  destruct (_get_next_fingerprint_id fingerprints) as [fp_id|]; [|by intros [= <-]].
  destruct (_send_command (sensor st) p3 CMD_STORE_CHAR _) as [[[c4 d4] p4]|]; [|done].
  simpl. case_bool_decide; simpl; intros [= <-]; simpl; [by constructor | done].
Qed.

Lemma enroll_failure_writes_nothing_witness :
  -1 = -1 /\ @nil RepoCall = [] /\ MoreSamples.hw_state = MoreSamples.hw_state.
Proof.
  apply (enroll_failure_writes_nothing (Some MoreSamples.ada) 1 "right_index" false
           0 1 [] MoreSamples.hw_state (MoreSamples.acks 5)
           (mkRun (Returned false "First capture failed: Fingerprint capture timed out"
                     (-1))
              MoreSamples.hw_state (MoreSamples.acks 5) [] [])).
  by vm_compute.
Defined.

(** X10: a hardware enrolment that succeeds stores the template in the
    smallest slot of 1..162 that no listed fingerprint uses; the last
    packet it wrote is the store command for buffer 1 with that slot in
    big-endian order, and it made four calls: save the mapping, flag the
    user as enrolled, tell the web API, and write the system log. *)
Theorem hardware_enroll_stores_least_free_slot user uid position callback polls1
    polls2 fingerprints st port run msg fp_id :
  hardware (sensor st) ->
  enroll_fingerprint (Some user) uid position callback polls1 polls2 fingerprints
    st port = Some run ->
  outcome run = Returned true msg fp_id ->
  1 <= fp_id <= 162 /\ (fp_id ∉ fingerprints) /\
  (forall j, 1 <= j < fp_id -> j ∈ fingerprints) /\
  (exists sent hi lo packet,
      build_packet CMD_STORE_CHAR [low_byte 0x01; hi; lo] = Some packet /\
      be16 hi lo = fp_id /\
      tx (port_after run) = sent ++ [packet]) /\
  state_after run = st /\
  repo_calls run =
    [ SaveFingerprint uid fp_id position; UpdateUser uid true;
      ApiEnrollment uid "fingerprint" true;
      SystemLogInfo "FingerprintEnrollment"
        ("Enrolled fingerprint for " +:+ Auth.full_name user)
        ("Fingerprint ID: " +:+ pretty fp_id) ].
Proof.
  intros Hhw. pose proof Hhw as (Hsim & Hconn & _).
  unfold enroll_fingerprint. rewrite Hconn, Hsim. simpl.
  destruct (capture_fingerprint (sensor st) polls1 port) as [[r1 p1]|]; [|done].
  simpl. case_bool_decide; simpl; [|by intros [= <-]].
  destruct (second_capture (sensor st) polls2 p1) as [[[] p2]|]; [| |done]; simpl;
    [|by intros [= <-]].
  destruct (_send_command (sensor st) p2 5 []) as [[[c3 d3] p3]|]; [|done].
  simpl. case_bool_decide; simpl; [|by intros [= <-]].
  destruct (_get_next_fingerprint_id fingerprints) as [slot|] eqn:Hslot;
    [|by intros [= <-]].
  destruct (_send_command (sensor st) p3 CMD_STORE_CHAR _) as [[[c4 d4] p4]|] eqn:Hstore;
    [|done].
  simpl. case_bool_decide; simpl; intros [= <-]; simpl; [|done].
  intros [= <- <-].
  destruct (next_fingerprint_id_range _ _ Hslot) as [Hrange Hfree].
  pose proof (find_least fingerprints slot Hslot) as Hleast.
  split; [done|]. split; [done|]. split; [done|].
  split; [|done].
  destruct (send_command_tx _ _ _ _ _ _ Hhw Hstore) as (packet & Hp & Htx).
  exists (tx p3), (low_byte (Z.shiftr slot 8)), (low_byte slot), packet.
  split; [done|]. split; [|done]. apply be16_split. lia.
Qed.

Lemma hardware_enroll_stores_least_free_slot_witness :
  1 <= 3 <= 162 /\ (3 ∉ [1; 2; 4]) /\ (forall j, 1 <= j < 3 -> j ∈ [1; 2; 4]).
Proof.
  destruct (hardware_enroll_stores_least_free_slot MoreSamples.ada 1 "right_index"
              false 1 1 [1; 2; 4] MoreSamples.hw_state (MoreSamples.acks 6)
              MoreSamples.enrolment "Fingerprint enrolled successfully" 3)
    as (H1 & H2 & H3 & _).
  - repeat split.
  - by vm_compute.
  - by vm_compute.
  - by repeat split.
Defined.

(** X11: when every slot of 1..162 is listed, a hardware enrolment never
    succeeds and writes nothing to the repository: it returns False before
    the slot is chosen, or, once both captures and the merge command have
    gone through, raises "Fingerprint storage full" without sending a
    store command. *)
Theorem enroll_storage_full_raises user uid position callback polls1 polls2
    fingerprints st port run :
  simulation (sensor st) = false ->
  fingerprints <> [] ->
  (forall j, 1 <= j <= 162 -> j ∈ fingerprints) ->
  enroll_fingerprint user uid position callback polls1 polls2 fingerprints st port
  = Some run ->
  (outcome run = Raised "Fingerprint storage full"
   \/ exists msg, outcome run = Returned false msg (-1)) /\
  repo_calls run = [] /\
  state_after run = st /\
  (forall r1 p1 p2 d p3,
      user <> None -> _connected (sensor st) = true ->
      capture_fingerprint (sensor st) polls1 port = Some (r1, p1) ->
      status r1 = CAPTURED ->
      second_capture (sensor st) polls2 p1 = Some (true, p2) ->
      _send_command (sensor st) p2 0x05 [] = Some ((0, d), p3) ->
      outcome run = Raised "Fingerprint storage full" /\ port_after run = p3).
Proof.
  intros Hsim Hne Hfull Hrun.
  assert (_get_next_fingerprint_id fingerprints = None) as Hnone.
  { by apply next_fingerprint_id_is_least_free_none. }
  assert ((outcome run = Raised "Fingerprint storage full"
           \/ exists msg, outcome run = Returned false msg (-1)) /\
          repo_calls run = [] /\ state_after run = st) as (H1 & H2 & H3).
  { revert Hrun. unfold enroll_fingerprint. destruct user as [user|].
    2: { intros [= <-]. simpl. split; [right; by eexists|]. by repeat split. }
    destruct (_connected (sensor st)) eqn:Hconn; simpl.
    2: { intros [= <-]. simpl. split; [right; by eexists|]. by repeat split. }
    rewrite Hsim.
    destruct (capture_fingerprint (sensor st) polls1 port) as [[r1 p1]|]; [|done].
    simpl. case_bool_decide as Hcap; simpl.
    2: { intros [= <-]. simpl. split; [right; by eexists|]. by repeat split. }
    destruct (second_capture (sensor st) polls2 p1) as [[[] p2]|]; [| |done]; simpl.
    2: { intros [= <-]. simpl. split; [right; by eexists|]. by repeat split. }
    destruct (_send_command (sensor st) p2 5 []) as [[[c3 d3] p3]|]; [|done].
    simpl. case_bool_decide as Hmerge; simpl.
    2: { intros [= <-]. simpl. split; [right; by eexists|]. by repeat split. }
    rewrite Hnone. intros [= <-]. simpl. split; [by left|]. by repeat split. }
  split; [done|]. split; [done|]. split; [done|].
  intros r1 p1 p2 d p3 Hu Hconn Hcap Hst Hsec Hmerge.
  unfold enroll_fingerprint in Hrun. destruct user as [user|]; [|done].
  rewrite Hconn, Hsim in Hrun. simpl in Hrun. rewrite Hcap in Hrun. simpl in Hrun.
  rewrite (bool_decide_eq_true_2 _ Hst) in Hrun. simpl in Hrun.
  rewrite Hsec in Hrun. simpl in Hrun. rewrite Hmerge in Hrun. simpl in Hrun.
  rewrite Hnone in Hrun. by injection Hrun as <-.
Qed.

Lemma enroll_storage_full_raises_witness :
  outcome MoreSamples.full_enrolment = Raised "Fingerprint storage full"
  \/ exists msg, outcome MoreSamples.full_enrolment = Returned false msg (-1).
Proof.
  apply (enroll_storage_full_raises (Some MoreSamples.ada) 1 "right_index" false 1 1
           (seqZ 1 162) MoreSamples.hw_state (MoreSamples.acks 6)
           MoreSamples.full_enrolment).
  - reflexivity.
  - discriminate.
  - intros j Hj. apply elem_of_seqZ. lia.
  - by vm_compute.
Defined.

(** It does raise when the sensor acknowledges everything. *)
Example storage_full_is_raised :
  outcome MoreSamples.full_enrolment = Raised "Fingerprint storage full" /\
  length (tx (port_after MoreSamples.full_enrolment)) = 5%nat.
Proof. by vm_compute. Qed.

(** *** Deletion *)

Lemma dict_del_keys k d :
  NoDup (dict_keys d) -> k ∉ dict_keys (dict_del k d).
Proof.
  unfold dict_keys. induction d as [|[k' v'] d IH]; simpl.
  - intros _. apply not_elem_of_nil.
  - rewrite NoDup_cons. intros [Hk' Hnd]. case_bool_decide as Hk; simpl.
    + by subst k'.
    + rewrite not_elem_of_cons. split; [done | by apply IH].
Qed.

(** X12: [delete_fingerprint] is best effort towards the sensor: for a
    user with a mapping it always returns True and always removes the
    mapping from the repository, whatever the sensor answers; on hardware
    it first sends one delete command for the slot, big-endian, with count
    1; in simulation it frees the simulated slot without touching the line
    and without lowering the id counter.  For a user without a mapping it
    returns True and does nothing. *)
Theorem delete_is_best_effort slot uid st port :
  delete_fingerprint None uid st port = Some (true, st, port, []) /\
  (0 <= slot < 65536 ->
   exists st' port' details,
     delete_fingerprint (Some slot) uid st port
     = Some (true, st', port',
             [DeleteFingerprint uid;
              SystemLogInfo "FingerprintDeletion"
                ("Deleted fingerprint for user " +:+ pretty uid) details]) /\
     _sim_next_id st' = _sim_next_id st /\
     (hardware (sensor st) ->
      st' = st /\
      exists hi lo packet,
        build_packet CMD_DELETE_CHAR [hi; lo; low_byte 0x00; low_byte 0x01]
        = Some packet /\
        be16 hi lo = slot /\ tx port' = tx port ++ [packet]) /\
     (simulation (sensor st) = true ->
      port' = port /\
      (NoDup (dict_keys (_sim_fingerprints (sensor st))) ->
       slot ∉ dict_keys (_sim_fingerprints (sensor st'))))).
Proof.
  split; [done|]. intros Hslot. unfold delete_fingerprint.
  destruct (simulation (sensor st)) eqn:Hsim; simpl.
  - eexists _, _, _. split; [reflexivity|]. split.
    { by case_bool_decide. }
    split; [intros (? & _); congruence|]. intros _. split; [done|]. intros Hnd.
    case_bool_decide as Hin; simpl; [by apply dict_del_keys | done].
  - destruct (_connected (sensor st)) eqn:Hconn; simpl.
    + destruct (_send_command (sensor st) port CMD_DELETE_CHAR _)
        as [[r p]|] eqn:Hs.
      * simpl. eexists _, _, _. split; [reflexivity|]. split; [done|].
        split; [|done]. intros Hhw. split; [done|].
        destruct (send_command_tx _ _ _ _ _ _ Hhw Hs) as (packet & Hp & Htx).
        eexists _, _, packet. split; [exact Hp|]. split; [|done].
        by apply be16_split.
      * destruct (send_command_total (sensor st) port CMD_DELETE_CHAR
                    [low_byte (Z.shiftr slot 8); low_byte slot; low_byte 0; low_byte 1])
          as [x Hx]; [done|]. congruence.
    + eexists _, _, _. split; [reflexivity|]. split; [done|].
      split; [|done]. intros (_ & ? & _). congruence.
Qed.

Lemma delete_is_best_effort_witness :
  exists st' port' details,
    delete_fingerprint (Some 2) 2 MoreSamples.sim_state (MoreSamples.acks 1)
    = Some (true, st', port',
            [DeleteFingerprint 2;
             SystemLogInfo "FingerprintDeletion"
               ("Deleted fingerprint for user " +:+ pretty 2) details]) /\
    _sim_next_id st' = _sim_next_id MoreSamples.sim_state /\
    (hardware (sensor MoreSamples.sim_state) ->
     st' = MoreSamples.sim_state /\
     exists hi lo packet,
       build_packet CMD_DELETE_CHAR [hi; lo; low_byte 0x00; low_byte 0x01]
       = Some packet /\
       be16 hi lo = 2 /\ tx port' = tx (MoreSamples.acks 1) ++ [packet]) /\
    (simulation (sensor MoreSamples.sim_state) = true ->
     port' = MoreSamples.acks 1 /\
     (NoDup (dict_keys (_sim_fingerprints (sensor MoreSamples.sim_state))) ->
      2 ∉ dict_keys (_sim_fingerprints (sensor st')))).
Proof.
  apply (delete_is_best_effort 2 2 MoreSamples.sim_state (MoreSamples.acks 1)).
  lia.
Defined.

(** *** Connection *)

Lemma parse_response_ack (bs : list byte) :
  fst (parse_response (take 12 bs)) = 0 ->
  (12 <= length bs)%nat /\ exists c, bs !! 9%nat = Some c /\ int_of_byte c = 0.
Proof.
  unfold parse_response. case_bool_decide as Hlen; [done|].
  rewrite length_take in Hlen. simpl. intros Hc. split; [lia|].
  rewrite lookup_take_lt in Hc by lia.
  destruct (bs !! 9%nat) as [c|] eqn:E; [by exists c|].
  apply lookup_ge_None in E. lia.
Qed.

(** X13: on hardware [connect] succeeds exactly when the serial port
    opens and the sensor answers the password handshake with at least
    twelve bytes whose tenth is the confirmation code 0; it has then
    written the handshake packet EF 01 FF FF FF FF 01 00 07 13 00 00 00 00
    00 1B, holds the open port and is connected.  When the handshake
    fails the port is dropped again, and in either failure the connected
    flag stays as it was.  In simulation mode it succeeds without any
    traffic. *)
Theorem connect_succeeds_iff_handshake_acknowledged opens self port :
  exists ok self' port',
    connect opens self port = Some (ok, self', port') /\
    (simulation self = true ->
     ok = true /\ port' = port /\ _connected self' = true) /\
    (simulation self = false ->
     (ok = true <->
      opens = true /\
      exists bs rest c,
        rx port = Arrives bs :: rest /\ (12 <= length bs)%nat /\
        bs !! 9%nat = Some c /\ int_of_byte c = 0) /\
     (ok = true ->
      _connected self' = true /\ _serial self' = Some true /\
      tx port' = tx port
                   ++ [HEADER ++ ADDRESS
                         ++ (low_byte <$> [0x01; 0x00; 0x07; 0x13; 0x00; 0x00; 0x00;
                                           0x00; 0x00; 0x1B])]) /\
     (ok = false ->
      _connected self' = _connected self /\
      (opens = true -> _serial self' = None) /\
      (opens = false -> self' = self /\ port' = port))).
Proof.
  unfold connect. destruct (simulation self) eqn:Hsim.
  { eexists _, _, _. split; [reflexivity|]. split; [done|]. done. }
  destruct opens; simpl.
  2: { eexists _, _, _. split; [reflexivity|]. split; [done|]. intros _.
       split; [split; [done | by intros [? _]]|]. by split. }
  unfold _verify_password, _send_command. simpl. rewrite Hsim. simpl.
  destruct (rx port) as [|[bs|] rest] eqn:Hrx; simpl.
  - eexists _, _, _. split; [reflexivity|]. split; [done|]. intros _.
    split; [split; [done | by intros (_ & ? & ? & ? & ? & _)]|]. by split.
  - destruct (parse_response (take 12 bs)) as [code rdata] eqn:Hparse. simpl.
    case_bool_decide as Hcode; simpl.
    + eexists _, _, _. split; [reflexivity|]. split; [done|]. intros _.
      split; [|by split].
      split; [|done]. intros _. split; [done|].
      destruct (parse_response_ack bs) as (Hlen & c & Hc & Hz);
        [by rewrite Hparse|].
      by exists bs, rest, c.
    + eexists _, _, _. split; [reflexivity|]. split; [done|]. intros _.
      split; [|by split].
      split; [done|]. intros (_ & bs' & rest' & c & [= <- <-] & Hlen & Hc & Hz).
      destruct Hcode. revert Hparse. unfold parse_response.
      rewrite bool_decide_eq_false_2 by (rewrite length_take; lia).
      rewrite lookup_take_lt by lia. rewrite Hc. simpl. by intros [= <- _].
  - eexists _, _, _. split; [reflexivity|]. split; [done|]. intros _.
    split; [split; [done | by intros (_ & ? & ? & ? & ? & _)]|]. by split.
Qed.

Lemma connect_succeeds_iff_handshake_acknowledged_witness :
  exists ok self' port',
    connect true MoreSamples.offline_sensor (MoreSamples.acks 1)
    = Some (ok, self', port') /\ ok = true /\ _connected self' = true.
Proof.
  destruct (connect_succeeds_iff_handshake_acknowledged true MoreSamples.offline_sensor
              (MoreSamples.acks 1)) as (ok & self' & port' & Hc & _ & Hhw).
  destruct (Hhw eq_refl) as (Hiff & Hyes & _).
  assert (ok = true) as Hok.
  { apply Hiff. split; [done|]. exists Samples.ack, [], (low_byte 0).
    by vm_compute. }
  exists ok, self', port'. split; [done|]. split; [done|]. by apply Hyes.
Defined.

End FingerprintMore.

(** ** More on the face matcher *)

Section FaceMore.

Import Face.

Context {Encoding : Type} (face_distance : Encoding -> Encoding -> Q).

Implicit Types (self : FaceRecognitionEngine Encoding).

(** What [match_known] returns on a non-empty cache, by the index that
    [np.argmin] picks. *)
Lemma match_known_by_index self loc enc :
  _known_encodings self <> [] ->
  let ds := (fun known => face_distance known enc) <$> _known_encodings self in
  match_known face_distance self loc enc =
    match ds !! argmin ds with
    | None => result_of CAMERA_ERROR
    | Some d =>
        if Qle_bool d FACE_RECOGNITION_TOLERANCE then
          match _known_user_data self !! argmin ds with
          | None => result_of CAMERA_ERROR
          | Some u =>
              mkFaceResult FACE_MATCHED (Some (ud_user_id u)) (Some (ud_name u))
                (Some (ud_employee_id u)) (1 - d) (Some (scale4 loc))
          end
        else mkFaceResult UNKNOWN_FACE None None None 0 (Some (scale4 loc))
    end.
Proof.
  intros Hne. unfold match_known. by destruct (_known_encodings self).
Qed.

(** X14: [process_frame] names a user only together with the status
    FACE_MATCHED; the user is then an entry of the cache it matched
    against, and the confidence is at least 0.4.  In particular a frame
    with no face, with several faces or without an encoding never carries
    an identity. *)
Theorem identity_only_when_matched now data capture self uid :
  let r := fst (process_frame face_distance now data capture self) in
  let cache := snd (process_frame face_distance now data capture self) in
  user_id r = Some uid ->
  status r = FACE_MATCHED /\
  (exists u, u ∈ _known_user_data cache /\ ud_user_id u = uid) /\
  (0.4 <= confidence r)%Q /\
  (exists loc enc encs, capture = Detected [loc] (enc :: encs)).
Proof.
  cbv zeta. destruct capture as [| |locs encs]; simpl; try done.
  destruct locs as [|loc [|loc2 locs]]; simpl; try done.
  destruct encs as [|enc encs]; simpl; [done|].
  set (cache := _check_cache_freshness now data self).
  destruct (decide (_known_encodings cache = [])) as [He|Hne].
  { unfold match_known. by rewrite He. }
  rewrite (match_known_by_index cache loc enc Hne). cbv zeta.
  destruct (_ !! _) as [d|] eqn:Hd; [|done].
  destruct (Qle_bool d FACE_RECOGNITION_TOLERANCE) eqn:Hle; [|done].
  destruct (_known_user_data cache !! _) as [u|] eqn:Hu; [|done].
  simpl. intros [= <-]. split; [done|]. split.
  - exists u. split; [|done]. by eapply list_elem_of_lookup_2.
  - split; [|by eexists _, _, _].
    apply Qle_bool_iff in Hle. unfold FACE_RECOGNITION_TOLERANCE in Hle. lra.
Qed.

(** X15: among several enrolled embeddings at the same smallest distance
    the one enrolled first wins: every cache entry in front of the matched
    one is strictly farther from the query. *)
Theorem face_match_prefers_first_enrolled self loc enc :
  cache_ok self ->
  _known_encodings self <> [] ->
  let r := match_known face_distance self loc enc in
  exists idx known u,
    _known_encodings self !! idx = Some known /\
    _known_user_data self !! idx = Some u /\
    (forall j known', (j < idx)%nat -> _known_encodings self !! j = Some known' ->
                      (face_distance known enc < face_distance known' enc)%Q) /\
    (forall j known', _known_encodings self !! j = Some known' ->
                      (face_distance known enc <= face_distance known' enc)%Q) /\
    (status r = FACE_MATCHED -> user_id r = Some (ud_user_id u)).
Proof.
  intros Hok Hne. cbv zeta. rewrite (match_known_by_index self loc enc Hne). cbv zeta.
  set (ds := (fun known => face_distance known enc) <$> _known_encodings self).
  assert (ds <> []) as Hds.
  { subst ds. intros E. by apply fmap_nil_inv in E. }
  destruct (argmin_spec ds Hds) as (d & Hd & Hmin & Hfirst).
  rewrite Hd. pose proof Hd as Hd'. subst ds. rewrite list_lookup_fmap in Hd'.
  destruct (_known_encodings self !! argmin _) as [known|] eqn:Hk; [|done].
  injection Hd' as <-.
  destruct (lookup_lt_is_Some_2 (_known_user_data self) (argmin
    ((fun known => face_distance known enc) <$> _known_encodings self)))
    as [u Hu].
  { rewrite <- Hok. by eapply lookup_lt_Some. }
  rewrite Hu. eexists _, known, u. split; [exact Hk|]. split; [exact Hu|].
  split; [|split].
  - intros j known' Hj Hkj. apply (Hfirst j); [done|].
    by rewrite list_lookup_fmap, Hkj.
  - intros j known' Hkj. apply (Hmin j). by rewrite list_lookup_fmap, Hkj.
  - by destruct (Qle_bool _ _).
Qed.

(** X16: on a frame with exactly one encoded face whose cache is older
    than its time to live the engine asks the repository: when it
    answers, the cache is replaced by the repository's rows, in step,
    with the time of the frame; when it raises, the cache and its old
    timestamp stay, so that the next such frame asks again and is
    refreshed.  On no other frame does the cache change. *)
Theorem cache_refresh_policy now data capture self :
  let cache := snd (process_frame face_distance now data capture self) in
  let one_face c := exists loc enc encs, c = Detected [loc] (enc :: encs) in
  let stale := (_cache_ttl self < now - _last_cache_update self)%Q in
  (forall rows,
      one_face capture -> stale -> data = Some rows ->
      _known_encodings cache = er_encoding <$> rows /\
      (ud_user_id <$> _known_user_data cache) = (er_user_id <$> rows) /\
      _last_cache_update cache = now /\ _cache_ttl cache = _cache_ttl self) /\
  (cache <> self -> one_face capture /\ stale /\ exists rows, data = Some rows) /\
  (data = None -> cache = self) /\
  ((now - _last_cache_update self <= _cache_ttl self)%Q -> cache = self) /\
  (forall now' rows capture',
      one_face capture -> stale -> data = None ->
      (now <= now')%Q -> one_face capture' ->
      let cache' :=
        snd (process_frame face_distance now' (Some rows) capture' cache) in
      _known_encodings cache' = er_encoding <$> rows /\
      (ud_user_id <$> _known_user_data cache') = (er_user_id <$> rows) /\
      _last_cache_update cache' = now') /\
  (cache_ok self -> cache_ok cache).
Proof.
  cbv zeta.
  assert (forall t rows loc enc encs e,
            (_cache_ttl e < t - _last_cache_update e)%Q ->
            let c := snd (process_frame face_distance t (Some rows)
                            (Detected [loc] (enc :: encs)) e) in
            _known_encodings c = er_encoding <$> rows /\
            (ud_user_id <$> _known_user_data c) = (er_user_id <$> rows) /\
            _last_cache_update c = t /\ _cache_ttl c = _cache_ttl e) as Hrefresh.
  { intros t rows loc enc encs e Hstale. simpl. unfold _check_cache_freshness.
    destruct (Qlt_le_dec _ _) as [_|Hfresh]; [|lra]. simpl.
    split; [done|]. split; [|done].
    rewrite <- list_fmap_compose. by apply list_fmap_ext. }
  assert (forall c, snd (process_frame face_distance now data c self) = self \/
                    exists loc enc encs, c = Detected [loc] (enc :: encs)) as Hshape.
  { intros [| |[|loc [|loc2 locs]] [|enc encs]]; simpl; auto.
    right. by eexists _, _, _. }
  split; [|split; [|split; [|split; [|split]]]].
  - intros rows (loc & enc & encs & ->) Hstale ->. by apply Hrefresh.
  - intros Hne. destruct (Hshape capture) as [Hsame|Hone]; [done|].
    split; [done|]. destruct Hone as (loc & enc & encs & ->).
    revert Hne. simpl. unfold _check_cache_freshness.
    destruct (Qlt_le_dec _ _) as [Hstale|Hfresh]; [|done].
    destruct data as [rows|]; [|done]. intros _. split; [done|]. by exists rows.
  - intros ->. destruct (Hshape capture) as [Hsame|(loc & enc & encs & ->)]; [done|].
    simpl. unfold _check_cache_freshness. by destruct (Qlt_le_dec _ _).
  - intros Hfresh. destruct (Hshape capture) as [Hsame|(loc & enc & encs & ->)]; [done|].
    simpl. unfold _check_cache_freshness.
    destruct (Qlt_le_dec _ _) as [Hstale|_]; [lra|done].
  - intros now' rows capture' (loc & enc & encs & ->) Hstale -> Hlater
      (loc' & enc' & encs' & ->).
    assert (snd (process_frame face_distance now None
                   (Detected [loc] (enc :: encs)) self) = self) as ->.
    { simpl. unfold _check_cache_freshness. by destruct (Qlt_le_dec _ _). }
    destruct (Hrefresh now' rows loc' enc' encs' self) as (H1 & H2 & H3 & _); [lra|].
    done.
  - intros Hok. destruct (Hshape capture) as [->|(loc & enc & encs & ->)]; [done|].
    simpl. unfold _check_cache_freshness.
    destruct (Qlt_le_dec _ _) as [Hstale|Hfresh]; [|done].
    destruct data as [rows|]; [|done]. unfold cache_ok. simpl. by rewrite !length_fmap.
Qed.

(** X17: on a metric that is never negative and is 0 from an embedding to
    itself, an enrolled embedding presented again is always matched, with
    confidence 1 up to rational equality. *)
Theorem enrolled_embedding_matches_itself self loc enc :
  (forall a b, (0 <= face_distance a b)%Q) ->
  (face_distance enc enc == 0)%Q ->
  cache_ok self ->
  enc ∈ _known_encodings self ->
  let r := match_known face_distance self loc enc in
  status r = FACE_MATCHED /\ (confidence r == 1)%Q /\
  exists idx known u,
    _known_encodings self !! idx = Some known /\
    _known_user_data self !! idx = Some u /\
    (face_distance known enc == 0)%Q /\
    user_id r = Some (ud_user_id u).
Proof.
  intros Hpos Hself Hok Hin.
  assert (_known_encodings self <> []) as Hne.
  { intros E. rewrite E in Hin. by apply elem_of_nil in Hin. }
  cbv zeta. rewrite (match_known_by_index self loc enc Hne). cbv zeta.
  set (ds := (fun known => face_distance known enc) <$> _known_encodings self).
  assert (ds <> []) as Hds.
  { subst ds. intros E. by apply fmap_nil_inv in E. }
  destruct (argmin_spec ds Hds) as (d & Hd & Hmin & _).
  rewrite Hd. pose proof Hd as Hd'. subst ds. rewrite list_lookup_fmap in Hd'.
  destruct (_known_encodings self !! argmin _) as [known|] eqn:Hk; [|done].
  injection Hd' as <-.
  destruct (lookup_lt_is_Some_2 (_known_user_data self) (argmin
    ((fun known => face_distance known enc) <$> _known_encodings self)))
    as [u Hu].
  { rewrite <- Hok. by eapply lookup_lt_Some. }
  rewrite Hu.
  assert (face_distance known enc == 0)%Q as Hzero.
  { apply list_elem_of_lookup in Hin as [j Hj].
    assert (face_distance known enc <= face_distance enc enc)%Q as Hle.
    { apply (Hmin j). by rewrite list_lookup_fmap, Hj. }
    pose proof (Hpos known enc). lra. }
  assert (Qle_bool (face_distance known enc) FACE_RECOGNITION_TOLERANCE = true) as ->.
  { apply Qle_bool_iff. unfold FACE_RECOGNITION_TOLERANCE. lra. }
  simpl. split; [done|]. split; [lra|].
  eexists _, known, u. split; [exact Hk|]. by repeat split.
Qed.

End FaceMore.

Section FaceMoreWitnesses.

Import Face.

Lemma identity_only_when_matched_witness :
  let r := fst (process_frame Samples.distance1 101 None
                  (Detected [(10, 60, 50, 20)] [0%Q]) Samples.face_engine) in
  let cache := snd (process_frame Samples.distance1 101 None
                      (Detected [(10, 60, 50, 20)] [0%Q]) Samples.face_engine) in
  status r = FACE_MATCHED /\
  (exists u, u ∈ _known_user_data cache /\ ud_user_id u = 1) /\
  (0.4 <= confidence r)%Q /\
  (exists loc enc encs,
      Detected [(10, 60, 50, 20)] [0%Q] = Detected [loc] (enc :: encs)).
Proof.
  apply (identity_only_when_matched Samples.distance1 101 None
           (Detected [(10, 60, 50, 20)] [0%Q]) Samples.face_engine 1).
  by vm_compute.
Defined.

Lemma face_match_prefers_first_enrolled_witness :
  let self := mkEngine [0.3%Q; (-0.3)%Q] [mkUserData 1 "Ada Byron" "E001";
                                          mkUserData 2 "Bob Ross" "E002"] 100 30 in
  let r := match_known Samples.distance1 self (10, 60, 50, 20) 0%Q in
  exists idx known u,
    _known_encodings self !! idx = Some known /\
    _known_user_data self !! idx = Some u /\
    (forall j known', (j < idx)%nat -> _known_encodings self !! j = Some known' ->
                      (Samples.distance1 known 0 < Samples.distance1 known' 0)%Q) /\
    (forall j known', _known_encodings self !! j = Some known' ->
                      (Samples.distance1 known 0 <= Samples.distance1 known' 0)%Q) /\
    (status r = FACE_MATCHED -> user_id r = Some (ud_user_id u)).
Proof.
  apply (face_match_prefers_first_enrolled Samples.distance1
           (mkEngine [0.3%Q; (-0.3)%Q] [mkUserData 1 "Ada Byron" "E001";
                                        mkUserData 2 "Bob Ross" "E002"] 100 30)
           (10, 60, 50, 20) 0%Q).
  - reflexivity.
  - discriminate.
Defined.

(** Two users at the same distance: the first one is named. *)
Example equidistant_users_first_wins :
  user_id (match_known Samples.distance1
             (mkEngine [0.3%Q; (-0.3)%Q] [mkUserData 1 "Ada Byron" "E001";
                                          mkUserData 2 "Bob Ross" "E002"] 100 30)
             (10, 60, 50, 20) 0%Q) = Some 1.
Proof. by vm_compute. Qed.

Lemma cache_refresh_policy_witness :
  let frame := Detected [(10, 60, 50, 20)] [0%Q] in
  let rows := [mkEncodingRow 3 0.5%Q "Cy Young" "E003"] in
  let kept := snd (process_frame Samples.distance1 200 None frame Samples.face_engine) in
  let cache :=
    snd (process_frame Samples.distance1 200 (Some rows) frame Samples.face_engine) in
  let retried := snd (process_frame Samples.distance1 201 (Some rows) frame kept) in
  kept = Samples.face_engine /\
  _known_encodings cache = [0.5%Q] /\
  (ud_user_id <$> _known_user_data cache) = [3] /\
  _last_cache_update cache = 200%Q /\
  _known_encodings retried = [0.5%Q] /\
  _last_cache_update retried = 201%Q.
Proof.
  set (frame := Detected [(10, 60, 50, 20)] [0%Q]).
  set (rows := [mkEncodingRow 3 0.5%Q "Cy Young" "E003"]).
  assert (exists loc enc encs, frame = Detected [loc] (enc :: encs)) as Hone
    by (by eexists _, _, _).
  assert (_cache_ttl Samples.face_engine
          < 200 - _last_cache_update Samples.face_engine)%Q as Hstale by (by vm_compute).
  destruct (cache_refresh_policy Samples.distance1 200 None frame Samples.face_engine)
    as (_ & _ & Hnone & _ & Hretry & _).
  destruct (cache_refresh_policy Samples.distance1 200 (Some rows) frame
              Samples.face_engine) as (Hsome & _).
  destruct (Hsome rows Hone Hstale eq_refl) as (H1 & H2 & H3 & _).
  destruct (Hretry 201%Q rows frame Hone Hstale eq_refl) as (H4 & _ & H5);
    [by vm_compute | exact Hone |].
  cbv zeta. split; [by apply Hnone|]. split; [exact H1|]. split; [exact H2|].
  split; [exact H3|]. split; [exact H4 | exact H5].
Defined.

Lemma enrolled_embedding_matches_itself_witness :
  let r := match_known Samples.distance1 Samples.face_engine (10, 60, 50, 20) 0.9%Q in
  status r = FACE_MATCHED /\ (confidence r == 1)%Q /\
  exists idx known u,
    _known_encodings Samples.face_engine !! idx = Some known /\
    _known_user_data Samples.face_engine !! idx = Some u /\
    (Samples.distance1 known 0.9 == 0)%Q /\
    user_id r = Some (ud_user_id u).
Proof.
  apply (enrolled_embedding_matches_itself Samples.distance1 Samples.face_engine
           (10, 60, 50, 20) 0.9%Q).
  - intros a b. apply Qabs_nonneg.
  - reflexivity.
  - reflexivity.
  - vm_compute. apply list_elem_of_further, list_elem_of_here.
Defined.

End FaceMoreWitnesses.

(** ** More on the door controller *)

Section DoorMore.

Import Door DoorFacts.

Implicit Types (self w : DoorController) (timer : nat) (now : Q) (ok : Calls).

Lemma handle_pending_means_unlocked now ok e w w' :
  holds_pending w -> pending_means_unlocked w ->
  handle now ok e w = Some w' -> pending_means_unlocked w'.
Proof.
  intros Hinv Hpu He j t. destruct e as [d r|r| |d| |timer]; simpl in He.
  - injection He as <-.
    destruct (unlock_fields d r now ok w) as (_ & -> & _ & -> & _).
    destruct (succeeds w ok); [done|].
    rewrite app_nil_r. intros Hj Hf.
    rewrite (cancelled_finished w j t Hinv Hj) in Hf. done.
  - injection He as <-. destruct (lock_fields r now ok w) as (_ & -> & _).
    intros Hj Hf. rewrite (cancelled_finished w j t Hinv Hj) in Hf. done.
  - injection He as <-. destruct (emergency_lock_fields now ok w) as (_ & -> & _).
    intros Hj Hf. rewrite (cancelled_finished w j t Hinv Hj) in Hf. done.
  - injection He as <-. unfold set_unlock_duration.
    destruct (Qlt_le_dec 0 d); apply Hpu.
  - injection He as <-. destruct (cleanup_fields now ok w) as (-> & _).
    intros Hj Hf. rewrite (cancelled_finished w j t Hinv Hj) in Hf. done.
  - apply fire_fields in He as (t0 & _ & _ & -> & _).
    intros Hj Hf.
    rewrite (alter_finish_finished _ _ _ _ (fun j t => cancelled_finished w j t Hinv) Hj)
      in Hf. done.
Qed.

Lemma run_pending_means_unlocked es : forall w w',
  holds_pending w -> pending_means_unlocked w ->
  run es w = Some w' -> pending_means_unlocked w'.
Proof.
  induction es as [|[[now ok] e] es IH]; intros w w' Hinv Hpu Hrun; simpl in Hrun.
  - by injection Hrun as <-.
  - destruct (handle now ok e w) as [w1|] eqn:He; [|done]. simpl in Hrun.
    eapply IH; [| |done].
    + by eapply handle_holds_pending.
    + by eapply handle_pending_means_unlocked.
Qed.

(** X18: at any moment at most one relock timer is waiting; it is the one
    the controller holds, and the door is then unlocked. *)
Theorem at_most_one_pending_timer w i j ti tj :
  reachable w ->
  timers w !! i = Some ti -> finished ti = false ->
  timers w !! j = Some tj -> finished tj = false ->
  i = j /\ _auto_lock_timer w = Some i /\ _state w = UNLOCKED.
Proof.
  intros Hreach Hi Hfi Hj Hfj.
  pose proof (reachable_holds_pending w Hreach) as Hinv.
  pose proof (Hinv i ti Hi Hfi) as Hci. pose proof (Hinv j tj Hj Hfj) as Hcj.
  split; [congruence|]. split; [done|].
  destruct Hreach as (sim & es & Hrun).
  eapply (run_pending_means_unlocked es (initial sim) w); try done.
Qed.

Lemma at_most_one_pending_timer_witness :
  0%nat = 0%nat /\ _auto_lock_timer Samples.unlocked_door = Some 0%nat /\
  _state Samples.unlocked_door = UNLOCKED.
Proof.
  apply (at_most_one_pending_timer Samples.unlocked_door 0 0
           (mkTimer 5 10 false) (mkTimer 5 10 false)).
  - exists true, [(10%Q, all_ok, Unlock None "Manual")]. by vm_compute.
  - by vm_compute.
  - reflexivity.
  - by vm_compute.
  - reflexivity.
Defined.

Lemma handle_at_rest now ok e w w' :
  at_rest w -> handle now ok e w = Some w' -> at_rest w'.
Proof.
  intros [Hst Hlocked] He. unfold at_rest.
  destruct e as [d r|r| |d| |timer]; simpl in He.
  - injection He as <-.
    destruct (unlock_fields d r now ok w) as (_ & _ & _ & -> & _).
    destruct (succeeds w ok); split; auto; done.
  - injection He as <-.
    destruct (lock_fields r now ok w) as (_ & _ & -> & -> & -> & _).
    unfold succeeds. destruct (relay_ok w ok), (log_ok ok); split; auto; done.
  - injection He as <-.
    destruct (emergency_lock_fields now ok w) as (_ & _ & -> & -> & -> & _).
    destruct (relay_ok w ok); split; auto.
    intros HL. by destruct (Hlocked HL) as [-> _].
  - injection He as <-. unfold set_unlock_duration.
    destruct (Qlt_le_dec 0 d); by split.
  - injection He as <-.
    unfold cleanup.
    destruct (lock_fields "System shutdown" now ok
      (match _auto_lock_timer w with Some timer => cancel timer w | None => w end))
      as (_ & _ & -> & -> & -> & _).
    unfold succeeds. destruct (relay_ok _ ok), (log_ok ok); split; auto; done.
  - unfold fire in He. destruct (timers w !! timer) as [t|]; [|done]. simpl in He.
    destruct (due now t); [|done]. injection He as <-. simpl. unfold _auto_lock.
    destruct (lock_fields "Auto-lock timer" now ok w) as (_ & _ & -> & -> & -> & _).
    unfold succeeds. destruct (relay_ok w ok), (log_ok ok); split; auto; done.
Qed.

(** X19: between calls the controller is LOCKED, UNLOCKED or ERROR (the
    transient UNLOCKING and LOCKING are only seen by the observers); a
    locked door has no unlock time and holds no timer; an unlocked door
    has its unlock time recorded. *)
Theorem door_rests_in_three_states w :
  reachable w ->
  (_state w = LOCKED \/ _state w = UNLOCKED \/ _state w = ERROR) /\
  (_state w = LOCKED -> _last_unlock_time w = None /\ _auto_lock_timer w = None) /\
  (_state w = UNLOCKED -> is_Some (_last_unlock_time w)).
Proof.
  intros Hreach.
  assert (at_rest w) as [H1 H2].
  { destruct Hreach as (sim & es & Hrun). revert Hrun.
    assert (at_rest (initial sim)) as Hinit by (split; [by left | done]).
    revert Hinit. generalize (initial sim). revert w.
    induction es as [|[[now ok] e] es IH]; intros w w0 Hinv Hrun; simpl in Hrun.
    - by injection Hrun as <-.
    - destruct (handle now ok e w0) as [w1|] eqn:He; [|done]. simpl in Hrun.
      eapply IH; [|done]. by eapply handle_at_rest. }
  split; [done|]. split; [done|]. by apply reachable_unlocked_has_time.
Qed.

Lemma door_rests_in_three_states_witness :
  (_state Samples.unlocked_door = LOCKED \/ _state Samples.unlocked_door = UNLOCKED
   \/ _state Samples.unlocked_door = ERROR) /\
  (_state Samples.unlocked_door = LOCKED ->
   _last_unlock_time Samples.unlocked_door = None /\
   _auto_lock_timer Samples.unlocked_door = None) /\
  (_state Samples.unlocked_door = UNLOCKED ->
   is_Some (_last_unlock_time Samples.unlocked_door)).
Proof.
  apply (door_rests_in_three_states Samples.unlocked_door).
  exists true, [(10%Q, all_ok, Unlock None "Manual")]. by vm_compute.
Defined.

(** X20: left alone after an [unlock] that went through, the relock
    timer cannot fire before the chosen duration has passed and can fire
    from then on; firing runs [lock] on the timer thread: the door ends
    LOCKED when neither the relay call nor the log write raises there and
    in ERROR when either does, with the unlock time cleared unless it was
    the relay call that raised; the controller then holds no timer, none
    is waiting and none can fire. *)
Theorem auto_relock_locks_door w d reason now ok :
  reachable w ->
  succeeds w ok = true ->
  let w1 := snd (unlock d reason now ok w) in
  let timer := length (timers w) in
  (forall t ok', (t < now + chosen_duration w d)%Q -> fire timer t ok' w1 = None) /\
  (forall t ok',
      (now + chosen_duration w d <= t)%Q ->
      exists w2,
        fire timer t ok' w1 = Some w2 /\
        _state w2 = (if succeeds w ok' then LOCKED else ERROR) /\
        _last_unlock_time w2 = (if relay_ok w ok' then None else Some now) /\
        _auto_lock_timer w2 = None /\
        quiet w2 /\
        (forall timer' t' ok'', fire timer' t' ok'' w2 = None)).
Proof.
  intros Hreach Hok w1 timer.
  pose proof (reachable_holds_pending w Hreach) as Hinv.
  assert (holds_pending w1) as Hinv1.
  { by apply (handle_holds_pending now ok (Unlock d reason) w). }
  destruct (unlock_fields d reason now ok w) as (_ & Hts & _ & _ & Hlast & _ & Hsim).
  fold w1 in Hts, Hlast, Hsim. rewrite Hok in Hts.
  assert (relay_ok w ok = true) as Hrelay.
  { unfold succeeds in Hok. by apply andb_true_iff in Hok as [? _]. }
  rewrite Hrelay in Hlast.
  assert (timers w1 !! timer = Some (mkTimer (chosen_duration w d) now false)) as Ht.
  { rewrite Hts, lookup_app_r by (by rewrite cancelled_length).
    by rewrite cancelled_length, Nat.sub_diag. }
  split.
  - intros t ok' Hearly. unfold fire. rewrite Ht. simpl. unfold due. simpl.
    destruct (Qle_bool _ _) eqn:E; [|done].
    apply Qle_bool_iff in E. lra.
  - intros t ok' Hlate.
    destruct (lock_fields "Auto-lock timer" t ok' w1)
      as (_ & Hts2 & Hc & Hs & Hl & _).
    assert (relay_ok w1 ok' = relay_ok w ok') as Er
      by (unfold relay_ok; by rewrite Hsim).
    assert (succeeds w1 ok' = succeeds w ok') as Es
      by (unfold succeeds; by rewrite Er).
    rewrite Es in Hs. rewrite Er, Hlast in Hl.
    set (locked := snd (lock "Auto-lock timer" t ok' w1)) in *.
    set (w2 := set_timers (alter finish timer (timers locked)) locked).
    assert (quiet w2) as Hq.
    { intros j tj. subst w2. simpl. rewrite Hts2.
      apply alter_finish_finished. intros j' t'. by apply cancelled_finished. }
    exists w2. split.
    { unfold fire. rewrite Ht. simpl. unfold due. simpl.
      by rewrite (proj2 (Qle_bool_iff _ _) Hlate). }
    split; [exact Hs|]. split; [exact Hl|]. split; [exact Hc|]. split; [exact Hq|].
    intros timer' t' ok''. by apply quiet_cannot_fire.
Qed.

Lemma auto_relock_locks_door_witness :
  let w1 := snd (unlock None "Manual" 10 all_ok (initial true)) in
  fire 0 12 all_ok w1 = None /\
  (exists w2,
      fire 0 15 all_ok w1 = Some w2 /\
      _state w2 = LOCKED /\ _last_unlock_time w2 = None /\
      _auto_lock_timer w2 = None /\ quiet w2) /\
  (exists w2, fire 0 15 log_raises w1 = Some w2 /\ _state w2 = ERROR).
Proof.
  assert (reachable (initial true)) as Hreach by (by exists true, []).
  destruct (auto_relock_locks_door (initial true) None "Manual" 10 all_ok Hreach eq_refl)
    as [Hearly Hlate].
  cbv zeta. split; [|split].
  - apply (Hearly 12%Q all_ok). by vm_compute.
  - destruct (Hlate 15%Q all_ok) as (w2 & Hf & Hs & Hl & Hc & Hq & _); [by vm_compute|].
    exists w2. by repeat split.
  - destruct (Hlate 15%Q log_raises) as (w2 & Hf & Hs & _); [by vm_compute|].
    exists w2. by split.
Defined.

(** X21: [lock] returns True and ends LOCKED, from any state, exactly
    when neither the relay call nor the log write raises, and ends in
    ERROR otherwise; it is idempotent on the controller: a second [lock]
    that goes through leaves state, timer, unlock time and timer heap as
    the first one left them. *)
Theorem lock_is_idempotent reason1 reason2 t1 t2 ok1 ok2 w :
  succeeds w ok1 = true -> succeeds w ok2 = true ->
  let w1 := snd (lock reason1 t1 ok1 w) in
  let w2 := snd (lock reason2 t2 ok2 w1) in
  fst (lock reason2 t2 ok2 w1) = true /\
  _state w1 = LOCKED /\ _state w2 = LOCKED /\
  _auto_lock_timer w2 = _auto_lock_timer w1 /\
  _last_unlock_time w2 = _last_unlock_time w1 /\
  timers w2 = timers w1 /\
  is_locked w2 = true /\
  (forall reason t ok,
      fst (lock reason t ok w) = succeeds w ok /\
      _state (snd (lock reason t ok w)) = (if succeeds w ok then LOCKED else ERROR) /\
      (succeeds w ok = true <->
       (simulation w = true \/ gpio_ok ok = true) /\ log_ok ok = true)).
Proof.
  intros Hok1 Hok2 w1 w2.
  destruct (lock_fields reason1 t1 ok1 w) as (_ & Ht1 & Hc1 & Hs1 & Hl1 & _ & Hsim1).
  fold w1 in Ht1, Hc1, Hs1, Hl1, Hsim1. rewrite Hok1 in Hs1.
  destruct (lock_fields reason2 t2 ok2 w1) as (Hr & Ht2 & Hc2 & Hs2 & Hl2 & _).
  fold w2 in Ht2, Hc2, Hs2, Hl2.
  assert (succeeds w1 ok2 = true) as Hok
    by (unfold succeeds, relay_ok in *; by rewrite Hsim1).
  rewrite Hok in Hr, Hs2.
  unfold succeeds in Hok1, Hok.
  apply andb_true_iff in Hok1 as [Hrelay1 _]. apply andb_true_iff in Hok as [Hrelay2 _].
  rewrite Hrelay1 in Hl1. rewrite Hrelay2 in Hl2.
  split; [done|]. split; [done|]. split; [done|]. split; [congruence|].
  split; [congruence|]. split; [|split].
  - rewrite Ht2. unfold cancelled. by rewrite Hc1.
  - unfold is_locked, get_state. by rewrite Hs2.
  - intros reason t ok.
    destruct (lock_fields reason t ok w) as (-> & _ & _ & -> & _).
    split; [done|]. split; [done|]. unfold succeeds, relay_ok.
    by rewrite andb_true_iff, orb_true_iff.
Qed.

Lemma lock_is_idempotent_witness :
  let w1 := snd (lock "Manual" 11 all_ok Samples.unlocked_door) in
  let w2 := snd (lock "Manual" 12 all_ok w1) in
  fst (lock "Manual" 12 all_ok w1) = true /\
  _state w1 = LOCKED /\ _state w2 = LOCKED /\
  _auto_lock_timer w2 = _auto_lock_timer w1 /\
  _last_unlock_time w2 = _last_unlock_time w1 /\
  timers w2 = timers w1 /\
  is_locked w2 = true /\
  _state (snd (lock "Manual" 11 log_raises Samples.unlocked_door)) = ERROR.
Proof.
  destruct (lock_is_idempotent "Manual" "Manual" 11 12 all_ok all_ok
              Samples.unlocked_door eq_refl eq_refl)
    as (H1 & H2 & H3 & H4 & H5 & H6 & H7 & H8).
  cbv zeta. split; [exact H1|]. split; [exact H2|]. split; [exact H3|].
  split; [exact H4|]. split; [exact H5|]. split; [exact H6|]. split; [exact H7|].
  destruct (H8 "Manual" 11%Q log_raises) as (_ & -> & _). by vm_compute.
Defined.

(** X22: an [unlock] whose relay call raises reports failure and leaves
    the controller in ERROR with the old timer cancelled and no new one
    started, so nothing will relock or retry; a later [lock] that goes
    through brings it back to LOCKED. *)
Theorem failed_unlock_reports_error w d reason now reason' now' :
  reachable w ->
  succeeds w gpio_raises = false ->
  let w1 := snd (unlock d reason now gpio_raises w) in
  fst (unlock d reason now gpio_raises w) = false /\
  _state w1 = ERROR /\
  is_locked w1 = false /\ is_unlocked w1 = false /\
  length (timers w1) = length (timers w) /\
  quiet w1 /\
  _last_unlock_time w1 = _last_unlock_time w /\
  _state (snd (lock reason' now' all_ok w1)) = LOCKED.
Proof.
  intros Hreach Hfail w1.
  pose proof (reachable_holds_pending w Hreach) as Hinv.
  destruct (unlock_fields d reason now gpio_raises w)
    as (Hr & Hts & _ & Hs & Hl & _ & Hsim).
  fold w1 in Hts, Hs, Hl, Hsim. rewrite Hfail in Hr, Hts, Hs.
  assert (relay_ok w gpio_raises = false) as Hrelay.
  { unfold succeeds in Hfail. by rewrite andb_true_r in Hfail. }
  rewrite Hrelay in Hl.
  rewrite app_nil_r in Hts.
  split; [done|]. split; [done|].
  split; [unfold is_locked, get_state; by rewrite Hs|].
  split; [unfold is_unlocked, get_state; by rewrite Hs|].
  split; [by rewrite Hts, cancelled_length|].
  split; [intros j t; rewrite Hts; by apply cancelled_finished|].
  split; [done|].
  destruct (lock_fields reason' now' all_ok w1) as (_ & _ & _ & -> & _).
  unfold succeeds, relay_ok. simpl. by rewrite orb_true_r.
Qed.

Lemma failed_unlock_reports_error_witness :
  let w := Samples.unlocked_hardware_door in
  let w1 := snd (unlock None "Manual" 12 gpio_raises w) in
  fst (unlock None "Manual" 12 gpio_raises w) = false /\
  _state w1 = ERROR /\
  is_locked w1 = false /\ is_unlocked w1 = false /\
  length (timers w1) = length (timers w) /\
  quiet w1 /\
  _last_unlock_time w1 = _last_unlock_time w /\
  _state (snd (lock "Manual" 13 all_ok w1)) = LOCKED.
Proof.
  apply (failed_unlock_reports_error Samples.unlocked_hardware_door None "Manual" 12
           "Manual" 13).
  - exists false, [(10%Q, all_ok, Unlock None "Manual")]. by vm_compute.
  - reflexivity.
Defined.

(** [set_unlock_duration] ignores durations that are not positive;
    a positive one is used by later calls of [unlock] without a duration,
    while a timer that is already waiting keeps its interval. *)
Theorem set_unlock_duration_applies_to_later_unlocks w d reason now ok :
  let w1 := set_unlock_duration d w in
  (~ (0 < d)%Q -> w1 = w) /\
  ((0 < d)%Q ->
   unlock_duration w1 = d /\
   timers w1 = timers w /\ _auto_lock_timer w1 = _auto_lock_timer w /\
   _state w1 = _state w /\
   (succeeds w ok = true ->
    timers (snd (unlock None reason now ok w1)) !! length (timers w)
    = Some (mkTimer d now false))).
Proof.
  intros w1. subst w1. unfold set_unlock_duration.
  destruct (Qlt_le_dec 0 d) as [Hpos|Hneg].
  - split; [done|]. intros _. simpl. repeat split.
    intros Hok.
    set (w1 := mkDoor (simulation w) d (_state w) (_auto_lock_timer w)
                 (_last_unlock_time w) (timers w) (trace w)).
    destruct (unlock_fields None reason now ok w1) as (_ & -> & _).
    change (succeeds w1 ok) with (succeeds w ok). rewrite Hok.
    change (timers w) with (timers w1).
    rewrite lookup_app_r by (by rewrite cancelled_length).
    by rewrite cancelled_length, Nat.sub_diag.
  - split; [done|]. intros Hpos. lra.
Qed.

Lemma set_unlock_duration_applies_to_later_unlocks_witness :
  timers (snd (unlock None "Manual" 10 all_ok (set_unlock_duration 8 (initial true))))
    !! length (timers (initial true))
  = Some (mkTimer 8 10 false).
Proof.
  destruct (set_unlock_duration_applies_to_later_unlocks (initial true) 8 "Manual" 10
              all_ok) as (_ & Hpos).
  destruct Hpos as (_ & _ & _ & _ & Hlater); [reflexivity|].
  by apply Hlater.
Defined.

(** X23: [cleanup] always leaves the controller without a held or
    waiting timer, so that no timer can fire afterwards; the door is
    LOCKED when neither the relay call nor the log write of its [lock]
    raises, and in ERROR when either does, in simulation mode as well. *)
Theorem cleanup_locks_door w now ok :
  reachable w ->
  let w1 := cleanup now ok w in
  quiet w1 /\ _auto_lock_timer w1 = None /\
  _state w1 = (if succeeds w ok then LOCKED else ERROR) /\
  (simulation w = true -> log_ok ok = true -> is_locked w1 = true) /\
  (log_ok ok = false -> _state w1 = ERROR) /\
  (forall timer t ok', fire timer t ok' w1 = None).
Proof.
  intros Hreach w1. pose proof (reachable_holds_pending w Hreach) as Hinv.
  destruct (cleanup_fields now ok w) as (Hts & Hc & Hs). fold w1 in Hts, Hc, Hs.
  assert (quiet w1) as Hq.
  { intros j t. rewrite Hts. by apply cancelled_finished. }
  split; [done|]. split; [done|]. split; [done|]. split; [|split].
  - intros Hsim Hlog. unfold is_locked, get_state. rewrite Hs.
    unfold succeeds, relay_ok. by rewrite Hsim, Hlog.
  - intros Hlog. rewrite Hs. unfold succeeds. by rewrite Hlog, andb_false_r.
  - intros timer t ok'. by apply quiet_cannot_fire.
Qed.

Lemma cleanup_locks_door_witness :
  let w1 := cleanup 12 all_ok Samples.unlocked_door in
  let w2 := cleanup 12 log_raises Samples.unlocked_door in
  quiet w1 /\ _auto_lock_timer w1 = None /\
  _state w1 = LOCKED /\ is_locked w1 = true /\
  _state w2 = ERROR /\
  (forall timer t ok', fire timer t ok' w1 = None).
Proof.
  assert (reachable Samples.unlocked_door) as Hreach.
  { exists true, [(10%Q, all_ok, Unlock None "Manual")]. by vm_compute. }
  destruct (cleanup_locks_door Samples.unlocked_door 12 all_ok Hreach)
    as (Hq & Hc & Hs & Hl & _ & Hf).
  destruct (cleanup_locks_door Samples.unlocked_door 12 log_raises Hreach)
    as (_ & _ & _ & _ & He & _).
  cbv zeta. split; [exact Hq|]. split; [exact Hc|]. split; [exact Hs|].
  split; [by apply Hl|]. split; [by apply He|]. exact Hf.
Defined.

End DoorMore.

(** ** More on the authentication engine *)

Section AuthMore.

Import Auth DoorFacts.

Implicit Types (self : AuthenticationEngine) (session : AuthSession).

(** [lock] never sets the state UNLOCKING, which every [unlock] does. *)
Lemma lock_actions reason now ok (w : Door.DoorController) :
  Door.SetState Door.UNLOCKING ∉ actions_since w (snd (Door.lock reason now ok w)).
Proof.
  unfold actions_since, Door.lock, Door.failed, Door.gpio_output.
  destruct (Door._auto_lock_timer w); destruct (Door.simulation w) eqn:Hsim;
    destruct ok as [[] []]; simpl; rewrite ?Hsim; simpl;
    rewrite <- ?app_assoc, drop_app_length; simpl;
    rewrite !not_elem_of_cons; repeat split; try discriminate; apply not_elem_of_nil.
Qed.

Lemma deny_door now ok session reason self :
  door_controller (_deny_access now ok session reason self)
  = snd (Door.lock "Access denied" now ok (door_controller self)).
Proof. reflexivity. Qed.

Lemma no_actions (w : Door.DoorController) : actions_since w w = [].
Proof. unfold actions_since. apply drop_all. Qed.

(** X24: one iteration of the loop calls [unlock] on the door only for a
    session in FACE_MATCHED that has not timed out, and only when the
    fingerprint is MATCHED for the same user and the account is active. *)
Theorem loop_never_unlocks_without_grant now ok users face_result fp_result self :
  let self' := _auth_loop now ok users face_result fp_result self in
  Door.SetState Door.UNLOCKING
    ∈ actions_since (door_controller self) (door_controller self') ->
  exists session,
    _current_session self = Some session /\
    state session = FACE_MATCHED /\
    (now - start_time session <= auth_timeout self)%Q /\
    grant_condition users session fp_result.
Proof.
  cbv zeta. unfold _auth_loop.
  destruct (_current_session self) as [session|] eqn:Hcur.
  2: { cbn -[actions_since]. unfold _process_idle_state.
       repeat (case_match; cbn -[actions_since]);
         rewrite no_actions; by intros ?%elem_of_nil. }
  cbv beta iota zeta. rewrite Hcur. cbn [default from_option]. unfold Datatypes.id.
  assert (forall s, Door.SetState Door.UNLOCKING
             ∈ actions_since (door_controller self)
                 (door_controller
                    (state_machine now ok users face_result fp_result s self)) ->
             state s = FACE_MATCHED /\ grant_condition users s fp_result) as Hsm.
  { intros s. unfold state_machine.
    destruct (state s) eqn:Hst; cbn -[actions_since];
      try (rewrite no_actions; by intros ?%elem_of_nil).
    - unfold _process_idle_state.
      repeat (case_match; cbn -[actions_since]);
        rewrite no_actions; by intros ?%elem_of_nil.
    - unfold _process_fingerprint_verification, grant_condition.
      destruct (Fingerprint.status fp_result) eqn:Hfp; cbv zeta;
        rewrite ?deny_door; cbn [set_session door_controller];
        try (rewrite no_actions; by intros ?%elem_of_nil);
        try (by intros ?%lock_actions).
      cbn [face_user_id fingerprint_user_id].
      destruct (bool_decide (face_user_id s = Fingerprint.user_id fp_result)) eqn:Hid;
        [apply bool_decide_eq_true_1 in Hid
        | rewrite deny_door; by intros ?%lock_actions].
      destruct (get_by_id users (face_user_id s)) as [user|] eqn:Hu;
        [|rewrite deny_door; by intros ?%lock_actions].
      destruct (is_active user) eqn:Hact;
        [|rewrite deny_door; by intros ?%lock_actions].
      intros _. split; [done|]. split; [done|]. split; [done|]. by exists user. }
  destruct (negb (terminal_or_idle (state session))) eqn:Hterm.
  - destruct (Qlt_le_dec _ _) as [Hlate|Hin].
    + cbn -[actions_since]. rewrite no_actions. by intros ?%elem_of_nil.
    + intros H. apply Hsm in H as [? ?]. by exists session.
  - intros H. apply Hsm in H as [Hst ?]. by rewrite Hst in Hterm.
Qed.

Lemma loop_never_unlocks_without_grant_witness :
  exists session,
    _current_session Samples.waiting_engine = Some session /\
    state session = FACE_MATCHED /\
    (105 - start_time session <= auth_timeout Samples.waiting_engine)%Q /\
    grant_condition Samples.users session (Samples.finger_of 1 "Ada Byron").
Proof.
  apply (loop_never_unlocks_without_grant 105 Door.all_ok Samples.users
           (Face.result_of Face.NO_FACE) (Samples.finger_of 1 "Ada Byron")
           Samples.waiting_engine).
  vm_compute. constructor.
Defined.

(** X25: from ACCESS_GRANTED and from ACCESS_DENIED the next iteration
    installs a fresh IDLE session three seconds later, whatever the face
    and fingerprint inputs are; it tells the state observers, writes no
    access-log row and does not touch the door. *)
Theorem terminal_state_resets_to_idle now ok users face_result fp_result session self :
  _current_session self = Some session ->
  state session = ACCESS_GRANTED \/ state session = ACCESS_DENIED ->
  let self' := _auth_loop now ok users face_result fp_result self in
  _current_session self' = Some (new_session (now + 3)) /\
  state (new_session (now + 3)) = IDLE /\
  state_notified self' = state_notified self ++ [new_session (now + 3)] /\
  result_notified self' = result_notified self /\
  access_log self' = access_log self /\
  door_controller self' = door_controller self.
Proof.
  intros Hcur Hst. cbv zeta. unfold _auth_loop. rewrite Hcur.
  cbv beta iota zeta. rewrite Hcur. cbn [default from_option]. unfold Datatypes.id.
  unfold state_machine. by destruct Hst as [-> | ->].
Qed.

Lemma terminal_state_resets_to_idle_witness :
  let self :=
    _process_fingerprint_verification 105 Door.all_ok Samples.users
      (Samples.finger_of 1 "Ada Byron") Samples.face_matched_session
      Samples.waiting_engine in
  let self' :=
    _auth_loop 106 Door.all_ok Samples.users (Samples.face_of 1 "Ada Byron")
      (Samples.finger_of 1 "Ada Byron") self in
  _current_session self' = Some (new_session (106 + 3)) /\
  state (new_session (106 + 3)) = IDLE /\
  state_notified self' = state_notified self ++ [new_session (106 + 3)] /\
  result_notified self' = result_notified self /\
  access_log self' = access_log self /\
  door_controller self' = door_controller self.
Proof.
  eapply (terminal_state_resets_to_idle 106 Door.all_ok Samples.users
            (Samples.face_of 1 "Ada Byron") (Samples.finger_of 1 "Ada Byron")).
  - by vm_compute.
  - left. reflexivity.
Defined.

(** X26: in IDLE an iteration opens a session exactly when the face is
    matched to an existing, active user: the session becomes FACE_MATCHED
    for that user with the clock restarted, the state observers are told,
    and neither the door nor the access log is touched; every other frame
    leaves the engine as it is. *)
Theorem idle_opens_session_iff_active_match now ok users face_result fp_result
    session self :
  _current_session self = Some session ->
  state session = IDLE ->
  let self' := _auth_loop now ok users face_result fp_result self in
  let active_match :=
    Face.status face_result = Face.FACE_MATCHED /\
    exists user, get_by_id users (Face.user_id face_result) = Some user /\
                 is_active user = true in
  (active_match ->
   exists s,
     _current_session self' = Some s /\
     state s = FACE_MATCHED /\
     face_user_id s = Face.user_id face_result /\
     Auth.face_result s = Some face_result /\
     start_time s = now /\
     state_notified self' = state_notified self ++ [s] /\
     access_log self' = access_log self /\
     door_controller self' = door_controller self) /\
  (~ active_match -> self' = self).
Proof.
  intros Hcur Hst. cbv zeta. unfold _auth_loop. rewrite Hcur.
  cbv beta iota zeta. rewrite Hcur. cbn [default from_option]. unfold Datatypes.id.
  rewrite Hst. change (negb (terminal_or_idle IDLE)) with false. cbv iota.
  unfold state_machine. rewrite Hst. unfold _process_idle_state.
  case_bool_decide as Hface.
  - destruct (get_by_id users (Face.user_id face_result)) as [user|] eqn:Hu.
    + destruct (is_active user) eqn:Hact.
      * split; [intros _; by eexists | intros Hn; destruct Hn; eauto].
      * split; [intros (_ & u & [= <-] & ?); congruence | done].
    + split; [by intros (_ & u & ? & ?) | done].
  - split; [by intros (? & _) | done].
Qed.

Lemma idle_opens_session_iff_active_match_witness :
  let self' :=
    _auth_loop 50 Door.all_ok Samples.users (Samples.face_of 1 "Ada Byron")
      (Samples.finger_of 1 "Ada Byron") Samples.idle_engine in
  let active_match :=
    Face.status (Samples.face_of 1 "Ada Byron") = Face.FACE_MATCHED /\
    exists user,
      get_by_id Samples.users (Face.user_id (Samples.face_of 1 "Ada Byron")) = Some user /\
      is_active user = true in
  (active_match ->
   exists s,
     _current_session self' = Some s /\
     state s = FACE_MATCHED /\
     face_user_id s = Face.user_id (Samples.face_of 1 "Ada Byron") /\
     Auth.face_result s = Some (Samples.face_of 1 "Ada Byron") /\
     start_time s = 50%Q /\
     state_notified self' = state_notified Samples.idle_engine ++ [s] /\
     access_log self' = access_log Samples.idle_engine /\
     door_controller self' = door_controller Samples.idle_engine) /\
  (~ active_match -> self' = Samples.idle_engine).
Proof.
  apply (idle_opens_session_iff_active_match 50 Door.all_ok Samples.users
           (Samples.face_of 1 "Ada Byron") (Samples.finger_of 1 "Ada Byron")
           (new_session 0) Samples.idle_engine).
  - reflexivity.
  - reflexivity.
Defined.

(** X27: [cancel_authentication] always ends with a fresh IDLE session;
    a session that was under way is first shown to the state observers as
    ACCESS_DENIED with reason "Cancelled"; nothing is written to the
    access log and the door is not touched. *)
Theorem cancel_resets_without_log now self :
  let self' := cancel_authentication now self in
  _current_session self' = Some (new_session now) /\
  access_log self' = access_log self /\
  result_notified self' = result_notified self /\
  door_controller self' = door_controller self /\
  (forall session,
      _current_session self = Some session ->
      terminal_or_idle (state session) = false ->
      exists cancelled,
        state cancelled = ACCESS_DENIED /\
        failure_reason cancelled = Some "Cancelled" /\
        face_user_id cancelled = face_user_id session /\
        state_notified self' = state_notified self ++ [cancelled; new_session now]) /\
  ((forall session, _current_session self = Some session ->
                    terminal_or_idle (state session) = true) ->
   state_notified self' = state_notified self ++ [new_session now]).
Proof.
  cbv zeta. unfold cancel_authentication.
  destruct (_current_session self) as [s|] eqn:Hcur.
  - destruct (terminal_or_idle (state s)) eqn:Ht; cbn.
    + repeat (split; [done|]). split; [|done].
      intros session [= <-] Hf. congruence.
    + repeat (split; [done|]). split.
      * intros session [= <-] _.
        exists (mkSession ACCESS_DENIED (Auth.face_result s) (fingerprint_result s)
                  (face_user_id s) (fingerprint_user_id s) (matched_user_id s)
                  (matched_user_name s) (start_time s) (end_time s)
                  (Some "Cancelled") (confidence s)).
        split; [done|]. split; [done|]. split; [done|]. by rewrite <- app_assoc.
      * intros H. specialize (H s eq_refl). congruence.
  - cbn. repeat (split; [done|]). done.
Qed.

Lemma cancel_resets_without_log_witness :
  exists cancelled,
    state cancelled = ACCESS_DENIED /\
    failure_reason cancelled = Some "Cancelled" /\
    face_user_id cancelled = face_user_id Samples.face_matched_session /\
    state_notified (cancel_authentication 105 Samples.waiting_engine)
    = state_notified Samples.waiting_engine ++ [cancelled; new_session 105].
Proof.
  apply (cancel_resets_without_log 105 Samples.waiting_engine).
  - reflexivity.
  - reflexivity.
Defined.

(** X28: with a sensor that is not connected every scan answers
    SENSOR_DISCONNECTED without traffic, for which the engine has no
    branch: a session in FACE_MATCHED is left exactly as it is, iteration
    after iteration, until the session timeout ends it with a FAILED row
    in the access log and the door untouched. *)
Theorem disconnected_sensor_stalls_session now ok users face_result sensor repo polls
    rnd port session self :
  Fingerprint._connected sensor = false ->
  _current_session self = Some session ->
  state session = FACE_MATCHED ->
  exists fp_result,
    FingerprintOps.scan_once sensor repo polls rnd port
    = Some (fp_result, Some fp_result, port) /\
    Fingerprint.status fp_result = Fingerprint.SENSOR_DISCONNECTED /\
    ((now - start_time session <= auth_timeout self)%Q ->
     _auth_loop now ok users face_result fp_result self = self) /\
    ((auth_timeout self < now - start_time session)%Q ->
     let self' := _auth_loop now ok users face_result fp_result self in
     _current_session self' = Some (new_session (now + 2)) /\
     door_controller self' = door_controller self /\
     exists record, access_log self' = access_log self ++ [record] /\
                    result record = "FAILED").
Proof.
  intros Hconn Hcur Hst.
  exists (Fingerprint.result_of Fingerprint.SENSOR_DISCONNECTED "Sensor not connected").
  split.
  { unfold FingerprintOps.scan_once, Fingerprint.search_fingerprint. by rewrite Hconn. }
  split; [done|].
  unfold _auth_loop. rewrite Hcur. cbv beta iota zeta. rewrite Hcur.
  cbn [default from_option]. unfold Datatypes.id. rewrite Hst.
  change (negb (terminal_or_idle FACE_MATCHED)) with true. cbv iota.
  destruct (Qlt_le_dec _ _) as [Hlate|Hin]; split; try (intros; lra).
  - intros _. cbn. split; [done|]. split; [done|]. by eexists.
  - intros _. unfold state_machine. rewrite Hst. done.
Qed.

Lemma disconnected_sensor_stalls_session_witness :
  exists fp_result,
    FingerprintOps.scan_once MoreSamples.offline_sensor ∅ 3 0 (MoreSamples.acks 0)
    = Some (fp_result, Some fp_result, MoreSamples.acks 0) /\
    Fingerprint.status fp_result = Fingerprint.SENSOR_DISCONNECTED /\
    ((105 - start_time Samples.face_matched_session
      <= auth_timeout Samples.waiting_engine)%Q ->
     _auth_loop 105 Door.all_ok Samples.users (Face.result_of Face.NO_FACE) fp_result
       Samples.waiting_engine = Samples.waiting_engine) /\
    ((auth_timeout Samples.waiting_engine
      < 105 - start_time Samples.face_matched_session)%Q ->
     let self' :=
       _auth_loop 105 Door.all_ok Samples.users (Face.result_of Face.NO_FACE) fp_result
         Samples.waiting_engine in
     _current_session self' = Some (new_session (105 + 2)) /\
     door_controller self' = door_controller Samples.waiting_engine /\
     exists record,
       access_log self' = access_log Samples.waiting_engine ++ [record] /\
       result record = "FAILED").
Proof.
  apply (disconnected_sensor_stalls_session 105 Door.all_ok Samples.users
           (Face.result_of Face.NO_FACE) MoreSamples.offline_sensor ∅ 3 0
           (MoreSamples.acks 0) Samples.face_matched_session Samples.waiting_engine).
  - reflexivity.
  - reflexivity.
  - reflexivity.
Defined.

End AuthMore.

(** ** The desktop application's state machine *)

Section GuiFacts.

Import Gui DoorFacts.

Implicit Types (self : SmartDoorGUI).

Lemma gui_lock_actions reason now ok (w : Door.DoorController) :
  Door.SetState Door.UNLOCKING ∉ actions_since w (snd (Door.lock reason now ok w)).
Proof.
  unfold actions_since, Door.lock, Door.failed, Door.gpio_output.
  destruct (Door._auto_lock_timer w); destruct (Door.simulation w) eqn:Hsim;
    destruct ok as [[] []]; simpl; rewrite ?Hsim; simpl;
    rewrite <- ?app_assoc, drop_app_length; simpl;
    rewrite !not_elem_of_cons; repeat split; try discriminate; apply not_elem_of_nil.
Qed.

Lemma gui_no_actions (w : Door.DoorController) : actions_since w w = [].
Proof. unfold actions_since. apply drop_all. Qed.

(** X29: the desktop application calls [unlock] on the door only while
    handling a fingerprint result in state FACE_MATCHED, and only when the
    result is MATCHED for the very user whose face was matched and that
    account is active; processing a camera frame never unlocks. *)
Theorem gui_unlocks_only_on_same_active_user now ok users e self :
  Door.SetState Door.UNLOCKING
    ∈ actions_since (door_controller self) (door_controller (handle now ok users e self)) ->
  exists fp_result user,
    e = Scanned fp_result /\
    _auth_state self = Auth.FACE_MATCHED /\
    Fingerprint.status fp_result = Fingerprint.MATCHED /\
    Fingerprint.user_id fp_result = _matched_face_user_id self /\
    Auth.get_by_id users (Fingerprint.user_id fp_result) = Some user /\
    Auth.is_active user = true /\
    _auth_state (handle now ok users e self) = Auth.ACCESS_GRANTED.
Proof.
  destruct e as [face_result|fp_result]; simpl.
  - unfold _process_authentication.
    destruct (_auth_state self);
      try (rewrite gui_no_actions; by intros ?%elem_of_nil).
    + case_bool_decide; [|rewrite gui_no_actions; by intros ?%elem_of_nil].
      destruct (Auth.get_by_id users _) as [user|];
        [|rewrite gui_no_actions; by intros ?%elem_of_nil].
      destruct (Auth.is_active user); simpl;
        rewrite gui_no_actions; by intros ?%elem_of_nil.
    + destruct (_auth_start_time self) as [start|];
        [|rewrite gui_no_actions; by intros ?%elem_of_nil].
      destruct (Qlt_le_dec 30 _); [|rewrite gui_no_actions; by intros ?%elem_of_nil].
      simpl. by intros ?%gui_lock_actions.
    + destruct (_auth_start_time self) as [start|];
        [|rewrite gui_no_actions; by intros ?%elem_of_nil].
      destruct (Qlt_le_dec 5 _); simpl; rewrite gui_no_actions; by intros ?%elem_of_nil.
    + destruct (_auth_start_time self) as [start|];
        [|rewrite gui_no_actions; by intros ?%elem_of_nil].
      destruct (Qlt_le_dec 5 _); simpl; rewrite gui_no_actions; by intros ?%elem_of_nil.
    + destruct (_auth_start_time self) as [start|];
        [|rewrite gui_no_actions; by intros ?%elem_of_nil].
      destruct (Qlt_le_dec 5 _); simpl; rewrite gui_no_actions; by intros ?%elem_of_nil.
  - unfold _verify_fingerprint, _handle_fingerprint_result. cbn [_auth_state].
    case_bool_decide as Hst; simpl;
      [|rewrite gui_no_actions; by intros ?%elem_of_nil].
    destruct (Fingerprint.status fp_result) eqn:Hfp; simpl;
      try (rewrite gui_no_actions; by intros ?%elem_of_nil);
      try (by intros ?%gui_lock_actions).
    case_bool_decide as Hid; [|by intros ?%gui_lock_actions].
    destruct (Auth.get_by_id users _) as [user|] eqn:Hu;
      [|by intros ?%gui_lock_actions].
    destruct (Auth.is_active user) eqn:Hact; [|by intros ?%gui_lock_actions].
    intros _. by exists fp_result, user.
Qed.

Lemma gui_unlocks_only_on_same_active_user_witness :
  exists fp_result user,
    Scanned (Samples.finger_of 1 "Ada Byron") = Scanned fp_result /\
    _auth_state MoreSamples.gui_waiting = Auth.FACE_MATCHED /\
    Fingerprint.status fp_result = Fingerprint.MATCHED /\
    Fingerprint.user_id fp_result = _matched_face_user_id MoreSamples.gui_waiting /\
    Auth.get_by_id Samples.users (Fingerprint.user_id fp_result) = Some user /\
    Auth.is_active user = true /\
    _auth_state (handle 105 Door.all_ok Samples.users
                   (Scanned (Samples.finger_of 1 "Ada Byron")) MoreSamples.gui_waiting)
    = Auth.ACCESS_GRANTED.
Proof.
  apply (gui_unlocks_only_on_same_active_user 105 Door.all_ok Samples.users
           (Scanned (Samples.finger_of 1 "Ada Byron")) MoreSamples.gui_waiting).
  vm_compute. constructor.
Defined.

(** X30: in the desktop application both timeouts end as a denial: a
    session in FACE_MATCHED that is more than 30 seconds old, and a
    fingerprint scan that reports TIMEOUT, each leave the state
    ACCESS_DENIED, call [lock] on the door and append an access-log row
    with result DENIED and the reason; the state TIMEOUT is never what an
    event leaves behind. *)
Theorem gui_timeouts_are_recorded_as_denied now ok users face_result fp_result self
    start :
  _auth_state self = Auth.FACE_MATCHED ->
  _auth_start_time self = Some start ->
  ((30 < now - start)%Q ->
   let self' := handle now ok users (Frame face_result) self in
   _auth_state self' = Auth.ACCESS_DENIED /\
   _auth_start_time self' = Some now /\
   door_controller self' =
     snd (Door.lock "Access denied" now ok (door_controller self)) /\
   access_log self' =
     access_log self ++
       [Auth.mkAccessRecord (_matched_face_user_id self) "ENTRY" "DENIED"
          (bool_decide (is_Some (_current_face_result self))) false
          (Some "Authentication timeout") None]) /\
  ((now - start <= 30)%Q -> handle now ok users (Frame face_result) self = self) /\
  (Fingerprint.status fp_result = Fingerprint.TIMEOUT ->
   let self' := handle now ok users (Scanned fp_result) self in
   _auth_state self' = Auth.ACCESS_DENIED /\
   door_controller self' =
     snd (Door.lock "Access denied" now ok (door_controller self)) /\
   access_log self' =
     access_log self ++
       [Auth.mkAccessRecord (_matched_face_user_id self) "ENTRY" "DENIED"
          (bool_decide (is_Some (_current_face_result self))) false
          (Some "Fingerprint scan timeout") None]) /\
  (forall e, _auth_state (handle now ok users e self) <> Auth.TIMEOUT).
Proof.
  intros Hst Hstart. split; [|split; [|split]].
  - intros Hlate. simpl. unfold _process_authentication. rewrite Hst, Hstart.
    destruct (Qlt_le_dec 30 (now - start)) as [_|Hle]; [|lra]. by simpl.
  - intros Hin. simpl. unfold _process_authentication. rewrite Hst, Hstart.
    destruct (Qlt_le_dec 30 (now - start)) as [Hlt|_]; [lra|done].
  - intros Hfp. simpl. unfold _verify_fingerprint, _handle_fingerprint_result.
    cbn [_auth_state]. rewrite Hst. rewrite bool_decide_eq_true_2 by done.
    rewrite Hfp. by simpl.
  - intros [face|fp]; simpl.
    + unfold _process_authentication. rewrite Hst, Hstart.
      destruct (Qlt_le_dec 30 (now - start)); simpl; [done | by rewrite Hst].
    + unfold _verify_fingerprint, _handle_fingerprint_result. cbn [_auth_state].
      rewrite Hst. rewrite bool_decide_eq_true_2 by done. simpl.
      destruct (Fingerprint.status fp); simpl; try (by rewrite ?Hst).
      case_bool_decide; [|done].
      destruct (Auth.get_by_id users _) as [user|]; [|done].
      by destruct (Auth.is_active user).
Qed.

Lemma gui_timeouts_are_recorded_as_denied_witness :
  let self' :=
    handle 131 Door.all_ok Samples.users (Frame (Face.result_of Face.NO_FACE))
      MoreSamples.gui_waiting in
  _auth_state self' = Auth.ACCESS_DENIED /\
  _auth_start_time self' = Some 131%Q /\
  door_controller self' =
    snd (Door.lock "Access denied" 131 Door.all_ok (door_controller MoreSamples.gui_waiting)) /\
  access_log self' =
    access_log MoreSamples.gui_waiting ++
      [Auth.mkAccessRecord (_matched_face_user_id MoreSamples.gui_waiting) "ENTRY"
         "DENIED"
         (bool_decide (is_Some (_current_face_result MoreSamples.gui_waiting))) false
         (Some "Authentication timeout") None].
Proof.
  destruct (gui_timeouts_are_recorded_as_denied 131 Door.all_ok Samples.users
              (Face.result_of Face.NO_FACE) (Samples.finger_of 1 "Ada Byron")
              MoreSamples.gui_waiting 100) as (H & _).
  - reflexivity.
  - reflexivity.
  - apply H. reflexivity.
Defined.

End GuiFacts.
